(** * HappyTube: record store, script detection and stage pipeline

    A shallow embedding of the parts of the [happytube] package that the
    specification talks about:

    - [happytube/utils/__init__.py]    ([determine_text_script]),
    - [happytube/models/markdown.py]   ([MarkdownFile]),
    - [happytube/stages/fetch.py]      ([FetchStage]),
    - [happytube/stages/assess.py]     ([AssessStage]),
    - [happytube/stages/enhance.py]    ([EnhanceStage]),
    - [happytube/stages/report.py] and [happytube/models/video.py]
      (the parquet export window),
    - [happytube/cli/commands.py]      ([run_all], [report], [enhance]),
    - [happytube/prompts.py]           ([get_prompt]),
    - [happytube/config/config_manager.py] ([ConfigManager]).

    Python [str] values are sequences of Unicode code points, Python [dict]
    values are insertion-ordered association lists without duplicate keys,
    exceptions are an explicit [Raise] result.  Functions of third-party
    libraries (PyYAML, [html], [unicodedata], [csv], the Anthropic client,
    the clock, the file system) are parameters of the sections that use
    them. *)

From Stdlib Require Import ZArith NArith QArith Lia List Ascii String Bool.
From Stdlib Require Import DecimalString.
From stdpp Require Import base option list gmap.
From Equations Require Import Equations.

Set Default Proof Using "Type".
Open Scope Z_scope.

(** ** Python strings *)

(** A character is a Unicode code point, a [str] is a sequence of them. *)
Definition char := N.
Definition str := list N.

(** [lit "abc"] is the [str] of an ASCII literal. *)
Definition lit (s : string) : str :=
  List.map N_of_ascii (list_ascii_of_string s).

(** [s.startswith(p)] *)
Fixpoint startswith (p s : str) : bool :=
  match p, s with
  | [], _ => true
  | _ :: _, [] => false
  | a :: p', b :: s' => if N.eqb a b then startswith p' s' else false
  end.

(** The first occurrence of [sep] in [s], as the text before it and the
    text after it; [None] when [sep] does not occur.  This is
    [s.partition(sep)], and one step of [s.split(sep, n)]. *)
Fixpoint split_first (sep s : str) : option (str * str) :=
  if startswith sep s then Some ([], drop (length sep) s)
  else match s with
       | [] => None
       | c :: s' =>
           match split_first sep s' with
           | Some (a, b) => Some (c :: a, b)
           | None => None
           end
       end.

(** [s.split(sep, maxsplit)] for a non-empty [sep]: at most [maxsplit]
    splits, from the left. *)
Fixpoint split_max (sep : str) (maxsplit : nat) (s : str) : list str :=
  match maxsplit with
  | O => [s]
  | S n =>
      match split_first sep s with
      | None => [s]
      | Some (a, b) => a :: split_max sep n b
      end
  end.

(** [sep in s] *)
Definition contains (sep s : str) : bool :=
  match split_first sep s with Some _ => true | None => false end.

(** [c.isspace()] for one code point: the characters of bidirectional type
    WS, B or S and of category Zs, as CPython's [_PyUnicode_IsWhitespace]
    lists them. *)
Definition isspace (c : char) : bool :=
  ((9 <=? c) && (c <=? 13) || (28 <=? c) && (c <=? 32) ||
   (c =? 133) || (c =? 160) || (c =? 5760) ||
   (8192 <=? c) && (c <=? 8202) || (c =? 8232) || (c =? 8233) ||
   (c =? 8239) || (c =? 8287) || (c =? 12288))%N.

Fixpoint lstrip (s : str) : str :=
  match s with
  | [] => []
  | c :: s' => if isspace c then lstrip s' else s
  end.

Definition rstrip (s : str) : str := rev (lstrip (rev s)).

(** [s.strip()] *)
Definition strip (s : str) : str := rstrip (lstrip s).

(** The first word of [s.split()], the split on runs of whitespace;
    [None] where [s.split()] is empty and [[0]] raises [IndexError]. *)
Fixpoint until_space (s : str) : str :=
  match s with
  | [] => []
  | c :: s' => if isspace c then [] else c :: until_space s'
  end.

Definition first_word (s : str) : option str :=
  match lstrip s with
  | [] => None
  | w => Some (until_space w)
  end.

(** ** Exceptions *)

Inductive exn :=
| ZeroDivisionError
| IndexError
| ValueError
| TypeError
| YAMLError
| OSError
| APIError
| UnicodeEncodeError
| OverflowError.

Inductive result (A : Type) :=
| Ok (a : A)
| Raise (e : exn).
Arguments Ok {A} a.
Arguments Raise {A} e.

(** Sequencing: an exception ends the computation.  With these instances
    [x ← r; k] runs [r], binds its value to [x] and continues with [k]. *)
#[global] Instance result_ret : MRet result := fun _ a => Ok a.
#[global] Instance result_bind : MBind result := fun _ _ k r =>
  match r with
  | Ok a => k a
  | Raise e => Raise e
  end.

(** ** [collections.Counter] *)

Module Counter.

(** A [Counter] keeps its keys in insertion order. *)
Definition t := list (str * nat).

Definition eq_str (a b : str) : bool := bool_decide (a = b).

(** [counter[k]] (a missing key counts 0) *)
Fixpoint get (k : str) (c : t) : nat :=
  match c with
  | [] => O
  | (k', n) :: c' => if eq_str k k' then n else get k c'
  end.

(** [counter[k] += 1] *)
Fixpoint incr (k : str) (c : t) : t :=
  match c with
  | [] => [(k, 1%nat)]
  | (k', n) :: c' =>
      if eq_str k k' then (k', S n) :: c' else (k', n) :: incr k c'
  end.

(** [max(items, key=count)]: the first item with the largest count. *)
Fixpoint first_max (best : str * nat) (c : t) : str * nat :=
  match c with
  | [] => best
  | (k, n) :: c' =>
      if (snd best <? n)%nat then first_max (k, n) c' else first_max best c'
  end.

(** [counter.most_common(1)] *)
Definition most_common1 (c : t) : list (str * nat) :=
  match c with
  | [] => []
  | kn :: c' => [first_max kn c']
  end.

Definition keys (c : t) : list str := List.map fst c.

End Counter.

(** ** [happytube/utils/__init__.py] *)

Section Utils.

(** [html.unescape] *)
Variable html_unescape : str -> str.
(** [char.isalpha()] *)
Variable isalpha : char -> bool.
(** [unicodedata.name(char)]; [None] where it raises [ValueError]. *)
Variable unicodedata_name : char -> option str.

Definition MIXED : str := lit "MIXED".

(** [unicodedata.name(char).split()[0]] *)
Definition script_of (c : char) : result str :=
  match unicodedata_name c with
  | None => Raise ValueError
  | Some name =>
      match first_word name with
      | None => Raise IndexError
      | Some w => Ok w
      end
  end.

(** The loop [for char in beginning: if char.isalpha(): ...] *)
Fixpoint tally (beginning : str) (script_counter : Counter.t)
  : result Counter.t :=
  match beginning with
  | [] => Ok script_counter
  | c :: rest =>
      if isalpha c then
        script ← script_of c;
        tally rest (Counter.incr script script_counter)
      else tally rest script_counter
  end.

(** [determine_text_script].  The test
    [num_occurrences / len(beginning) < 0.5] divides two integers between
    0 and 10; the quotient is below one half exactly when
    [2 * num_occurrences < len(beginning)], and the nearest such quotient,
    4/9, is far from 0.5, so the floating-point comparison decides the
    same. *)
Definition determine_text_script (text : str) : result str :=
  let text := html_unescape text in
  let beginning := take 10 text in
  script_counter ← tally beginning [];
  let most_common := Counter.most_common1 script_counter in
  let num_occurrences :=
    match most_common with
    | (_, n) :: _ => n
    | [] => O
    end in
  if Nat.eqb (length beginning) 0 then Raise ZeroDivisionError
  else if (2 * num_occurrences <? length beginning)%nat then Ok MIXED
  else match most_common with
       | (s, _) :: _ => Ok s
       | [] => Raise IndexError
       end.

(** The tally as the specification words it: the number of alphabetic
    characters of the prefix whose writing-system name is [s]. *)
Definition names_script (s : str) (c : char) : bool :=
  isalpha c &&
  match script_of c with
  | Ok w => Counter.eq_str s w
  | Raise _ => false
  end.

Definition script_count (s : str) (prefix : str) : nat :=
  length (List.filter (names_script s) prefix).

(** Every alphabetic character of [prefix] has a name. *)
Definition all_named (prefix : str) : bool :=
  forallb (fun c => negb (isalpha c) ||
                    match script_of c with Ok _ => true | Raise _ => false end)
          prefix.

End Utils.

(** An excerpt of the Unicode Character Database: the alphabetic characters
    of the texts the specification classifies, with their names. *)
Definition ucd_excerpt : list (char * string) :=
  [ (72%N,    "LATIN CAPITAL LETTER H");
    (101%N,   "LATIN SMALL LETTER E");
    (108%N,   "LATIN SMALL LETTER L");
    (111%N,   "LATIN SMALL LETTER O");
    (114%N,   "LATIN SMALL LETTER R");
    (119%N,   "LATIN SMALL LETTER W");
    (20320%N, "CJK UNIFIED IDEOGRAPH-4F60");
    (22909%N, "CJK UNIFIED IDEOGRAPH-597D");
    (45397%N, "HANGUL SYLLABLE NYEONG");
    (49464%N, "HANGUL SYLLABLE SE");
    (50504%N, "HANGUL SYLLABLE AN");
    (50836%N, "HANGUL SYLLABLE YO");
    (54616%N, "HANGUL SYLLABLE HA") ]%string.

Fixpoint ucd_lookup (c : char) (table : list (char * string)) : option str :=
  match table with
  | [] => None
  | (c', name) :: table' =>
      if N.eqb c c' then Some (lit name) else ucd_lookup c table'
  end.

(** [isalpha] and [unicodedata.name] read from a table of letters. *)
Definition isalpha_of (table : list (char * string)) (c : char) : bool :=
  match ucd_lookup c table with Some _ => true | None => false end.

Definition name_of (table : list (char * string)) (c : char) : option str :=
  ucd_lookup c table.

(** A function of the library agrees with the excerpt on every character of
    [s], the prefix [determine_text_script] reads: the letters of the
    excerpt are alphabetic and carry the excerpt's name, the other
    characters of [s] are not alphabetic. *)
Definition agrees_on (isalpha : char -> bool)
    (unicodedata_name : char -> option str) (s : str) : Prop :=
  Forall (fun c => isalpha c = isalpha_of ucd_excerpt c /\
                   (isalpha c = true ->
                    unicodedata_name c = name_of ucd_excerpt c)) s.

(** The three texts of the specification. *)
Definition hello_world : str := lit "Hello, world!".
Definition ni_hao : str := [20320; 22909]%N.
Definition annyeong_ni_hao : str :=
  [50504; 45397; 54616; 49464; 50836; 32; 20320; 22909]%N.

(** ** Header values and dictionaries *)

#[local] Set Warnings "-register-all".

(** The values a YAML header holds.  Numbers are the integers; the headers
    the stages write hold no floating-point number. *)
Inductive value :=
| VNone
| VBool (b : bool)
| VInt (z : Z)
| VStr (s : str)
| VList (l : list value)
| VDict (d : list (str * value)).

(** A Python [dict]: keys in insertion order, no key twice. *)
Module Dict.
Section Dict.
Context {K V : Type} `{EqDecision K}.

Definition t := list (K * V).

(** [d.get(k)] *)
Fixpoint get (k : K) (d : t) : option V :=
  match d with
  | [] => None
  | (k', v) :: d' => if decide (k = k') then Some v else get k d'
  end.

(** [d.get(k, default)] *)
Definition get_default (k : K) (default : V) (d : t) : V :=
  match get k d with Some v => v | None => default end.

(** [d[k] = v]: an existing key keeps its place, a new one is appended. *)
Fixpoint set (k : K) (v : V) (d : t) : t :=
  match d with
  | [] => [(k, v)]
  | (k', v') :: d' =>
      if decide (k = k') then (k', v) :: d' else (k', v') :: set k v d'
  end.

(** [d.update(u)]: [d[k] = v] for every item of [u], in order. *)
Definition update (d u : t) : t :=
  fold_left (fun acc kv => set kv.1 kv.2 acc) u d.

(** [list(d.values())] *)
Definition values (d : t) : list V := List.map snd d.

Definition keys (d : t) : list K := List.map fst d.

End Dict.
Arguments t : clear implicits.
End Dict.

Definition nl : char := 10%N.
Definition cr : char := 13%N.

(** ** Files opened in text mode *)

(** What [f.read()] returns for a file opened with [open(path, "r")]: the
    default [newline=None] translates ["\r\n"] and a lone ["\r"] into
    ["\n"]. *)
Fixpoint universal_newlines (s : str) : str :=
  match s with
  | [] => []
  | c :: rest =>
      if N.eqb c cr then
        nl :: match rest with
              | [] => []
              | c' :: rest' =>
                  if N.eqb c' nl then universal_newlines rest'
                  else universal_newlines rest
              end
      else c :: universal_newlines rest
  end.

(** A surrogate code point, U+D800 to U+DFFF, has no UTF-8 encoding. *)
Definition is_surrogate (c : char) : bool :=
  ((55296 <=? c) && (c <=? 57343))%N.

(** Whether [f.write(s)] can encode [s] for a file opened with
    [encoding="utf-8"]; otherwise it raises [UnicodeEncodeError]. *)
Definition encodable (s : str) : bool :=
  forallb (fun c => negb (is_surrogate c)) s.

(** ** [happytube/models/markdown.py] *)

Record MarkdownFile := {
  frontmatter : Dict.t str value;
  content : str
}.

Section Markdown.

(** [yaml.dump(frontmatter, default_flow_style=False, sort_keys=False)] *)
Variable yaml_dump : Dict.t str value -> str.
(** [yaml.safe_load]; the header of a record is a mapping. *)
Variable yaml_safe_load : str -> result (Dict.t str value).

(** The sentinel line ["---\n"]. *)
Definition sentinel : str := lit "---" ++ [nl].

(** [MarkdownFile.to_string] *)
Definition to_string (md : MarkdownFile) : str :=
  let yaml_str := yaml_dump (frontmatter md) in
  sentinel ++ yaml_str ++ sentinel ++ [nl] ++ content md.

(** The body of [MarkdownFile.load] after the file is read: [text] is
    what [f.read()] returned. *)
Definition load_text (text : str) : result MarkdownFile :=
  if startswith sentinel text then
    match split_max sentinel 2 text with
    | _ :: part1 :: rest =>
        fm ← yaml_safe_load part1;
        match rest with
        | part2 :: _ => Ok {| frontmatter := fm; content := strip part2 |}
        | [] => Raise IndexError
        end
    | _ => Raise IndexError
    end
  else Ok {| frontmatter := []; content := text |}.

(** The file a path names: two paths can name one file. *)
Variable file_of : str -> str.
(** Whether [open] raises for a path (a missing directory, a permission). *)
Variable open_raises : str -> bool.

(** The files of a directory tree: the file to the text it holds, as
    written.  On write the default [newline=None] leaves the text as it is
    where the line separator is ["\n"]. *)
Definition files : Type := gmap str str.

(** [MarkdownFile.load]: [open] raises for a missing file; the text is read
    in text mode. *)
Definition load (fs : files) (file_path : str) : result MarkdownFile :=
  if open_raises file_path then Raise OSError
  else
    match fs !! file_of file_path with
    | None => Raise OSError
    | Some text => load_text (universal_newlines text)
    end.

(** [MarkdownFile.save]: what it raises, if anything, and the files it
    leaves.  [open(file_path, "w")] empties the file; [f.write] then writes
    the text, or raises on a text it cannot encode and leaves the file
    empty. *)
Definition save (md : MarkdownFile) (file_path : str) (fs : files)
  : result unit * files :=
  if open_raises file_path then (Raise OSError, fs)
  else
    let text := to_string md in
    if encodable text then (Ok tt, <[file_of file_path := text]> fs)
    else (Raise UnicodeEncodeError, <[file_of file_path := []]> fs).

End Markdown.

(** A stand-in for [int] on decimal digits with an optional minus sign. *)
Fixpoint digits_value (s : str) (acc : Z) : option Z :=
  match s with
  | [] => Some acc
  | c :: s' =>
      if ((48 <=? c) && (c <=? 57))%N
      then digits_value s' (10 * acc + Z.of_N (c - 48))
      else None
  end.

Definition int_of_digits (s : str) : option Z :=
  match s with
  | [] => None
  | 45%N :: (_ :: _) as s' => option_map Z.opp (digits_value s' 0)
  | _ => digits_value s 0
  end.

(** A stand-in for PyYAML on the headers the examples use: a mapping of
    plain scalars in block style, one line [key: scalar] for each item and
    [{}] for the empty mapping.  A scalar is [null], [true], [false], a
    decimal integer or, failing those, a string. *)
Definition scalar_dump (v : value) : str :=
  match v with
  | VStr s => s
  | VInt z => lit (NilZero.string_of_int (Z.to_int z))
  | VBool true => lit "true"
  | VBool false => lit "false"
  | _ => lit "null"
  end.

Fixpoint scalars_dump_items (d : Dict.t str value) : str :=
  match d with
  | [] => []
  | (k, v) :: d' =>
      k ++ lit ": " ++ scalar_dump v ++ [nl] ++ scalars_dump_items d'
  end.

Definition scalars_dump (d : Dict.t str value) : str :=
  match d with
  | [] => lit "{}" ++ [nl]
  | _ :: _ => scalars_dump_items d
  end.

Fixpoint split_lines (s cur : str) : list str :=
  match s with
  | [] => match cur with [] => [] | _ :: _ => [cur] end
  | c :: s' =>
      if N.eqb c nl then cur :: split_lines s' []
      else split_lines s' (cur ++ [c])
  end.

Definition scalar_load (w : str) : value :=
  if bool_decide (w = lit "null") then VNone
  else if bool_decide (w = lit "true") then VBool true
  else if bool_decide (w = lit "false") then VBool false
  else match int_of_digits w with
       | Some z => VInt z
       | None => VStr w
       end.

Fixpoint scalars_load_lines (lines : list str) : result (Dict.t str value) :=
  match lines with
  | [] => Ok []
  | line :: rest =>
      match split_first (lit ": ") line with
      | None => Raise YAMLError
      | Some (k, w) =>
          d ← scalars_load_lines rest;
          Ok ((k, scalar_load w) :: d)
      end
  end.

Definition scalars_load (text : str) : result (Dict.t str value) :=
  if bool_decide (text = lit "{}" ++ [nl]) then Ok []
  else scalars_load_lines (split_lines text []).

(** [MarkdownFile.update_frontmatter] *)
Definition update_frontmatter (md : MarkdownFile)
    (updates : Dict.t str value) : MarkdownFile :=
  {| frontmatter := Dict.update (frontmatter md) updates;
     content := content md |}.

(** ** What the stages share *)

(** [f"{v}"]: a [str] is inserted as it is, any other value through its
    [str()], the parameter [repr]. *)
Definition format (repr : value -> str) (v : value) : str :=
  match v with
  | VStr s => s
  | _ => repr v
  end.

(** [f"video_{video_id}.md"], the file name under the stage directory. *)
Definition video_filename (repr : value -> str) (video_id : value) : str :=
  lit "video_" ++ format repr video_id ++ lit ".md".

(** [content.split("\n\n", 1)[1] if "\n\n" in content else ""] *)
Definition description_of (content : str) : str :=
  if contains [nl; nl] content then
    match split_max [nl; nl] 1 content with
    | _ :: d :: _ => d
    | _ => []
    end
  else [].

(** The counters of a stage's loop and the files it has written, oldest
    first: one entry for each [video.save(output_path)] that returned. *)
Record loop_state := {
  count : nat;
  errors : nat;
  written : list (str * MarkdownFile)
}.

Definition loop_start : loop_state :=
  {| count := 0; errors := 0; written := [] |}.

(** The [try] body returned [video] after saving it under [name]. *)
Definition saved (name : str) (video : MarkdownFile) (st : loop_state)
  : loop_state :=
  {| count := S (count st); errors := errors st;
     written := written st ++ [(name, video)] |}.

(** The [except Exception] clause of the loop body. *)
Definition failed (st : loop_state) : loop_state :=
  {| count := count st; errors := S (errors st); written := written st |}.

(** [round(sum(scores) / len(scores), 2)], kept as the sum and the length
    it is computed from, and [round(0, 2)] for no score. *)
Inductive average :=
| AvgZero
| AvgRound2 (total : Z) (n : nat).

(** [sum(scores) / len(scores) if scores else 0] *)
Definition mean_of (scores : list Z) : average :=
  match scores with
  | [] => AvgZero
  | _ :: _ => AvgRound2 (foldr Z.add 0 scores) (length scores)
  end.

(** The number an [average] rounds: the exact quotient. *)
Definition exact_mean (a : average) : Q :=
  match a with
  | AvgZero => 0%Q
  | AvgRound2 total n => (inject_Z total / inject_Z (Z.of_nat n))%Q
  end.

(** What a stage's [run] returns, with the files it wrote. *)
Record run_result := {
  processed : nat;
  error_count : nat;
  avg_happiness : option average;
  fatal : bool;
  output : list (str * MarkdownFile)
}.

(** ** [happytube/stages/assess.py] *)

(** A row of [csv.DictReader]: field name to field, [None] for a field the
    row is too short to hold. *)
Definition row := Dict.t str (option str).

(** An entry of the parsed response. *)
Record assessment := {
  happiness_score : Z;
  happiness_reasoning : option str
}.

Definition value_of_field (o : option str) : value :=
  match o with
  | Some s => VStr s
  | None => VNone
  end.

Section Assess.

(** The rows [csv.DictReader] yields for a text. *)
Variable csv_DictReader : str -> list row.
(** [int(s)]; [None] where it raises [ValueError]. *)
Variable py_int : str -> option Z.
Variable repr : value -> str.
Variable yaml_safe_load : str -> result (Dict.t str value).
(** [self.prompt_name], [self.prompt_version] *)
Variable prompt_name : str.
Variable prompt_version : Z.
(** [datetime.utcnow().isoformat()] when the loop is at its [i]-th video. *)
Variable utcnow : nat -> str.
(** Whether [video.save] raises at the [i]-th video. *)
Variable save_raises : nat -> bool.

(** [_load_videos_from_fetch], on the sorted files of the directory;
    a file that does not load is skipped. *)
Fixpoint _load_videos_from_fetch (fetch_dir : list (str * str))
  : list MarkdownFile :=
  match fetch_dir with
  | [] => []
  | (_, text) :: rest =>
      match load_text yaml_safe_load text with
      | Ok md_file => md_file :: _load_videos_from_fetch rest
      | Raise _ => _load_videos_from_fetch rest
      end
  end.

(** The body of the loop of [_parse_claude_response]. *)
Definition parse_row (r : row) : option str * assessment :=
  let video_id :=
    match Dict.get (lit "id") r with
    | Some v => v
    | None => Dict.get_default (lit "video_id") (Some []) r
    end in
  let happiness := Dict.get_default (lit "happiness") (Some []) r in
  let score :=
    match happiness with
    | Some s => match py_int s with Some z => z | None => 0 end
    | None => 0
    end in
  (video_id,
   {| happiness_score := score;
      happiness_reasoning := Dict.get_default (lit "reasoning") (Some []) r |}).

(** [_parse_claude_response] *)
Definition _parse_claude_response (response_text : str)
  : Dict.t (option str) assessment :=
  fold_left (fun results r => let '(k, a) := parse_row r in
                              Dict.set k a results)
            (csv_DictReader response_text) [].

(** [assessment_results.get(video_id, {})]: a list or a mapping is not
    hashable, a number is no key of the parsed response. *)
Definition lookup_assessment (video_id : value)
    (results : Dict.t (option str) assessment) : result (option assessment) :=
  match video_id with
  | VStr s => Ok (Dict.get (Some s) results)
  | VNone => Ok (Dict.get None results)
  | VBool _ | VInt _ => Ok None
  | VList _ | VDict _ => Raise TypeError
  end.

(** The mapping passed to [update_frontmatter]. *)
Definition assess_updates (i : nat) (a : option assessment)
  : Dict.t str value :=
  [ (lit "stage", VStr (lit "assessed"));
    (lit "assessed_at", VStr (utcnow i ++ lit "Z"));
    (lit "happiness_score",
      VInt (match a with Some x => happiness_score x | None => 0 end));
    (lit "happiness_reasoning",
      match a with
      | Some x => value_of_field (happiness_reasoning x)
      | None => VStr []
      end);
    (lit "prompt_name", VStr prompt_name);
    (lit "prompt_version", VInt prompt_version) ].

(** The [try] body for one video: the record saved, or the exception. *)
Definition assess_try (results : Dict.t (option str) assessment)
    (i : nat) (video : MarkdownFile) : result (str * MarkdownFile) :=
  let video_id :=
    Dict.get_default (lit "video_id") (VStr []) (frontmatter video) in
  a ← lookup_assessment video_id results;
  let video := update_frontmatter video (assess_updates i a) in
  if save_raises i then Raise OSError
  else Ok (video_filename repr video_id, video).

(** The loop [for video in videos], from the [i]-th video on. *)
Fixpoint assess_loop (results : Dict.t (option str) assessment)
    (i : nat) (videos : list MarkdownFile) (st : loop_state) : loop_state :=
  match videos with
  | [] => st
  | video :: rest =>
      let st :=
        match assess_try results i video with
        | Ok (name, video) => saved name video st
        | Raise _ => failed st
        end in
      assess_loop results (S i) rest st
  end.

(** The scores the statistics are computed from. *)
Definition happiness_scores (results : Dict.t (option str) assessment)
  : list Z :=
  List.map happiness_score
    (List.filter (fun r => 0 <? happiness_score r) (Dict.values results)).

(** [AssessStage.run], from the loaded videos on.  [response] is the text
    of the collaborator's answer, or the exception raised on the way to
    it. *)
Definition assess_run (videos : list MarkdownFile) (response : result str)
  : run_result :=
  match videos with
  | [] => {| processed := 0; error_count := 0; avg_happiness := None;
             fatal := false; output := [] |}
  | _ :: _ =>
      match response with
      | Raise _ => {| processed := 0; error_count := 1;
                      avg_happiness := None; fatal := true; output := [] |}
      | Ok response_text =>
          let assessment_results := _parse_claude_response response_text in
          let st := assess_loop assessment_results 0 videos loop_start in
          {| processed := count st; error_count := errors st;
             avg_happiness :=
               Some (mean_of (happiness_scores assessment_results));
             fatal := false; output := written st |}
      end
  end.

End Assess.

(** ** [happytube/stages/enhance.py] *)

(** What the collaborator does for one video: [_ensure_client] raises
    (outside the [try] of [_enhance_description_simple]), the call inside
    the [try] raises, or the call returns, with the text of its first block
    or with no block ([response.content] empty). *)
Inductive call_outcome :=
| ClientRaises
| CallRaises
| CallReturns (text : option str).

Section Enhance.

Variable repr : value -> str.
Variable yaml_safe_load : str -> result (Dict.t str value).
(** [self.happiness_threshold] *)
Variable happiness_threshold : Z.
(** The collaborator at the [i]-th video of the loop. *)
Variable collaborator : nat -> call_outcome.
Variable utcnow : nat -> str.
Variable save_raises : nat -> bool.

(** [happiness_score >= self.happiness_threshold]: integers compare, a
    boolean compares as 0 or 1, any other value raises [TypeError]. *)
Definition meets_threshold (happiness_score : value) : result bool :=
  match happiness_score with
  | VInt z => Ok (happiness_threshold <=? z)
  | VBool b => Ok (happiness_threshold <=? Z.b2z b)
  | _ => Raise TypeError
  end.

(** The [try] body of the loop of [_load_videos_from_assess]: the record
    and whether it is appended. *)
Definition load_try (text : str) : result (MarkdownFile * bool) :=
  md_file ← load_text yaml_safe_load text;
  let happiness_score :=
    Dict.get_default (lit "happiness_score") (VInt 0) (frontmatter md_file) in
  keep ← meets_threshold happiness_score;
  Ok (md_file, keep).

(** [_load_videos_from_assess], on the sorted files of the directory. *)
Fixpoint _load_videos_from_assess (assess_dir : list (str * str))
  : list MarkdownFile :=
  match assess_dir with
  | [] => []
  | (_, text) :: rest =>
      match load_try text with
      | Ok (md_file, true) => md_file :: _load_videos_from_assess rest
      | _ => _load_videos_from_assess rest
      end
  end.

(** [_enhance_description_simple] *)
Definition _enhance_description_simple (outcome : call_outcome)
    (description : str) : result str :=
  match outcome with
  | ClientRaises => Raise APIError
  | CallRaises => Ok description
  | CallReturns (Some text) => Ok (strip text)
  | CallReturns None => Ok (strip description)
  end.

Definition enhance_updates (i : nat) (enhanced_description : str)
  : Dict.t str value :=
  [ (lit "stage", VStr (lit "enhanced"));
    (lit "enhanced_at", VStr (utcnow i ++ lit "Z"));
    (lit "enhanced_description", VStr enhanced_description) ].

(** The [try] body for one video. *)
Definition enhance_try (i : nat) (video : MarkdownFile)
  : result (str * MarkdownFile) :=
  let video_id :=
    Dict.get_default (lit "video_id") (VStr []) (frontmatter video) in
  let title :=
    Dict.get_default (lit "title") (VStr []) (frontmatter video) in
  let description := description_of (content video) in
  enhanced_description ←
    _enhance_description_simple (collaborator i) description;
  let video := update_frontmatter video (enhance_updates i enhanced_description) in
  let video :=
    {| frontmatter := frontmatter video;
       content := lit "# " ++ format repr title ++ [nl; nl]
                  ++ enhanced_description |} in
  if save_raises i then Raise OSError
  else Ok (video_filename repr video_id, video).

Fixpoint enhance_loop (i : nat) (videos : list MarkdownFile)
    (st : loop_state) : loop_state :=
  match videos with
  | [] => st
  | video :: rest =>
      let st :=
        match enhance_try i video with
        | Ok (name, video) => saved name video st
        | Raise _ => failed st
        end in
      enhance_loop (S i) rest st
  end.

(** [EnhanceStage.run], from the sorted files of the assess directory. *)
Definition enhance_run (assess_dir : list (str * str)) : run_result :=
  match _load_videos_from_assess assess_dir with
  | [] => {| processed := 0; error_count := 0; avg_happiness := None;
             fatal := false; output := [] |}
  | (_ :: _) as videos =>
      let st := enhance_loop 0 videos loop_start in
      {| processed := count st; error_count := errors st;
         avg_happiness := None; fatal := false; output := written st |}
  end.

End Enhance.

(** ** [happytube/models/video.py] and [happytube/stages/report.py] *)

(** A calendar date is its day number, [date.toordinal()], from
    [date.min], day 1, to [date.max], day 3652059; adding or subtracting a
    [timedelta] raises [OverflowError] outside this range. *)
Definition date := Z.
Definition date_min : date := 1.
Definition date_max : date := 3652059.

(** [timedelta(days=n)] raises [OverflowError] for a magnitude above
    999999999. *)
Definition timedelta_overflows (days : Z) : bool :=
  999999999 <? Z.abs days.

Definition date_overflows (d : Z) : bool :=
  (d <? date_min) || (date_max <? d).

(** The loop [while current_date <= end_date] of [Video.df_from_stage_dir]:
    the dates whose directory it looks at, in order; the step
    [current_date += timedelta(days=1)] raises after [date.max]. *)
Equations? scan_dates (current_date end_date : date) : result (list date)
  by wf (Z.to_nat (end_date - current_date + 1)) lt :=
  scan_dates current_date end_date with decide (current_date <= end_date) => {
    | left _ =>
        if date_overflows (current_date + 1) then Raise OverflowError
        else
          match scan_dates (current_date + 1) end_date with
          | Ok dates => Ok (current_date :: dates)
          | Raise e => Raise e
          end ;
    | right _ => Ok [] }.
Proof. lia. Qed.

Inductive stage_name := fetch | assess | enhance.

Section Report.

(** [date.today()] *)
Variable today : date.
(** The videos [Video.df_from_stage_dir] loads from the directory of a
    stage and a date: none when the directory is missing. *)
Variable stage_videos : stage_name -> date -> list (Dict.t str value).
(** The records of the enhance directory of a date, sorted by file name,
    with their content. *)
Variable enhanced_videos : date -> list MarkdownFile.
(** Whether rendering the template raises. *)
Variable render_raises : bool.
(** Whether writing the parquet file of a stage raises. *)
Variable to_parquet_raises : stage_name -> bool.
(** Whether the template directory exists ([self.env] is not [None]). *)
Variable has_templates : bool.

(** The dates [Video.df_from_stage_dir] scans, or the [OverflowError] of
    its date arithmetic. *)
Definition scanned_dates (days_back : Z) : result (list date) :=
  let end_date := today in
  if timedelta_overflows (days_back - 1) then Raise OverflowError
  else
    let start_date := end_date - (days_back - 1) in
    if date_overflows start_date then Raise OverflowError
    else scan_dates start_date end_date.

(** [Video.df_from_stage_dir]: the rows of the data frame. *)
Definition df_from_stage_dir (name : stage_name) (days_back : Z)
  : result (list (Dict.t str value)) :=
  dates ← scanned_dates days_back;
  Ok (List.concat (List.map (stage_videos name) dates)).

(** One parquet file written by [_export_parquet]: the stage, the date and
    the days in its name ([{date}_last_{days_back}_days.parquet]), the
    dates scanned for it and its rows. *)
Record export := {
  export_stage : stage_name;
  export_date : date;
  export_days : Z;
  export_window : list date;
  export_rows : list (Dict.t str value)
}.

(** [ReportStage._export_parquet]: an exception for a stage is caught and
    no file is written for it. *)
Definition _export_parquet (target_date : date) (days_back : Z)
  : list export :=
  List.concat
    (List.map
       (fun name =>
          match df_from_stage_dir name days_back with
          | Raise _ => []
          | Ok [] => []
          | Ok ((_ :: _) as df) =>
              if to_parquet_raises name then []
              else
                [ {| export_stage := name; export_date := target_date;
                     export_days := days_back;
                     export_window :=
                       match scanned_dates days_back with
                       | Ok dates => dates
                       | Raise _ => []
                       end;
                     export_rows := df |} ]
          end)
       [fetch; assess; enhance]).

(** [v.get("happiness_score", 0) > 0] needs a number: an integer, or a
    boolean that counts as 0 or 1; any other value raises [TypeError]
    (in the sort of [_load_enhanced_videos] or in the comparison with 0). *)
Definition score_of (fm : Dict.t str value) : result Z :=
  match Dict.get_default (lit "happiness_score") (VInt 0) fm with
  | VInt z => Ok z
  | VBool b => Ok (Z.b2z b)
  | _ => Raise TypeError
  end.

Fixpoint scores_of (videos : list MarkdownFile) : result (list Z) :=
  match videos with
  | [] => Ok []
  | v :: rest =>
      z ← score_of (frontmatter v);
      zs ← scores_of rest;
      Ok (z :: zs)
  end.

(** What [ReportStage.run] returns, with the files it exports. *)
Record report_result := {
  videos_reported : nat;
  report_errors : nat;
  report_avg : option average;
  report_written : bool;
  exports : list export
}.

(** [ReportStage.run].  [_export_parquet] is called with its default
    [days_back = 7]. *)
Definition report_run (target_date : date) : report_result :=
  match enhanced_videos target_date with
  | [] => {| videos_reported := 0; report_errors := 0; report_avg := None;
             report_written := false; exports := [] |}
  | (_ :: _) as videos =>
      match scores_of videos with
      | Raise _ =>
          {| videos_reported := 0; report_errors := 1; report_avg := None;
             report_written := false; exports := [] |}
      | Ok scores =>
          let happiness_scores := List.filter (fun z => 0 <? z) scores in
          {| videos_reported := length videos; report_errors := 0;
             report_avg := Some (mean_of happiness_scores);
             report_written := has_templates && negb render_raises;
             exports := _export_parquet target_date 7 |}
      end
  end.

(** The [report] command of the CLI, after its date is parsed. *)
Definition report_command (target_date : date) (days_back : Z)
  : report_result :=
  report_run target_date.

End Report.

(** ** [happytube/cli/commands.py]: [run_all] *)

Inductive stage_id := Fetch | Assess | Enhance | Report.

Section RunAll.

(** The state of the world the stages read and write. *)
Variable world : Type.
(** Running a stage: the count its result reports ([new_videos],
    [assessed_videos], [enhanced_videos], [videos_reported]), or the
    exception its [run] lets escape. *)
Variable run_stage : stage_id -> world -> result nat * world.
(** Whether loading the configuration raises an exception other than the
    [FileNotFoundError] and [KeyError] that [run_all] passes over. *)
Variable config_raises : world -> bool.

(** What [run_all] has done: the stages invoked, in order, and whether it
    ended in [sys.exit(1)]. *)
Record pipeline := {
  invoked : list stage_id;
  exited : bool;
  final : world
}.

(** [run_all], after its date is parsed. *)
Definition run_all (w : world) : pipeline :=
  if config_raises w
  then {| invoked := []; exited := true; final := w |}
  else
  match run_stage Fetch w with
  | (Raise _, w) => {| invoked := [Fetch]; exited := true; final := w |}
  | (Ok new_videos, w) =>
      if Nat.eqb new_videos 0
      then {| invoked := [Fetch]; exited := false; final := w |}
      else
        match run_stage Assess w with
        | (Raise _, w) =>
            {| invoked := [Fetch; Assess]; exited := true; final := w |}
        | (Ok assessed_videos, w) =>
            if Nat.eqb assessed_videos 0
            then {| invoked := [Fetch; Assess]; exited := false; final := w |}
            else
              match run_stage Enhance w with
              | (Raise _, w) =>
                  {| invoked := [Fetch; Assess; Enhance];
                     exited := true; final := w |}
              | (Ok _, w) =>
                  match run_stage Report w with
                  | (Raise _, w) =>
                      {| invoked := [Fetch; Assess; Enhance; Report];
                         exited := true; final := w |}
                  | (Ok _, w) =>
                      {| invoked := [Fetch; Assess; Enhance; Report];
                         exited := false; final := w |}
                  end
              end
        end
  end.

End RunAll.

(** [parse_date]: today for no [--date] option; [None] where it ends in
    [sys.exit(1)] because [strptime] raises [ValueError]. *)
Definition parse_date (strptime : str -> option date) (today : date)
    (date_str : option str) : option date :=
  match date_str with
  | None => Some today
  | Some s => strptime s
  end.

(** The [run-all] command: [require_credentials] validates the
    credentials, [parse_date] reads the date, and the body of [run_all]
    runs the stages for that date.  [credentials_ok] says that the
    settings load and hold every credential; without them, and for a date
    that does not parse, the command ends in [sys.exit(1)] before any
    stage.  An interrupt from the keyboard is not part of the model. *)
Definition run_all_command (world : Type) (credentials_ok : bool)
    (strptime : str -> option date) (today : date)
    (run_stage_of : date -> stage_id -> world -> result nat * world)
    (config_raises : world -> bool)
    (date_str : option str) (w : world) : pipeline world :=
  if credentials_ok then
    match parse_date strptime today date_str with
    | None => {| invoked := []; exited := true; final := w |}
    | Some target_date =>
        run_all world (run_stage_of target_date) config_raises w
    end
  else {| invoked := []; exited := true; final := w |}.

(** ** The stages in the specification's words *)

(** Whether a value can be the key of a [dict]. *)
Definition hashable (v : value) : bool :=
  match v with
  | VList _ | VDict _ => false
  | _ => true
  end.

(** The id of a record: [frontmatter.get("video_id", "")]. *)
Definition video_id_of (video : MarkdownFile) : value :=
  Dict.get_default (lit "video_id") (VStr []) (frontmatter video).

(** The entry of the parsed response for the id of a record, if it has
    one. *)
Definition response_entry (results : Dict.t (option str) assessment)
    (video_id : value) : option assessment :=
  match video_id with
  | VStr s => Dict.get (Some s) results
  | VNone => Dict.get None results
  | _ => None
  end.

(** The file the assess stage writes for the [i]-th loaded record. *)
Definition assessed (repr : value -> str) (prompt_name : str)
    (prompt_version : Z) (utcnow : nat -> str)
    (results : Dict.t (option str) assessment)
    (i : nat) (video : MarkdownFile) : str * MarkdownFile :=
  (video_filename repr (video_id_of video),
   update_frontmatter video
     (assess_updates prompt_name prompt_version utcnow i
        (response_entry results (video_id_of video)))).

(** The score the assess stage writes to a loaded record. *)
Definition record_score (results : Dict.t (option str) assessment)
    (video : MarkdownFile) : Z :=
  match response_entry results (video_id_of video) with
  | Some a => happiness_score a
  | None => 0
  end.

(** The id of a record as a key of the parsed response: a string or
    [None]; any other id is the key of no row. *)
Definition response_key (video : MarkdownFile) : option (option str) :=
  match video_id_of video with
  | VStr s => Some (Some s)
  | VNone => Some None
  | _ => None
  end.

(** The mean over the loaded records with a score above 0. *)
Definition mean_over_records (results : Dict.t (option str) assessment)
    (videos : list MarkdownFile) : average :=
  mean_of (List.filter (fun z => 0 <? z)
                       (List.map (record_score results) videos)).

(** The records of a directory that load. *)
Definition loadable (yaml_safe_load : str -> result (Dict.t str value))
    (dir : list (str * str)) : list MarkdownFile :=
  omap (fun f => match load_text yaml_safe_load f.2 with
                 | Ok md => Some md
                 | Raise _ => None
                 end) dir.

(** A record's score is a number at least [t]; a record without a score
    counts as 0. *)
Definition score_at_least (t : Z) (video : MarkdownFile) : bool :=
  match Dict.get (lit "happiness_score") (frontmatter video) with
  | None => t <=? 0
  | Some (VInt z) => t <=? z
  | Some (VBool b) => t <=? Z.b2z b
  | Some _ => false
  end.

(** The file the enhance stage writes for the [i]-th retained record when
    the description stays as it is. *)
Definition fallback (repr : value -> str) (utcnow : nat -> str)
    (i : nat) (video : MarkdownFile) : str * MarkdownFile :=
  let description := description_of (content video) in
  (video_filename repr (video_id_of video),
   {| frontmatter :=
        Dict.update (frontmatter video)
                    (enhance_updates utcnow i description);
      content :=
        lit "# "
        ++ format repr (Dict.get_default (lit "title") (VStr []) (frontmatter video))
        ++ [nl; nl] ++ description |}).

(** The files a loop writes: one for each video whose [try] body returns,
    in the order of the videos. *)
Definition entries (body : nat -> MarkdownFile -> result (str * MarkdownFile))
    (videos : list MarkdownFile) : list (str * MarkdownFile) :=
  omap (fun iv => match body iv.1 iv.2 with
                  | Ok e => Some e
                  | Raise _ => None
                  end) (imap pair videos).

(** ** Records of the examples *)

(** The record of the repository's first test, and one whose body ends in a
    newline. *)
Definition test_record : MarkdownFile :=
  {| frontmatter := [ (lit "video_id", VStr (lit "test123"));
                      (lit "stage", VStr (lit "fetched")) ];
     content := lit "# Test Video" ++ [nl; nl] ++ lit "A test description." |}.

Definition newline_record : MarkdownFile :=
  {| frontmatter := frontmatter test_record;
     content := content test_record ++ [nl] |}.

(** One loaded record, id [a], and a response that scores [a] and a video
    that was not loaded. *)
Definition video_a : MarkdownFile :=
  {| frontmatter := [ (lit "video_id", VStr (lit "a"));
                      (lit "title", VStr (lit "A")) ];
     content := lit "# A" ++ [nl; nl] ++ lit "About a." |}.

Definition response_rows : list row :=
  [ [ (lit "id", Some (lit "a")); (lit "happiness", Some (lit "5"));
      (lit "reasoning", Some (lit "joyful")) ];
    [ (lit "id", Some (lit "zzz")); (lit "happiness", Some (lit "1"));
      (lit "reasoning", Some (lit "gloomy")) ] ].

(** The assess directory of the repository's filtering test: four records
    with scores 5, 4, 3 and 1, sorted by file name. *)
Definition scored_record (id : string) (score : Z) : MarkdownFile :=
  {| frontmatter := [ (lit "video_id", VStr (lit id));
                      (lit "title", VStr (lit "Video " ++ lit id));
                      (lit "channel", VStr (lit "Test"));
                      (lit "stage", VStr (lit "assessed"));
                      (lit "happiness_score", VInt score) ];
     content := lit "# Video " ++ lit id ++ [nl; nl] ++ lit "Test content" |}.

Definition scored_file (id : string) (score : Z) : str * str :=
  (lit "video_" ++ lit id ++ lit ".md",
   to_string scalars_dump (scored_record id score)).

Definition scored_dir : list (str * str) :=
  [ scored_file "happy1" 5; scored_file "happy2" 4;
    scored_file "neutral" 3; scored_file "sad" 1 ].

(** A record without a score. *)
Definition unscored_file : str * str :=
  (lit "video_new.md",
   to_string scalars_dump
     {| frontmatter := [ (lit "video_id", VStr (lit "new")) ];
        content := lit "# New" |}).

(** The assess stage of the examples: the response is [response_rows],
    every [save] returns. *)
Definition example_assess_run (videos : list MarkdownFile) : run_result :=
  assess_run (fun _ => response_rows) int_of_digits scalar_dump
             (lit "rate_video_happiness") 2
             (fun _ => lit "2025-11-16T11:00:00") (fun _ => false)
             videos (Ok []).

Definition example_results : Dict.t (option str) assessment :=
  _parse_claude_response (fun _ => response_rows) int_of_digits [].

(** ** [happytube/stages/assess.py]: the table sent to the collaborator *)

(** The rows [_prepare_csv_for_claude] hands to [csv.writer]: the header
    and, for each video, its id, its title and the first 500 characters of
    its description. *)
Definition csv_row (video : MarkdownFile) : list value :=
  let fm := frontmatter video in
  let description := description_of (content video) in
  let description := take 500 description in
  [ Dict.get_default (lit "video_id") (VStr []) fm;
    Dict.get_default (lit "title") (VStr []) fm;
    VStr description ].

Definition csv_rows (videos : list MarkdownFile) : list (list value) :=
  [VStr (lit "video_id"); VStr (lit "title"); VStr (lit "description")]
  :: List.map csv_row videos.

(** [_prepare_csv_for_claude]; [csv_writer] is the text [csv.writer]
    produces for the rows, with [QUOTE_ALL]. *)
Definition _prepare_csv_for_claude (csv_writer : list (list value) -> str)
    (videos : list MarkdownFile) : str :=
  csv_writer (csv_rows videos).

(** ** [happytube/stages/fetch.py] *)

(** [df.head(n)]: the first [n] rows, and all but the last [-n] rows for a
    negative [n]. *)
Definition head {A : Type} (n : Z) (df : list A) : list A :=
  if 0 <=? n then take (Z.to_nat n) df
  else take (length df - Z.to_nat (- n)) df.

Section Fetch.

Variable repr : value -> str.
Variable utcnow : nat -> str.
Variable save_raises : nat -> bool.

(** The [try] body for one row of the data frame, a mapping from column to
    cell: the record saved, or [None] when the body raises ([row["video_id"]]
    or [row["title"]] on a missing column, or [save]). *)
Definition fetch_try (i : nat) (row : Dict.t str value)
  : option (str * MarkdownFile) :=
  video_id ← Dict.get (lit "video_id") row;
  title ← Dict.get (lit "title") row;
  let frontmatter :=
    [ (lit "video_id", video_id);
      (lit "title", title);
      (lit "channel", Dict.get_default (lit "channel_title") (VStr []) row);
      (lit "channel_id", Dict.get_default (lit "channel_id") (VStr []) row);
      (lit "published_at",
        Dict.get_default (lit "published_at") (VStr []) row);
      (lit "fetched_at", VStr (utcnow i ++ lit "Z"));
      (lit "stage", VStr (lit "fetched"));
      (lit "script_type", Dict.get_default (lit "script") (VStr []) row) ] in
  let content :=
    lit "# " ++ format repr title ++ [nl; nl]
    ++ format repr (Dict.get_default (lit "description") (VStr []) row) in
  let md_file := {| frontmatter := frontmatter; content := content |} in
  if save_raises i then None
  else Some (video_filename repr video_id, md_file).

Fixpoint fetch_loop (i : nat) (videos_df : list (Dict.t str value))
    (st : loop_state) : loop_state :=
  match videos_df with
  | [] => st
  | row :: rest =>
      let st :=
        match fetch_try i row with
        | Some (name, md_file) => saved name md_file st
        | None => failed st
        end in
      fetch_loop (S i) rest st
  end.

(** [FetchStage.run], after the stage directory is made.  [search] is the
    data frame of [search.get_df()], or [None] when the search, or the
    making of the data frame, raises. *)
Definition fetch_run (search : option (list (Dict.t str value)))
    (max_videos : Z) : run_result :=
  match search with
  | None => {| processed := 0; error_count := 1; avg_happiness := None;
               fatal := true; output := [] |}
  | Some videos_df =>
      let videos_df :=
        if max_videos <? Z.of_nat (length videos_df)
        then head max_videos videos_df
        else videos_df in
      let st := fetch_loop 0 videos_df loop_start in
      {| processed := count st; error_count := errors st;
         avg_happiness := None; fatal := false; output := written st |}
  end.

End Fetch.

(** ** [happytube/prompts.py] *)

Module Prompts.

Record PromptDef := {
  name : str;
  version : Z;
  prompt : str
}.

(** [get_prompt]: [next] of the generator of the matching prompts; [None]
    where [next] raises [StopIteration]. *)
Fixpoint get_prompt (prompt_definitions : list PromptDef) (name' : str)
    (version' : Z) : option str :=
  match prompt_definitions with
  | [] => None
  | p :: rest =>
      if bool_decide (name p = name') && (version p =? version')
      then Some (prompt p)
      else get_prompt rest name' version'
  end.

End Prompts.

(** ** [happytube/config/config_manager.py] *)

Module ConfigManager.

Inductive error := FileNotFoundError | KeyError | YAMLError.

Section ConfigManager.

(** What [yaml.safe_load] returns for a configuration file. *)
Context {config : Type}.
(** [yaml.safe_load]; [None] where it raises [yaml.YAMLError]. *)
Variable yaml_safe_load : str -> option config.
(** The files of the configuration directory: path to text. *)
Variable fs : gmap str str.
(** [self.base_path] *)
Variable base_path : str.

(** [self._configs] *)
Definition t := Dict.t str config.

(** [self.base_path / f"{config_name}.yaml"] *)
Definition path_of (config_name : str) : str :=
  base_path ++ lit "/" ++ config_name ++ lit ".yaml".

(** [load_config]: the configuration or the exception, and the cache. *)
Definition load_config (config_name : str) (override_path : option str)
    (self : t) : (error + config) * t :=
  let config_path :=
    match override_path with
    | Some p => p
    | None => path_of config_name
    end in
  match fs !! config_path with
  | None => (inl FileNotFoundError, self)
  | Some text =>
      match yaml_safe_load text with
      | None => (inl YAMLError, self)
      | Some config => (inr config, Dict.set config_name config self)
      end
  end.

(** [get_config] *)
Definition get_config (config_name : str) (self : t) : error + config :=
  match Dict.get config_name self with
  | None => inl KeyError
  | Some config => inr config
  end.

(** The loop of [load_all_base_configs] over the names still to load: the
    exception that ends it, if any, and the cache. *)
Fixpoint load_configs (config_files : list str) (self : t)
  : option error * t :=
  match config_files with
  | [] => (None, self)
  | config_name :: rest =>
      match fs !! path_of config_name with
      | None => load_configs rest self
      | Some _ =>
          match load_config config_name None self with
          | (inl e, self) => (Some e, self)
          | (inr _, self) => load_configs rest self
          end
      end
  end.

(** [load_all_base_configs] *)
Definition load_all_base_configs (self : t) : option error * t :=
  load_configs [lit "app"; lit "prompts"; lit "youtube"] self.

End ConfigManager.

End ConfigManager.

(** ** [happytube/cli/commands.py]: the [enhance] command *)

(** The [enhance] command, after its date is parsed and from the sorted
    files of the assess directory: [None] where it ends in [sys.exit(1)]
    because of the threshold. *)
Definition enhance_command (repr : value -> str)
    (yaml_safe_load : str -> result (Dict.t str value))
    (collaborator : nat -> call_outcome) (utcnow : nat -> str)
    (save_raises : nat -> bool)
    (threshold : Z) (assess_dir : list (str * str)) : option run_result :=
  if (threshold <? 1) || (5 <? threshold) then None
  else Some (enhance_run repr yaml_safe_load threshold collaborator utcnow
                         save_raises assess_dir).

(** * Properties *)

(** ** Script detection *)

Module CounterFacts.
Import Counter.

Lemma get_incr s k c :
  get s (incr k c) = if eq_str s k then S (get s c) else get s c.
Proof.
  induction c as [|[k' n] c IH]; simpl; [reflexivity|].
  unfold eq_str in *.
  destruct (bool_decide (k = k')) eqn:Ekk; simpl; unfold eq_str;
    [apply bool_decide_eq_true in Ekk; subst k' | rewrite IH];
    repeat case_bool_decide; subst; congruence.
Qed.

Lemma keys_incr k c :
  keys (incr k c) = keys c \/ ((k ∉ keys c) /\ keys (incr k c) = keys c ++ [k]).
Proof.
  induction c as [|[k' n] c IH]; simpl.
  - right. split; [apply not_elem_of_nil | reflexivity].
  - unfold eq_str. case_bool_decide as Ekk; simpl; [by left|].
    destruct IH as [-> | [Hnin ->]]; [by left|].
    right. split; [|reflexivity].
    rewrite not_elem_of_cons. split; [exact Ekk | exact Hnin].
Qed.

Lemma NoDup_incr k c : NoDup (keys c) -> NoDup (keys (incr k c)).
Proof.
  intros Hnd. destruct (keys_incr k c) as [-> | [Hnin ->]]; [exact Hnd|].
  apply NoDup_app. repeat split; [exact Hnd | | apply NoDup_singleton].
  intros x Hx Hx'. apply list_elem_of_singleton in Hx'. by subst.
Qed.

(** An entry of a counter without repeated keys is what [get] returns. *)
Lemma get_entry k n c : NoDup (keys c) -> (k, n) ∈ c -> get k c = n.
Proof.
  induction c as [|[k' n'] c IH]; simpl; intros Hnd Hin.
  - by apply elem_of_nil in Hin.
  - apply NoDup_cons in Hnd as [Hnin Hnd]. unfold eq_str.
    apply elem_of_cons in Hin as [Heq | Hin].
    + inversion Heq; subst. by rewrite bool_decide_eq_true_2.
    + case_bool_decide as Ekk; [|by apply IH].
      subst k'. exfalso. apply Hnin.
      unfold keys. apply (list_elem_of_fmap_2 fst _ (k, n)) in Hin. exact Hin.
Qed.

(** A key with a positive count has an entry. *)
Lemma entry_of_get k c : get k c <> O -> (k, get k c) ∈ c.
Proof.
  induction c as [|[k' n'] c IH]; simpl; [congruence|].
  unfold eq_str. case_bool_decide as Ekk; intros Hne.
  - subst. apply elem_of_cons. by left.
  - apply elem_of_cons. right. by apply IH.
Qed.

Lemma first_max_spec c : forall best,
  (first_max best c = best \/ first_max best c ∈ c) /\
  (snd best <= snd (first_max best c))%nat /\
  (forall kn, kn ∈ c -> (snd kn <= snd (first_max best c))%nat).
Proof.
  induction c as [|[k n] c IH]; intros best; simpl.
  - repeat split; [by left | lia |]. intros kn Hin. by apply elem_of_nil in Hin.
  - destruct (snd best <? n)%nat eqn:Elt.
    + apply Nat.ltb_lt in Elt.
      destruct (IH (k, n)) as (Hin & Hge & Hall). simpl in Hge.
      repeat split.
      * right. apply elem_of_cons. destruct Hin as [-> | Hin]; [by left | by right].
      * lia.
      * intros kn Hkn. apply elem_of_cons in Hkn as [-> | Hkn]; [exact Hge | by apply Hall].
    + apply Nat.ltb_ge in Elt.
      destruct (IH best) as (Hin & Hge & Hall).
      repeat split.
      * destruct Hin as [-> | Hin]; [by left | right; apply elem_of_cons; by right].
      * exact Hge.
      * intros kn Hkn. apply elem_of_cons in Hkn as [-> | Hkn]; [simpl; lia | by apply Hall].
Qed.

(** [most_common(1)] of a non-empty counter is one of its entries, with a
    count no other entry exceeds. *)
Lemma most_common1_spec c :
  match most_common1 c with
  | [] => c = []
  | r :: _ => r ∈ c /\ forall kn, kn ∈ c -> (snd kn <= snd r)%nat
  end.
Proof.
  destruct c as [|kn c]; simpl; [reflexivity|].
  destruct (first_max_spec c kn) as (Hin & Hge & Hall). split.
  - apply elem_of_cons. destruct Hin as [-> | Hin]; [by left | by right].
  - intros kn' Hkn'. apply elem_of_cons in Hkn' as [-> | Hkn']; [exact Hge | by apply Hall].
Qed.

End CounterFacts.

Section UtilsFacts.

Variable html_unescape : str -> str.
Variable isalpha : char -> bool.
Variable unicodedata_name : char -> option str.

Local Abbreviation script := (script_of unicodedata_name).
Local Abbreviation tally_of := (tally isalpha unicodedata_name).
Local Abbreviation count_of := (script_count isalpha unicodedata_name).
Local Abbreviation named := (all_named isalpha unicodedata_name).
Local Abbreviation detect :=
  (determine_text_script html_unescape isalpha unicodedata_name).

(** A prefix without alphabetic characters leaves the counter as it is. *)
Lemma tally_no_alpha prefix acc :
  forallb (fun c => negb (isalpha c)) prefix = true ->
  tally_of prefix acc = Ok acc.
Proof.
  revert acc. induction prefix as [|c rest IH]; intros acc H; simpl in *.
  - reflexivity.
  - apply andb_true_iff in H as [Hc Hrest].
    apply negb_true_iff in Hc. rewrite Hc. by apply IH.
Qed.

(** The loop counts, for every writing system, its alphabetic characters,
    and never repeats a key. *)
Lemma tally_counts prefix : forall acc,
  named prefix = true ->
  NoDup (Counter.keys acc) ->
  exists c, tally_of prefix acc = Ok c /\ NoDup (Counter.keys c) /\
    forall s, Counter.get s c = (Counter.get s acc + count_of s prefix)%nat.
Proof.
  induction prefix as [|ch rest IH]; intros acc Hnamed Hnd; simpl in *.
  - exists acc. repeat split; [exact Hnd|]. intros s.
    unfold script_count. simpl. lia.
  - apply andb_true_iff in Hnamed as [Hch Hrest].
    unfold script_count, names_script. simpl.
    destruct (isalpha ch) eqn:Ealpha; simpl in *.
    + destruct (script ch) as [w|e] eqn:Ew; [|discriminate]. simpl.
      destruct (IH (Counter.incr w acc) Hrest (CounterFacts.NoDup_incr _ _ Hnd))
        as (c & Hc & Hndc & Hget).
      exists c. repeat split; [exact Hc | exact Hndc |].
      intros s. rewrite Hget, CounterFacts.get_incr.
      unfold script_count, names_script.
      destruct (Counter.eq_str s w); simpl; lia.
    + destruct (IH acc Hrest Hnd) as (c & Hc & Hndc & Hget).
      exists c. repeat split; [exact Hc | exact Hndc |].
      intros s. rewrite Hget. reflexivity.
Qed.

(** The loop reads the library only at the characters of the prefix. *)
Lemma tally_ext isalpha' name' prefix : forall acc,
  Forall (fun c => isalpha c = isalpha' c /\
                   (isalpha c = true -> unicodedata_name c = name' c)) prefix ->
  tally_of prefix acc = tally isalpha' name' prefix acc.
Proof.
  induction prefix as [|ch rest IH]; intros acc H; simpl; [reflexivity|].
  apply Forall_cons in H as [[Ha Hn] Hrest]. rewrite <- Ha.
  destruct (isalpha ch) eqn:E; [|by apply IH].
  unfold script_of. rewrite <- (Hn eq_refl).
  destruct (unicodedata_name ch) as [name|]; simpl; [|reflexivity].
  destruct (first_word name); simpl; [by apply IH | reflexivity].
Qed.

End UtilsFacts.

Section ScriptDetection.

Variable html_unescape : str -> str.
Variable isalpha : char -> bool.
Variable unicodedata_name : char -> option str.

Local Abbreviation count_of := (script_count isalpha unicodedata_name).
Local Abbreviation named := (all_named isalpha unicodedata_name).
Local Abbreviation detect :=
  (determine_text_script html_unescape isalpha unicodedata_name).

(** C2.  On a prefix without alphabetic characters the function returns
    ["MIXED"] when the prefix is not empty, and divides by zero when it is
    empty: the empty text raises [ZeroDivisionError]. *)
Theorem determine_text_script_no_alpha (text : str) :
  forallb (fun c => negb (isalpha c)) (take 10 (html_unescape text)) = true ->
  detect text =
    match take 10 (html_unescape text) with
    | [] => Raise ZeroDivisionError
    | _ :: _ => Ok MIXED
    end.
Proof.
  intros H. unfold determine_text_script.
  rewrite (tally_no_alpha isalpha unicodedata_name _ [] H). simpl.
  destruct (take 10 (html_unescape text)); reflexivity.
Qed.

(** The majority rule on a non-empty prefix whose letters have names. *)
Lemma determine_text_script_majority (text : str) :
  take 10 (html_unescape text) <> [] ->
  named (take 10 (html_unescape text)) = true ->
  exists r, detect text = Ok r /\
    ((r = MIXED /\
      forall s, (2 * count_of s (take 10 (html_unescape text))
                 < length (take 10 (html_unescape text)))%nat) \/
     ((length (take 10 (html_unescape text))
       <= 2 * count_of r (take 10 (html_unescape text)))%nat /\
      forall s, (count_of s (take 10 (html_unescape text))
                 <= count_of r (take 10 (html_unescape text)))%nat)).
Proof.
  intros Hne Hnamed. unfold determine_text_script.
  remember (take 10 (html_unescape text)) as prefix eqn:Eprefix.
  clear Eprefix.
  destruct (tally_counts isalpha unicodedata_name prefix [] Hnamed)
    as (c & Hc & Hnd & Hget); [apply NoDup_nil_2|].
  rewrite Hc. simpl.
  assert (Hlen : Nat.eqb (length prefix) 0 = false).
  { apply Nat.eqb_neq. destruct prefix; simpl; [congruence | lia]. }
  rewrite Hlen.
  assert (Hmax : forall (r : str * nat), r ∈ c ->
            (forall kn, kn ∈ c -> (snd kn <= snd r)%nat) ->
            count_of (fst r) prefix = snd r /\
            forall s, (count_of s prefix <= snd r)%nat).
  { intros [k n] Hin Hall. simpl. split.
    - rewrite <- (CounterFacts.get_entry k n c Hnd Hin). rewrite Hget. reflexivity.
    - intros s. specialize (Hget s). simpl in Hget. rewrite <- Hget.
      destruct (Nat.eq_dec (Counter.get s c) O) as [-> | Hpos]; [lia|].
      apply (Hall (s, Counter.get s c)). by apply CounterFacts.entry_of_get. }
  pose proof (CounterFacts.most_common1_spec c) as Hmc.
  destruct (Counter.most_common1 c) as [|[k n] mc].
  - subst c. destruct prefix as [|p ps]; [congruence|].
    exists MIXED. split; [reflexivity|]. left. split; [reflexivity|].
    intros s. specialize (Hget s). simpl in Hget. rewrite <- Hget.
    simpl. lia.
  - destruct Hmc as [Hin Hall].
    destruct (Hmax (k, n) Hin Hall) as [Hk Hle]. simpl in Hk, Hle.
    change (n + (n + 0))%nat with (2 * n)%nat.
    destruct (2 * n <? length prefix)%nat eqn:Elt.
    + exists MIXED. split; [reflexivity|]. left. split; [reflexivity|].
      apply Nat.ltb_lt in Elt. intros s. specialize (Hle s). lia.
    + exists k. split; [reflexivity|]. right.
      apply Nat.ltb_ge in Elt. rewrite Hk. split; [exact Elt | exact Hle].
Qed.

(** The function reads the library only at the first ten characters of
    the unescaped text. *)
Lemma determine_text_script_ext isalpha' name' (text : str) :
  Forall (fun c => isalpha c = isalpha' c /\
                   (isalpha c = true -> unicodedata_name c = name' c))
         (take 10 (html_unescape text)) ->
  detect text = determine_text_script html_unescape isalpha' name' text.
Proof.
  intros H. unfold determine_text_script.
  by rewrite (tally_ext isalpha unicodedata_name isalpha' name' _ _ H).
Qed.

(** A text whose prefix the library treats as the excerpt does, and that
    [html.unescape] leaves as it is, is classified as with the excerpt. *)
Lemma determine_text_script_excerpt (text : str) :
  html_unescape text = text ->
  agrees_on isalpha unicodedata_name (take 10 text) ->
  detect text =
    determine_text_script (fun s => s) (isalpha_of ucd_excerpt)
                          (name_of ucd_excerpt) text.
Proof.
  intros Hu Hagree.
  rewrite (determine_text_script_ext (isalpha_of ucd_excerpt) (name_of ucd_excerpt));
    [| rewrite Hu; exact Hagree].
  unfold determine_text_script. rewrite Hu. reflexivity.
Qed.

(** A letter without a name, or with a name without a word, makes the
    loop raise. *)
Lemma tally_unnamed (beginning : str) : forall acc,
  named beginning = false ->
  exists e, tally isalpha unicodedata_name beginning acc = Raise e.
Proof.
  induction beginning as [|ch rest IH]; intros acc H; [discriminate H|].
  cbn [all_named forallb] in H. cbn [tally].
  destruct (isalpha ch); cbn [negb orb] in H.
  - destruct (script_of unicodedata_name ch) as [w|e];
      cbn [mbind result_bind]; [|by exists e].
    cbn [andb] in H. by apply IH.
  - by apply IH.
Qed.

(** C7.  On the empty prefix the function divides by zero.  On every
    other text it either meets a letter the library does not name, and
    raises, or returns ["MIXED"] when every writing system counts under
    half of the prefix's length and otherwise a writing system with the
    largest count, which is at least half of the prefix's length.  In
    particular the three texts of the specification are LATIN, CJK and
    HANGUL, for a library that treats their first ten characters as the
    Unicode data does. *)
Theorem determine_text_script_majority_rule :
  (forall text : str,
     take 10 (html_unescape text) = [] ->
     detect text = Raise ZeroDivisionError) /\
  (forall text : str,
     take 10 (html_unescape text) <> [] ->
     named (take 10 (html_unescape text)) = false ->
     exists e, detect text = Raise e) /\
  (forall text : str,
     take 10 (html_unescape text) <> [] ->
     named (take 10 (html_unescape text)) = true ->
     exists r, detect text = Ok r /\
       ((r = MIXED /\
         forall s, (2 * count_of s (take 10 (html_unescape text))
                    < length (take 10 (html_unescape text)))%nat) \/
        ((length (take 10 (html_unescape text))
          <= 2 * count_of r (take 10 (html_unescape text)))%nat /\
         forall s, (count_of s (take 10 (html_unescape text))
                    <= count_of r (take 10 (html_unescape text)))%nat))) /\
  (Forall (fun text => html_unescape text = text /\
                       agrees_on isalpha unicodedata_name (take 10 text))
          [hello_world; ni_hao; annyeong_ni_hao] ->
   detect hello_world = Ok (lit "LATIN") /\
   detect ni_hao = Ok (lit "CJK") /\
   detect annyeong_ni_hao = Ok (lit "HANGUL")).
Proof.
  split; [|split; [|split; [exact determine_text_script_majority|]]].
  - intros text H. unfold determine_text_script. by rewrite H.
  - intros text _ H. unfold determine_text_script.
    destruct (tally_unnamed _ [] H) as [e ->]. by exists e.
  - intros H.
    apply Forall_cons in H as [[Hu1 Ha1] H].
    apply Forall_cons in H as [[Hu2 Ha2] H].
    apply Forall_cons in H as [[Hu3 Ha3] _].
    rewrite !determine_text_script_excerpt by assumption.
    repeat split; vm_compute; reflexivity.
Qed.

End ScriptDetection.

(** The excerpt agrees with itself. *)
Lemma agrees_on_excerpt (s : str) :
  agrees_on (isalpha_of ucd_excerpt) (name_of ucd_excerpt) s.
Proof. apply Forall_forall. intros c _. split; reflexivity. Qed.

Lemma determine_text_script_no_alpha_witness :
  determine_text_script (fun s => s) (isalpha_of ucd_excerpt)
    (name_of ucd_excerpt) [] = Raise ZeroDivisionError.
Proof.
  apply (determine_text_script_no_alpha (fun s => s) (isalpha_of ucd_excerpt)
           (name_of ucd_excerpt) []).
  reflexivity.
Defined.

Lemma determine_text_script_majority_rule_witness :
  determine_text_script (fun s => s) (isalpha_of ucd_excerpt)
    (name_of ucd_excerpt) hello_world = Ok (lit "LATIN") /\
  determine_text_script (fun s => s) (isalpha_of ucd_excerpt)
    (name_of ucd_excerpt) ni_hao = Ok (lit "CJK") /\
  determine_text_script (fun s => s) (isalpha_of ucd_excerpt)
    (name_of ucd_excerpt) annyeong_ni_hao = Ok (lit "HANGUL").
Proof.
  apply (determine_text_script_majority_rule (fun s => s)
           (isalpha_of ucd_excerpt) (name_of ucd_excerpt)).
  repeat constructor; apply agrees_on_excerpt.
Defined.

(** The empty text has no classification: the function returns nothing
    there. *)
Lemma determine_text_script_empty_raises :
  ~ (exists r, determine_text_script (fun s => s) (isalpha_of ucd_excerpt)
                 (name_of ucd_excerpt) [] = Ok r).
Proof. intros [r H]. vm_compute in H. discriminate. Qed.

(** ** The record store *)

Module DictFacts.
Section DictFacts.
Context {K V : Type} `{EqDecision K}.
Implicit Types (d u : Dict.t K V) (k : K) (v : V).

Lemma get_set k k' v d :
  Dict.get k (Dict.set k' v d) =
    if decide (k = k') then Some v else Dict.get k d.
Proof.
  induction d as [|[k0 v0] d IH]; simpl.
  - reflexivity.
  - destruct (decide (k' = k0)) as [-> | Hne]; simpl.
    + destruct (decide (k = k0)); reflexivity.
    + rewrite IH. destruct (decide (k = k0)) as [-> | Hk0]; [|reflexivity].
      destruct (decide (k0 = k')); [congruence | reflexivity].
Qed.

Lemma get_None_keys k d : k ∉ Dict.keys d -> Dict.get k d = None.
Proof.
  induction d as [|[k0 v0] d IH]; simpl; intros Hnin; [reflexivity|].
  apply not_elem_of_cons in Hnin as [Hne Hnin].
  destruct (decide (k = k0)); [congruence | by apply IH].
Qed.

Lemma get_Some_keys k v d : Dict.get k d = Some v -> k ∈ Dict.keys d.
Proof.
  induction d as [|[k0 v0] d IH]; simpl; [discriminate|].
  destruct (decide (k = k0)) as [-> | Hne]; intros Hget.
  - apply elem_of_cons. by left.
  - apply elem_of_cons. right. by apply IH.
Qed.

(** [set] keeps the keys in place and appends a new key. *)
Lemma keys_set k v d :
  Dict.keys (Dict.set k v d) =
    if bool_decide (k ∈ Dict.keys d) then Dict.keys d else Dict.keys d ++ [k].
Proof.
  induction d as [|[k0 v0] d IH]; simpl.
  - first [ reflexivity
          | rewrite bool_decide_eq_false_2; [reflexivity | apply not_elem_of_nil] ].
  - destruct (decide (k = k0)) as [-> | Hne]; simpl.
    + rewrite bool_decide_eq_true_2; [reflexivity | apply elem_of_cons; by left].
    + rewrite IH. case_bool_decide as Hin.
      * rewrite bool_decide_eq_true_2; [reflexivity | apply elem_of_cons; by right].
      * rewrite bool_decide_eq_false_2; [reflexivity|].
        rewrite not_elem_of_cons. split; assumption.
Qed.

Lemma NoDup_keys_set k v d :
  NoDup (Dict.keys d) -> NoDup (Dict.keys (Dict.set k v d)).
Proof.
  intros Hnd. rewrite keys_set. case_bool_decide as Hin; [exact Hnd|].
  apply NoDup_app. repeat split; [exact Hnd | | apply NoDup_singleton].
  intros x Hx Hx'. apply list_elem_of_singleton in Hx'. by subst.
Qed.

(** [update] overwrites key by key. *)
Lemma get_update k u : forall d,
  NoDup (Dict.keys u) ->
  Dict.get k (Dict.update d u) =
    match Dict.get k u with
    | Some v => Some v
    | None => Dict.get k d
    end.
Proof.
  unfold Dict.update.
  induction u as [|[k0 v0] u IH]; intros d Hnd; simpl; [reflexivity|].
  apply NoDup_cons in Hnd as [Hnin Hnd]. simpl in Hnin.
  rewrite (IH _ Hnd). simpl. rewrite get_set.
  destruct (decide (k = k0)) as [-> | Hne]; [|reflexivity].
  by rewrite (get_None_keys _ _ Hnin).
Qed.

Lemma NoDup_keys_update u : forall d,
  NoDup (Dict.keys d) -> NoDup (Dict.keys (Dict.update d u)).
Proof.
  unfold Dict.update.
  induction u as [|[k0 v0] u IH]; intros d Hnd; simpl; [exact Hnd|].
  apply IH. by apply NoDup_keys_set.
Qed.

End DictFacts.
End DictFacts.

(** C9.  [update_frontmatter] leaves the content as it is; for a patch that
    is a mapping (no key twice), every key of the patch takes the patch's
    value and every other key keeps the value it had. *)
Theorem update_frontmatter_frame (md : MarkdownFile)
    (updates : Dict.t str value) (k : str) :
  NoDup (Dict.keys updates) ->
  content (update_frontmatter md updates) = content md /\
  (forall v, Dict.get k updates = Some v ->
     Dict.get k (frontmatter (update_frontmatter md updates)) = Some v) /\
  (Dict.get k updates = None ->
     Dict.get k (frontmatter (update_frontmatter md updates)) =
     Dict.get k (frontmatter md)).
Proof.
  intros Hnd. split; [reflexivity|]. simpl.
  rewrite (DictFacts.get_update k updates _ Hnd).
  split; [intros v -> | intros ->]; reflexivity.
Qed.

Lemma update_frontmatter_frame_witness :
  let md := {| frontmatter := [(lit "video_id", VStr (lit "test123"));
                               (lit "stage", VStr (lit "fetched"))];
               content := lit "Test content" |} in
  let updates := [(lit "stage", VStr (lit "assessed"));
                  (lit "happiness_score", VInt 5)] in
  content (update_frontmatter md updates) = content md /\
  (forall v, Dict.get (lit "video_id") updates = Some v ->
     Dict.get (lit "video_id") (frontmatter (update_frontmatter md updates))
     = Some v) /\
  (Dict.get (lit "video_id") updates = None ->
     Dict.get (lit "video_id") (frontmatter (update_frontmatter md updates)) =
     Dict.get (lit "video_id") (frontmatter md)).
Proof.
  intros md updates.
  apply (update_frontmatter_frame md updates (lit "video_id")).
  apply (bool_decide_unpack _). vm_compute. exact I.
Defined.

Lemma sentinel_chars : sentinel = [45; 45; 45; 10]%N.
Proof. reflexivity. Qed.

Lemma startswith_app (p s : str) : startswith p (p ++ s) = true.
Proof. induction p as [|a p IH]; simpl; [reflexivity|]. by rewrite N.eqb_refl. Qed.

(** A text that does not start with the sentinel does not start with it
    when the sentinel follows the text: the sentinel ends in the only
    newline it has. *)
Lemma startswith_sentinel_app (y rest : str) :
  y <> [] -> startswith sentinel y = false ->
  startswith sentinel (y ++ sentinel ++ rest) = false.
Proof.
  rewrite sentinel_chars. intros Hne H.
  destruct y as [|a [|b [|c [|d y]]]]; [congruence|..]; simpl in *;
    try exact H;
    repeat match goal with
           | |- context [if ?b then _ else _] => destruct b
           end; reflexivity.
Qed.

(** The first sentinel of header, sentinel and rest is the one after the
    header, when the header holds none. *)
Lemma split_first_sentinel (y rest : str) :
  contains sentinel y = false ->
  split_first sentinel (y ++ sentinel ++ rest) = Some (y, rest).
Proof.
  unfold contains. induction y as [|c y IH]; intros H.
  - simpl app. rewrite sentinel_chars. reflexivity.
  - assert (Hs : startswith sentinel (c :: y) = false).
    { destruct (startswith sentinel (c :: y)) eqn:E; [|reflexivity].
      rewrite sentinel_chars in *. simpl in H. simpl in E. rewrite E in H.
      discriminate. }
    assert (Hy : match split_first sentinel y with Some _ => true | None => false end = false).
    { rewrite sentinel_chars in *. simpl in H. simpl in Hs. rewrite Hs in H.
      destruct (split_first [45; 45; 45; 10]%N y) as [[? ?]|]; [discriminate | reflexivity]. }
    pose proof (startswith_sentinel_app (c :: y) rest ltac:(discriminate) Hs) as Hs'.
    specialize (IH Hy).
    rewrite sentinel_chars in *.
    change (split_first [45; 45; 45; 10]%N ((c :: y) ++ [45; 45; 45; 10]%N ++ rest))
      with (if startswith [45; 45; 45; 10]%N ((c :: y) ++ [45; 45; 45; 10]%N ++ rest)
            then Some ([], drop 4 ((c :: y) ++ [45; 45; 45; 10]%N ++ rest))
            else match split_first [45; 45; 45; 10]%N (y ++ [45; 45; 45; 10]%N ++ rest) with
                 | Some (a, b) => Some (c :: a, b)
                 | None => None
                 end).
    rewrite Hs', IH. reflexivity.
Qed.

(** ** Whitespace *)

Lemma lstrip_app_nonspace (u : str) (c : char) :
  isspace c = false -> lstrip (u ++ [c]) = lstrip u ++ [c].
Proof.
  intros Hc. induction u as [|a u IH]; simpl.
  - by rewrite Hc.
  - destruct (isspace a); [exact IH | reflexivity].
Qed.

Lemma lstrip_lstrip (s : str) : lstrip (lstrip s) = lstrip s.
Proof.
  induction s as [|c s IH]; simpl; [reflexivity|].
  destruct (isspace c) eqn:E; [exact IH|]. simpl. by rewrite E.
Qed.

Lemma rstrip_cons_nonspace (c : char) (s : str) :
  isspace c = false -> rstrip (c :: s) = c :: rstrip s.
Proof.
  intros Hc. unfold rstrip. simpl.
  rewrite (lstrip_app_nonspace _ _ Hc), rev_app_distr. reflexivity.
Qed.

Lemma lstrip_rstrip_lstrip (s : str) :
  lstrip (rstrip (lstrip s)) = rstrip (lstrip s).
Proof.
  induction s as [|c s IH]; simpl; [reflexivity|].
  destruct (isspace c) eqn:E; [exact IH|].
  rewrite (rstrip_cons_nonspace _ _ E). simpl. by rewrite E.
Qed.

Lemma rstrip_rstrip (s : str) : rstrip (rstrip s) = rstrip s.
Proof. unfold rstrip. by rewrite rev_involutive, lstrip_lstrip. Qed.

(** [s.strip().strip() == s.strip()] *)
Lemma strip_strip (s : str) : strip (strip s) = strip s.
Proof.
  unfold strip. rewrite lstrip_rstrip_lstrip. apply rstrip_rstrip.
Qed.

(** ** Text mode *)

(** A text without carriage return is read as it is. *)
Lemma universal_newlines_app (a b : str) :
  cr ∉ a -> universal_newlines (a ++ b) = a ++ universal_newlines b.
Proof.
  induction a as [|c a IH]; intros Hcr; [reflexivity|].
  apply not_elem_of_cons in Hcr as [Hc Hcr].
  cbn [app universal_newlines].
  destruct (N.eqb_spec c cr) as [-> | _]; [congruence|].
  by rewrite (IH Hcr).
Qed.

Lemma universal_newlines_id (s : str) : cr ∉ s -> universal_newlines s = s.
Proof.
  intros H. rewrite <- (app_nil_r s) at 1.
  rewrite (universal_newlines_app _ _ H). simpl. apply app_nil_r.
Qed.

(** What is read holds newlines and the characters of the file other than
    the carriage return. *)
Lemma elem_of_universal_newlines (x : char) : forall (n : nat) (s : str),
  (length s <= n)%nat ->
  x ∈ universal_newlines s -> x = nl \/ (x ∈ s /\ x <> cr).
Proof.
  induction n as [|n IH]; intros s Hlen Hin.
  - destruct s; [by apply elem_of_nil in Hin | simpl in Hlen; lia].
  - destruct s as [|c rest]; [by apply elem_of_nil in Hin|].
    cbn [length] in Hlen. cbn [universal_newlines] in Hin.
    destruct (N.eqb_spec c cr) as [-> | Hc].
    + apply elem_of_cons in Hin as [-> | Hin]; [by left|].
      destruct rest as [|c' rest']; [by apply elem_of_nil in Hin|].
      cbn [length] in Hlen.
      destruct (N.eqb c' nl).
      * destruct (IH rest' ltac:(lia) Hin) as [-> | [Hx Hne]]; [by left|].
        right. split; [|exact Hne]. by do 2 apply list_elem_of_further.
      * destruct (IH (c' :: rest') ltac:(simpl; lia) Hin) as [-> | [Hx Hne]];
          [by left|].
        right. split; [|exact Hne]. by apply list_elem_of_further.
    + apply elem_of_cons in Hin as [-> | Hin].
      * right. split; [apply list_elem_of_here | exact Hc].
      * destruct (IH rest ltac:(lia) Hin) as [-> | [Hx Hne]]; [by left|].
        right. split; [|exact Hne]. by apply list_elem_of_further.
Qed.

Lemma cr_universal_newlines (s : str) : cr ∉ universal_newlines s.
Proof.
  intros Hin.
  destruct (elem_of_universal_newlines cr (length s) s (le_n _) Hin)
    as [H | [_ H]]; [discriminate H | congruence].
Qed.

Lemma elem_of_lstrip (x : char) (s : str) : x ∈ lstrip s -> x ∈ s.
Proof.
  induction s as [|c s IH]; simpl; [done|].
  destruct (isspace c); [|done].
  intros H. apply list_elem_of_further. by apply IH.
Qed.

Lemma elem_of_strip (x : char) (s : str) : x ∈ strip s -> x ∈ s.
Proof.
  unfold strip, rstrip. intros H.
  apply elem_of_lstrip.
  apply list_elem_of_In, in_rev, list_elem_of_In.
  apply elem_of_lstrip.
  by apply list_elem_of_In, in_rev, list_elem_of_In.
Qed.

Lemma cr_strip (s : str) : cr ∉ s -> cr ∉ strip s.
Proof. intros H Hin. by apply H, elem_of_strip. Qed.

Lemma encodable_app (a b : str) :
  encodable (a ++ b) = encodable a && encodable b.
Proof. apply forallb_app. Qed.

Lemma encodable_elem (s : str) :
  encodable s = true <-> forall x, x ∈ s -> is_surrogate x = false.
Proof.
  unfold encodable. rewrite forallb_forall. split.
  - intros H x Hx. apply negb_true_iff, H. by apply list_elem_of_In.
  - intros H x Hx. apply negb_true_iff, H. by apply list_elem_of_In.
Qed.

Lemma encodable_strip_universal_newlines (s : str) :
  encodable s = true -> encodable (strip (universal_newlines s)) = true.
Proof.
  rewrite !encodable_elem. intros H x Hx.
  apply elem_of_strip in Hx.
  destruct (elem_of_universal_newlines x (length s) s (le_n _) Hx)
    as [-> | [Hin _]]; [reflexivity | by apply H].
Qed.

Section RecordStore.

Variable yaml_dump : Dict.t str value -> str.
Variable yaml_safe_load : str -> result (Dict.t str value).
Variable file_of : str -> str.
Variable open_raises : str -> bool.

Local Abbreviation load_ := (load yaml_safe_load file_of open_raises).
Local Abbreviation save_ := (save yaml_dump file_of open_raises).

(** A save that can open the file and encode the text returns, and what
    [load] then reads is the text [to_string] wrote, in text mode. *)
Lemma load_save (md : MarkdownFile) (file_path : str) (fs : gmap str str) :
  open_raises file_path = false ->
  encodable (to_string yaml_dump md) = true ->
  (save_ md file_path fs).1 = Ok tt /\
  load_ (save_ md file_path fs).2 file_path =
  load_text yaml_safe_load (universal_newlines (to_string yaml_dump md)).
Proof.
  intros Hopen Henc. unfold load, save, files. rewrite Hopen, Henc.
  cbn [fst snd]. by rewrite lookup_insert_eq.
Qed.

(** The text of a record splits into its header and its body when the
    dumped header holds no sentinel line. *)
Lemma load_text_to_string (md : MarkdownFile) :
  contains sentinel (yaml_dump (frontmatter md)) = false ->
  load_text yaml_safe_load (to_string yaml_dump md) =
  (fm ← yaml_safe_load (yaml_dump (frontmatter md));
   Ok {| frontmatter := fm; content := strip (content md) |}).
Proof.
  intros Hno. unfold load_text, to_string.
  rewrite startswith_app.
  change (split_max sentinel 2 ?t) with
    (match split_first sentinel t with
     | None => [t]
     | Some (a, b) =>
         a :: match split_first sentinel b with
              | None => [b]
              | Some (a', b') => [a'; b']
              end
     end).
  assert (H1 : forall t, split_first sentinel (sentinel ++ t) = Some ([], t)).
  { intros t. rewrite sentinel_chars. reflexivity. }
  rewrite H1, (split_first_sentinel _ _ Hno).
  destruct (yaml_safe_load (yaml_dump (frontmatter md))); reflexivity.
Qed.

(** Read in text mode, the text of a record whose dumped header holds no
    carriage return is the text of the record with the newlines of its
    body translated. *)
Lemma universal_newlines_to_string (md : MarkdownFile) :
  cr ∉ yaml_dump (frontmatter md) ->
  universal_newlines (to_string yaml_dump md) =
  to_string yaml_dump {| frontmatter := frontmatter md;
                         content := universal_newlines (content md) |}.
Proof.
  intros Hcr. unfold to_string. cbn [frontmatter content].
  rewrite !app_assoc. rewrite universal_newlines_app; [reflexivity|].
  rewrite sentinel_chars. intros Hin.
  repeat (apply elem_of_app in Hin as [Hin | Hin]);
    try (by apply Hcr);
    apply list_elem_of_In in Hin; cbn in Hin;
    repeat (destruct Hin as [Hin | Hin]; [discriminate Hin|]);
    exact Hin.
Qed.

(** What a round trip gives: the header, and the body with its newlines
    translated and the whitespace around it removed. *)
Lemma load_save_text (md : MarkdownFile) (file_path : str)
    (fs : gmap str str) :
  open_raises file_path = false ->
  encodable (to_string yaml_dump md) = true ->
  yaml_safe_load (yaml_dump (frontmatter md)) = Ok (frontmatter md) ->
  contains sentinel (yaml_dump (frontmatter md)) = false ->
  cr ∉ yaml_dump (frontmatter md) ->
  load_ (save_ md file_path fs).2 file_path =
    Ok {| frontmatter := frontmatter md;
          content := strip (universal_newlines (content md)) |}.
Proof.
  intros Hopen Henc Hyaml Hno Hcr.
  destruct (load_save md file_path fs Hopen Henc) as [_ ->].
  rewrite (universal_newlines_to_string md Hcr).
  rewrite (load_text_to_string
             {| frontmatter := frontmatter md;
                content := universal_newlines (content md) |} Hno).
  cbn [frontmatter content]. by rewrite Hyaml.
Qed.


(** A text that cannot be encoded is not saved: [save] raises after the
    file is emptied, and a load then returns a record with no header and
    no body, whatever the file held. *)
Theorem save_unencodable (md : MarkdownFile) (file_path : str)
    (fs : gmap str str) :
  open_raises file_path = false ->
  encodable (to_string yaml_dump md) = false ->
  (save_ md file_path fs).1 = Raise UnicodeEncodeError /\
  load_ (save_ md file_path fs).2 file_path =
    Ok {| frontmatter := []; content := [] |}.
Proof.
  intros Hopen Henc. unfold load, save, files. rewrite Hopen, Henc.
  cbn [fst snd]. by rewrite lookup_insert_eq.
Qed.

End RecordStore.



(** A body with a carriage return does not come back either: it is read
    as a newline. *)
Lemma load_save_translates_newlines :
  let md := {| frontmatter := frontmatter test_record;
               content := lit "a" ++ [cr] ++ lit "b" |} in
  load scalars_load (fun p => p) (fun _ => false)
       (save scalars_dump (fun p => p) (fun _ => false)
             md (lit "test.md") ∅).2
       (lit "test.md")
  = Ok {| frontmatter := frontmatter test_record;
          content := lit "a" ++ [nl] ++ lit "b" |}.
Proof.
  intros md. unfold load, save, files. cbn [fst snd].
  replace (encodable (to_string scalars_dump md)) with true
    by (vm_compute; reflexivity).
  cbn [snd]. rewrite lookup_insert_eq. vm_compute. reflexivity.
Qed.

(** A record whose body holds a lone surrogate empties the file. *)
Lemma save_unencodable_witness :
  let md := {| frontmatter := frontmatter test_record;
               content := [55296%N] |} in
  load scalars_load (fun p => p) (fun _ => false)
       (save scalars_dump (fun p => p) (fun _ => false) md (lit "test.md")
             {[ lit "test.md" := lit "old" ]}).2
       (lit "test.md")
  = Ok {| frontmatter := []; content := [] |}.
Proof.
  intros md.
  apply (save_unencodable scalars_dump scalars_load (fun p => p)
           (fun _ => false) md (lit "test.md")); reflexivity.
Defined.

(** A header value that ends in three dashes puts a sentinel line inside the
    dumped header: the header does not come back either. *)
Lemma load_save_sentinel_in_header :
  let md := {| frontmatter := [(lit "title", VStr (lit "a---"))];
               content := lit "body" |} in
  load_text scalars_load (to_string scalars_dump md) =
  Ok {| frontmatter := [(lit "title", VStr (lit "a"))];
        content := sentinel ++ [nl] ++ lit "body" |}.
Proof. vm_compute. reflexivity. Qed.

(** ** The assess stage *)

Section AssessFacts.

Variable csv_DictReader : str -> list row.
Variable py_int : str -> option Z.
Variable repr : value -> str.
Variable prompt_name : str.
Variable prompt_version : Z.
Variable utcnow : nat -> str.
Variable save_raises : nat -> bool.

Local Abbreviation try_ :=
  (assess_try repr prompt_name prompt_version utcnow save_raises).
Local Abbreviation loop :=
  (assess_loop repr prompt_name prompt_version utcnow save_raises).
Local Abbreviation assessed_ :=
  (assessed repr prompt_name prompt_version utcnow).
Local Abbreviation run :=
  (assess_run csv_DictReader py_int repr prompt_name prompt_version utcnow
              save_raises).

(** With an id that can be a key, the [try] body fails only in [save]. *)
Lemma assess_try_hashable results i video :
  hashable (video_id_of video) = true ->
  try_ results i video =
    if save_raises i then Raise OSError else Ok (assessed_ results i video).
Proof.
  unfold assess_try, assessed, video_id_of, response_entry.
  destruct (Dict.get_default (lit "video_id") (VStr []) (frontmatter video));
    simpl; intros H; try discriminate; reflexivity.
Qed.

(** The loop writes one file for each video whose [save] returns, counts
    it, and counts every other video as an error. *)
Lemma assess_loop_spec results videos : forall i st,
  forallb (fun v => hashable (video_id_of v)) videos = true ->
  written (loop results i videos st) =
    written st ++
    omap (fun iv => if save_raises iv.1 then None
                    else Some (assessed_ results iv.1 iv.2))
         (imap (fun j v => ((i + j)%nat, v)) videos) /\
  count (loop results i videos st) =
    (count st + (length (written (loop results i videos st))
                 - length (written st)))%nat /\
  (count (loop results i videos st) + errors (loop results i videos st)
   = count st + errors st + length videos)%nat.
Proof.
  induction videos as [|v videos IH]; intros i st Hh.
  - simpl. rewrite app_nil_r. repeat split; lia.
  - simpl in Hh. apply andb_true_iff in Hh as [Hv Hh].
    cbn [assess_loop]. rewrite (assess_try_hashable _ _ _ Hv).
    rewrite imap_cons. cbn [omap list_omap fst snd]. rewrite Nat.add_0_r.
    assert (Hext : imap ((fun j v => ((i + j)%nat, v)) ∘ S) videos
                   = imap (fun j (v : MarkdownFile) => ((S i + j)%nat, v)) videos).
    { apply imap_ext. intros j x _. simpl. f_equal. lia. }
    rewrite Hext.
    destruct (save_raises i).
    + destruct (IH (S i) (failed st) Hh) as (Hw & Hc & Hce).
      simpl in Hw, Hc, Hce. repeat split.
      * exact Hw.
      * exact Hc.
      * simpl. lia.
    + destruct (assessed_ results i v) as [name w] eqn:Ea.
      destruct (IH (S i) (saved name w st) Hh) as (Hw & Hc & Hce).
      simpl in Hw, Hc, Hce. rewrite <- app_assoc in Hw. simpl in Hw.
      pose proof (f_equal length Hw) as Hlen.
      rewrite !length_app in *. simpl in *. repeat split.
      * exact Hw.
      * lia.
      * lia.
Qed.

Lemma assess_updates_NoDup i a :
  NoDup (Dict.keys (assess_updates prompt_name prompt_version utcnow i a)).
Proof. apply (bool_decide_unpack _). vm_compute. exact I. Qed.

End AssessFacts.

(** C4, at a response that scores a video that was not loaded.  One record,
    [a], is loaded; the response gives [a] the score 5 and [zzz] the score
    1.  The run returns the mean of the response's scores, 6/2 = 3, while
    the one loaded record with a score above 0 has the score 5. *)
Theorem assess_average_over_response :
  avg_happiness (example_assess_run [video_a]) = Some (AvgRound2 6 2) /\
  List.map (record_score example_results) [video_a] = [5] /\
  mean_over_records example_results [video_a] = AvgRound2 5 1 /\
  (exact_mean (AvgRound2 6 2) == 3)%Q /\
  (exact_mean (AvgRound2 5 1) == 5)%Q.
Proof. repeat split. Qed.

(** ** The enhance stage *)

Section EnhanceFacts.

Variable repr : value -> str.
Variable yaml_safe_load : str -> result (Dict.t str value).
Variable happiness_threshold : Z.
Variable utcnow : nat -> str.
Variable save_raises : nat -> bool.

Local Abbreviation load_ :=
  (_load_videos_from_assess yaml_safe_load happiness_threshold).

(** The comparison with the threshold is [score_at_least]; where it raises
    the record is not kept. *)
Lemma load_try_spec (text : str) :
  match load_try yaml_safe_load happiness_threshold text with
  | Ok (md_file, keep) =>
      load_text yaml_safe_load text = Ok md_file /\
      keep = score_at_least happiness_threshold md_file
  | Raise _ =>
      match load_text yaml_safe_load text with
      | Ok md_file => score_at_least happiness_threshold md_file = false
      | Raise _ => True
      end
  end.
Proof.
  unfold load_try, score_at_least, Dict.get_default, meets_threshold.
  destruct (load_text yaml_safe_load text) as [md|e];
    cbn [mbind result_bind frontmatter]; [|exact I].
  destruct (Dict.get (lit "happiness_score") (frontmatter md)) as [[]|] eqn:E;
    cbn [mbind result_bind]; rewrite ?E; repeat split; auto.
Qed.

(** The loader keeps the loadable records with a score at least the
    threshold, in the order of the files. *)
Lemma load_videos_from_assess_filter (assess_dir : list (str * str)) :
  load_ assess_dir =
  List.filter (score_at_least happiness_threshold)
              (loadable yaml_safe_load assess_dir).
Proof.
  unfold loadable.
  induction assess_dir as [|[name text] dir IH]; [reflexivity|].
  cbn [_load_videos_from_assess omap list_omap snd].
  pose proof (load_try_spec text) as Hspec.
  destruct (load_try yaml_safe_load happiness_threshold text) as [[md keep]|e].
  - destruct Hspec as [-> ->]. cbn [List.filter].
    destruct (score_at_least happiness_threshold md); by rewrite IH.
  - destruct (load_text yaml_safe_load text) as [md|e']; [|exact IH].
    cbn [List.filter]. by rewrite Hspec.
Qed.

Lemma loadable_Forall2 (dir : list (str * str)) (records : list MarkdownFile) :
  Forall2 (fun f r => load_text yaml_safe_load f.2 = Ok r) dir records ->
  loadable yaml_safe_load dir = records.
Proof.
  unfold loadable. induction 1 as [|f r dir records Hf _ IH]; [reflexivity|].
  cbn [omap list_omap]. by rewrite Hf, IH.
Qed.

End EnhanceFacts.

(** C5, as the code has it.  The loader keeps exactly the loadable records
    whose score is a number at least the threshold, in the order of the
    files.  A record without a score counts as 0: it is kept when the
    threshold is at most 0 and left out otherwise.  Of four records with
    the scores 5, 4, 3 and 1 the threshold 3 keeps the first three. *)
Theorem enhance_loads_scores_at_least_threshold
    (yaml_safe_load : str -> result (Dict.t str value)) (t : Z) :
  (forall assess_dir,
     _load_videos_from_assess yaml_safe_load t assess_dir =
     List.filter (score_at_least t) (loadable yaml_safe_load assess_dir)) /\
  (forall name text md,
     load_text yaml_safe_load text = Ok md ->
     Dict.get (lit "happiness_score") (frontmatter md) = None ->
     _load_videos_from_assess yaml_safe_load t [(name, text)] =
     if t <=? 0 then [md] else []) /\
  (forall assess_dir records,
     Forall2 (fun f r => load_text yaml_safe_load f.2 = Ok r)
             assess_dir records ->
     List.map (fun r => Dict.get (lit "happiness_score") (frontmatter r)) records
       = [Some (VInt 5); Some (VInt 4); Some (VInt 3); Some (VInt 1)] ->
     _load_videos_from_assess yaml_safe_load 3 assess_dir = take 3 records).
Proof.
  split; [apply load_videos_from_assess_filter|]. split.
  - intros name text md Hload Hnone.
    rewrite load_videos_from_assess_filter. unfold loadable.
    cbn [omap list_omap snd]. rewrite Hload. cbn [List.filter].
    unfold score_at_least. rewrite Hnone. by destruct (t <=? 0).
  - intros dir records Hload Hscores.
    rewrite load_videos_from_assess_filter, (loadable_Forall2 _ _ _ Hload).
    destruct records as [|r1 [|r2 [|r3 [|r4 [|r5 rs]]]]]; try discriminate.
    simpl in Hscores. injection Hscores as H1 H2 H3 H4.
    cbn [List.filter take]. unfold score_at_least.
    rewrite H1, H2, H3, H4. reflexivity.
Qed.

(** The four files of the test load as the three records with the ids
    [happy1], [happy2] and [neutral]. *)
Lemma enhance_loads_scores_at_least_threshold_witness :
  List.map video_id_of (_load_videos_from_assess scalars_load 3 scored_dir)
  = [VStr (lit "happy1"); VStr (lit "happy2"); VStr (lit "neutral")].
Proof.
  destruct (enhance_loads_scores_at_least_threshold scalars_load 3)
    as (_ & _ & H).
  rewrite (H scored_dir
             [scored_record "happy1" 5; scored_record "happy2" 4;
              scored_record "neutral" 3; scored_record "sad" 1]).
  - reflexivity.
  - repeat constructor.
  - reflexivity.
Defined.

(** With the threshold 0 a record without a score is loaded. *)
Lemma enhance_loads_unscored_at_threshold_0 :
  _load_videos_from_assess scalars_load 0 [unscored_file] <> [].
Proof. vm_compute. discriminate. Qed.

(** The first blank line of a title line, a blank line and a description is
    the one after the title, when the title line holds no newline. *)
Lemma split_first_blank_line (t d : str) :
  nl ∉ t -> split_first [nl; nl] (t ++ [nl; nl] ++ d) = Some (t, d).
Proof.
  induction t as [|c t IH]; intros Hnl; [reflexivity|].
  apply not_elem_of_cons in Hnl as [Hc Hnl].
  change (split_first [nl; nl] ((c :: t) ++ [nl; nl] ++ d)) with
    (if startswith [nl; nl] (c :: t ++ [nl; nl] ++ d)
     then Some ([], drop 2 (c :: t ++ [nl; nl] ++ d))
     else match split_first [nl; nl] (t ++ [nl; nl] ++ d) with
          | Some (a, b) => Some (c :: a, b)
          | None => None
          end).
  assert (Hs : startswith [nl; nl] (c :: t ++ [nl; nl] ++ d) = false).
  { cbn [startswith]. destruct (N.eqb_spec nl c); [congruence | reflexivity]. }
  by rewrite Hs, (IH Hnl).
Qed.

Lemma description_of_blank_line (t d : str) :
  nl ∉ t -> description_of (t ++ [nl; nl] ++ d) = d.
Proof.
  intros Hnl. unfold description_of, contains.
  change (split_max [nl; nl] 1 ?s) with
    (match split_first [nl; nl] s with
     | None => [s]
     | Some (a, b) => [a; b]
     end).
  by rewrite (split_first_blank_line _ _ Hnl).
Qed.

Lemma not_elem_of_hash (t : str) : nl ∉ t -> nl ∉ lit "# " ++ t.
Proof.
  intros H Hin. apply elem_of_app in Hin as [Hin | Hin]; [|by apply H].
  apply list_elem_of_In in Hin. cbn in Hin.
  destruct Hin as [Hin | [Hin | []]]; discriminate Hin.
Qed.

(** A text that starts with a separator is the separator and the rest. *)
Lemma startswith_true (sep s : str) :
  startswith sep s = true -> s = sep ++ drop (length sep) s.
Proof.
  revert s. induction sep as [|a sep IH]; intros s H; [reflexivity|].
  destruct s as [|c s]; [discriminate H|]. cbn [startswith] in H.
  destruct (N.eqb_spec a c) as [-> | _]; [|discriminate H].
  cbn [length drop app]. f_equal. by apply IH.
Qed.

(** What [split_first] returns are the texts around an occurrence of the
    separator. *)
Lemma split_first_Some (sep s a b : str) :
  split_first sep s = Some (a, b) -> s = a ++ sep ++ b.
Proof.
  revert a. induction s as [|c s IH]; intros a.
  - cbn [split_first]. destruct (startswith sep []) eqn:E; [|discriminate].
    intros [= <- <-]. by apply startswith_true.
  - cbn [split_first]. destruct (startswith sep (c :: s)) eqn:E.
    + intros [= <- <-]. by apply startswith_true.
    + destruct (split_first sep s) as [[a' b']|]; [|discriminate].
      intros [= <- <-]. cbn [app]. f_equal. by apply IH.
Qed.

(** A body without a blank line has no description. *)
Lemma description_of_no_blank_line (s : str) :
  (forall a b, s <> a ++ [nl; nl] ++ b) -> description_of s = [].
Proof.
  intros H. unfold description_of, contains.
  destruct (split_first [nl; nl] s) as [[a b]|] eqn:E; [|reflexivity].
  apply split_first_Some in E. by apply H in E.
Qed.

(** The split is at the first blank line: the one before which no blank
    line begins. *)
Lemma split_first_first_blank_line (t d : str) :
  (forall a b, t ++ [nl] <> a ++ [nl; nl] ++ b) ->
  split_first [nl; nl] (t ++ [nl; nl] ++ d) = Some (t, d).
Proof.
  induction t as [|c t IH]; intros Hfirst; [reflexivity|].
  change (split_first [nl; nl] ((c :: t) ++ [nl; nl] ++ d)) with
    (if startswith [nl; nl] (c :: t ++ [nl; nl] ++ d)
     then Some ([], drop 2 (c :: t ++ [nl; nl] ++ d))
     else match split_first [nl; nl] (t ++ [nl; nl] ++ d) with
          | Some (a, b) => Some (c :: a, b)
          | None => None
          end).
  assert (Hs : startswith [nl; nl] (c :: t ++ [nl; nl] ++ d) = false).
  { cbn [startswith]. destruct (N.eqb_spec nl c) as [<- | _]; [|reflexivity].
    destruct t as [|c' t].
    - exfalso. by apply (Hfirst [] []).
    - cbn [app]. destruct (N.eqb_spec nl c') as [<- | _]; [|reflexivity].
      exfalso. by apply (Hfirst [] (t ++ [nl])). }
  rewrite Hs, IH; [reflexivity|].
  intros a b Hab. apply (Hfirst (c :: a) b). cbn [app]. by rewrite Hab.
Qed.

Lemma description_of_first_blank_line (t d : str) :
  (forall a b, t ++ [nl] <> a ++ [nl; nl] ++ b) ->
  description_of (t ++ [nl; nl] ++ d) = d.
Proof.
  intros Hfirst. unfold description_of, contains.
  change (split_max [nl; nl] 1 ?s) with
    (match split_first [nl; nl] s with
     | None => [s]
     | Some (a, b) => [a; b]
     end).
  by rewrite (split_first_first_blank_line _ _ Hfirst).
Qed.

Section EnhanceRunFacts.

Variable repr : value -> str.
Variable yaml_safe_load : str -> result (Dict.t str value).
Variable happiness_threshold : Z.
Variable utcnow : nat -> str.
Variable save_raises : nat -> bool.

Local Abbreviation try_ c := (enhance_try repr c utcnow save_raises).
Local Abbreviation loop c := (enhance_loop repr c utcnow save_raises).
Local Abbreviation run c :=
  (enhance_run repr yaml_safe_load happiness_threshold c utcnow save_raises).

(** The [try] body raises only when the client cannot be made or [save]
    raises: a call that raises is not among the causes. *)
Lemma enhance_try_raises c i video :
  (exists e, try_ c i video = Raise e) <->
  (c i = ClientRaises \/ save_raises i = true).
Proof.
  unfold enhance_try, _enhance_description_simple.
  destruct (c i) as [| |[text|]]; cbn [mbind result_bind];
    destruct (save_raises i); split;
    try (intros [e He]; discriminate He);
    try (intros [He | He]; discriminate He);
    eauto.
Qed.

(** When the call raises and [save] returns, the file written is the
    record with its description as it was. *)
Lemma enhance_try_fallback c i video :
  c i = CallRaises -> save_raises i = false ->
  try_ c i video = Ok (fallback repr utcnow i video).
Proof.
  intros Hc Hs.
  unfold enhance_try, _enhance_description_simple, fallback, video_id_of.
  rewrite Hc, Hs. reflexivity.
Qed.

Lemma enhance_loop_spec c videos : forall i st,
  written (loop c i videos st) =
    written st ++
    omap (fun iv => match try_ c iv.1 iv.2 with
                    | Ok e => Some e
                    | Raise _ => None
                    end)
         (imap (fun j v => ((i + j)%nat, v)) videos) /\
  count (loop c i videos st) =
    (count st + (length (written (loop c i videos st))
                 - length (written st)))%nat /\
  (count (loop c i videos st) + errors (loop c i videos st)
   = count st + errors st + length videos)%nat.
Proof.
  induction videos as [|v videos IH]; intros i st.
  - simpl. rewrite app_nil_r. repeat split; lia.
  - cbn [enhance_loop]. rewrite imap_cons. cbn [omap list_omap fst snd].
    rewrite Nat.add_0_r.
    assert (Hext : imap ((fun j v => ((i + j)%nat, v)) ∘ S) videos
                   = imap (fun j (v : MarkdownFile) => ((S i + j)%nat, v)) videos).
    { apply imap_ext. intros j x _. simpl. f_equal. lia. }
    rewrite Hext.
    destruct (try_ c i v) as [[name w]|e].
    + destruct (IH (S i) (saved name w st)) as (Hw & Hc & Hce).
      simpl in Hw, Hc, Hce. rewrite <- app_assoc in Hw. simpl in Hw.
      pose proof (f_equal length Hw) as Hlen.
      rewrite !length_app in *. simpl in *. repeat split.
      * exact Hw.
      * lia.
      * lia.
    + destruct (IH (S i) (failed st)) as (Hw & Hc & Hce).
      simpl in Hw, Hc, Hce. repeat split.
      * exact Hw.
      * exact Hc.
      * simpl. lia.
Qed.

(** The counters depend on the collaborator only through the videos at
    which the client cannot be made. *)
Lemma enhance_loop_counts c c' videos : forall i st st',
  (forall j, c j = ClientRaises <-> c' j = ClientRaises) ->
  count st = count st' -> errors st = errors st' ->
  count (loop c i videos st) = count (loop c' i videos st') /\
  errors (loop c i videos st) = errors (loop c' i videos st').
Proof.
  induction videos as [|v videos IH]; intros i st st' Hcc Hcount Herr.
  - split; assumption.
  - cbn [enhance_loop].
    pose proof (enhance_try_raises c i v) as Hr.
    pose proof (enhance_try_raises c' i v) as Hr'.
    rewrite (Hcc i) in Hr.
    destruct (try_ c i v) as [[n w]|e], (try_ c' i v) as [[n' w']|e'].
    + apply IH; simpl; auto.
    + exfalso. destruct (proj2 Hr (proj1 Hr' (ex_intro _ e' eq_refl))) as [e He].
      discriminate He.
    + exfalso. destruct (proj2 Hr' (proj1 Hr (ex_intro _ e eq_refl))) as [e' He'].
      discriminate He'.
    + apply IH; simpl; auto.
Qed.

(** The [try] body returns, under the name of the record, when the client
    can be made and [save] returns. *)
Lemma enhance_try_returns c i video :
  c i <> ClientRaises -> save_raises i = false ->
  exists w, try_ c i video = Ok (video_filename repr (video_id_of video), w).
Proof.
  intros Hc Hs. unfold enhance_try, video_id_of. rewrite Hs.
  destruct (c i) as [| |[t|]]; [congruence|..];
    cbn [_enhance_description_simple mbind result_bind]; by eexists.
Qed.

(** C6.  Whatever the collaborator does, the run is not fatal, every
    retained record is either written and counted as processed or counted
    as an error, and a record is written whenever its own client can be
    made and its own [save] returns, whatever happened for the records
    before it.  A record whose call raises, and whose [save] returns, is
    written under its id, marked as enhanced, with every other header key
    as it was and with its description as it was: the text [d] after the
    first blank line of its body [t ++ "\n\n" ++ d] (no blank line begins
    in [t]), or the empty text for a body without a blank line, is both
    the [enhanced_description] of the header and the text after the title
    line of the new body.  The two counters are the
    same as for any other collaborator, as long as the client can be made
    for the same records. *)
Theorem enhance_falls_back_on_call_failure
    (collaborator : nat -> call_outcome) (assess_dir : list (str * str)) :
  fatal (run collaborator assess_dir) = false /\
  (processed (run collaborator assess_dir)
   + error_count (run collaborator assess_dir)
   = length (_load_videos_from_assess yaml_safe_load happiness_threshold
                                      assess_dir))%nat /\
  processed (run collaborator assess_dir)
  = length (output (run collaborator assess_dir)) /\
  (forall j video,
     _load_videos_from_assess yaml_safe_load happiness_threshold assess_dir
       !! j = Some video ->
     collaborator j <> ClientRaises -> save_raises j = false ->
     exists w, (video_filename repr (video_id_of video), w)
                 ∈ output (run collaborator assess_dir)) /\
  (forall i video,
     _load_videos_from_assess yaml_safe_load happiness_threshold assess_dir
       !! i = Some video ->
     collaborator i = CallRaises -> save_raises i = false ->
     exists w description,
       (video_filename repr (video_id_of video), w)
         ∈ output (run collaborator assess_dir) /\
       (forall t d,
          content video = t ++ [nl; nl] ++ d ->
          (forall a b, t ++ [nl] <> a ++ [nl; nl] ++ b) ->
          description = d) /\
       ((forall a b, content video <> a ++ [nl; nl] ++ b) ->
        description = []) /\
       Dict.get (lit "enhanced_description") (frontmatter w)
         = Some (VStr description) /\
       content w =
         lit "# "
         ++ format repr (Dict.get_default (lit "title") (VStr [])
                                          (frontmatter video))
         ++ [nl; nl] ++ description /\
       Dict.get (lit "stage") (frontmatter w) = Some (VStr (lit "enhanced")) /\
       (forall k,
          k ∉ [lit "stage"; lit "enhanced_at"; lit "enhanced_description"] ->
          Dict.get k (frontmatter w) = Dict.get k (frontmatter video))) /\
  (forall collaborator',
     (forall j, collaborator j = ClientRaises <->
                collaborator' j = ClientRaises) ->
     processed (run collaborator' assess_dir)
       = processed (run collaborator assess_dir) /\
     error_count (run collaborator' assess_dir)
       = error_count (run collaborator assess_dir)).
Proof.
  unfold enhance_run.
  destruct (_load_videos_from_assess yaml_safe_load happiness_threshold assess_dir)
    as [|v vs] eqn:Evideos.
  - cbn [fatal processed error_count output length].
    split; [reflexivity|]. split; [reflexivity|]. split; [reflexivity|].
    split; [intros i video Hlook; by rewrite lookup_nil in Hlook|].
    split; [intros i video Hlook; by rewrite lookup_nil in Hlook|].
    intros c' _. split; reflexivity.
  - cbn [fatal processed error_count output].
    destruct (enhance_loop_spec collaborator (v :: vs) 0 loop_start)
      as (Hw & Hc & Hce).
    cbn [count errors written loop_start length app] in Hw, Hc, Hce.
    rewrite Nat.sub_0_r in Hc.
    assert (Hin : forall i video e,
              (v :: vs) !! i = Some video ->
              try_ collaborator i video = Ok e ->
              e ∈ written (loop collaborator 0 (v :: vs) loop_start)).
    { intros i video e Hlook He. rewrite Hw. apply list_elem_of_omap.
      exists (i, video). split.
      - apply list_elem_of_lookup. exists i.
        rewrite list_lookup_imap, Hlook. reflexivity.
      - cbn [fst snd]. by rewrite He. }
    split; [reflexivity|]. split; [exact Hce|]. split; [exact Hc|].
    split; [|split].
    + intros j video Hlook Hclient Hsave.
      destruct (enhance_try_returns collaborator j video Hclient Hsave)
        as [w Hw'].
      exists w. by apply (Hin j video).
    + intros i video Hlook Hcall Hsave.
      exists (fallback repr utcnow i video).2,
             (description_of (content video)).
      split; [|split; [|split; [|split; [|split; [|split]]]]].
      * apply (Hin i video); [exact Hlook|].
        by rewrite (enhance_try_fallback _ _ _ Hcall Hsave).
      * intros t d -> Hfirst. by apply description_of_first_blank_line.
      * apply description_of_no_blank_line.
      * unfold fallback. cbn [snd frontmatter].
        rewrite DictFacts.get_update; [reflexivity|].
        apply (bool_decide_unpack _). vm_compute. exact I.
      * reflexivity.
      * unfold fallback. cbn [snd frontmatter].
        rewrite DictFacts.get_update; [reflexivity|].
        apply (bool_decide_unpack _). vm_compute. exact I.
      * intros k Hk. unfold fallback. cbn [snd frontmatter].
        rewrite DictFacts.get_update;
          [|apply (bool_decide_unpack _); vm_compute; exact I].
        rewrite (DictFacts.get_None_keys k
                   (enhance_updates utcnow i (description_of (content video))));
          [reflexivity | exact Hk].
    + intros c' Hcc.
      destruct (enhance_loop_counts collaborator c' (v :: vs) 0 loop_start loop_start
                  Hcc eq_refl eq_refl) as [H1 H2].
      split; [symmetry; exact H1 | symmetry; exact H2].
Qed.

End EnhanceRunFacts.

(** ** The pipeline *)

(** The case of one outcome of the stages. *)
Local Ltac gate :=
  repeat split; try discriminate; intros;
  repeat match goal with
         | H : _ /\ _ |- _ => destruct H
         | H : exists _, _ |- _ => destruct H
         end;
  try discriminate; eauto;
  repeat match goal with
         | H : _ ∈ _ |- _ => inversion H; clear H; subst
         end;
  auto; try discriminate; repeat constructor.

(** C8, as the code has it.  When the fetch stage reports no new video, no
    other stage is invoked; when the assess stage reports no assessed
    video, neither the enhance nor the report stage is invoked; the enhance
    stage is invoked only after fetch and assess each reported at least one
    video.  The report stage is invoked whenever the enhance stage returns,
    whatever the number it reports. *)
Theorem run_all_gating (world : Type)
    (run_stage : stage_id -> world -> result nat * world)
    (config_raises : world -> bool) (w : world) :
  ((run_stage Fetch w).1 = Ok O ->
   forall s, s ∈ invoked _ (run_all world run_stage config_raises w) ->
             s = Fetch) /\
  ((run_stage Assess (run_stage Fetch w).2).1 = Ok O ->
   forall s, s ∈ invoked _ (run_all world run_stage config_raises w) ->
             s = Fetch \/ s = Assess) /\
  (Enhance ∈ invoked _ (run_all world run_stage config_raises w) ->
   exists n m, (run_stage Fetch w).1 = Ok (S n) /\
               (run_stage Assess (run_stage Fetch w).2).1 = Ok (S m)) /\
  (Report ∈ invoked _ (run_all world run_stage config_raises w) <->
   Enhance ∈ invoked _ (run_all world run_stage config_raises w) /\
   exists n, (run_stage Enhance
                (run_stage Assess (run_stage Fetch w).2).2).1 = Ok n).
Proof.
  unfold run_all.
  destruct (config_raises w); [cbn [invoked]; gate|].
  destruct (run_stage Fetch w) as [[[|n]|e] w1];
    cbn [fst snd Nat.eqb invoked]; [gate| |gate].
  destruct (run_stage Assess w1) as [[[|m]|e] w2];
    cbn [fst snd Nat.eqb invoked]; [gate| |gate].
  destruct (run_stage Enhance w2) as [[k|e] w3];
    cbn [fst snd invoked]; [|gate].
  destruct (run_stage Report w3) as [[j|e] w4]; cbn [invoked]; gate.
Qed.

(** A run whose fetch stage reports no new video invokes that stage
    alone. *)
Lemma run_all_gating_witness :
  Forall (fun s => s = Fetch)
    (invoked _ (run_all unit (fun s w => (Ok O, w)) (fun _ => false) tt)).
Proof.
  apply Forall_forall.
  apply (run_all_gating unit (fun s w => (Ok O, w)) (fun _ => false) tt).
  reflexivity.
Defined.

(** The report stage runs after an enhance stage that produced nothing. *)
Lemma run_all_reports_after_empty_enhance :
  let run_stage := fun (s : stage_id) (w : unit) =>
    (Ok (match s with Enhance => O | _ => 2%nat end), w) in
  (run_stage Enhance tt).1 = Ok O /\
  Report ∈ invoked _ (run_all unit run_stage (fun _ => false) tt).
Proof. split; [reflexivity|]. vm_compute. set_solver. Qed.

(** ** The analytics export *)

Lemma scan_dates_cons (c e : date) :
  c <= e -> date_overflows (c + 1) = false ->
  scan_dates c e =
  match scan_dates (c + 1) e with
  | Ok dates => Ok (c :: dates)
  | Raise x => Raise x
  end.
Proof.
  intros H Ho. simp scan_dates.
  destruct (decide (c <= e)); [|contradiction].
  simpl. rewrite Ho. simp scan_dates. reflexivity.
Qed.

Lemma scan_dates_overflow (c e : date) :
  c <= e -> date_overflows (c + 1) = true ->
  scan_dates c e = Raise OverflowError.
Proof.
  intros H Ho. simp scan_dates.
  destruct (decide (c <= e)); [|contradiction].
  simpl. by rewrite Ho.
Qed.

Lemma scan_dates_nil (c e : date) : e < c -> scan_dates c e = Ok [].
Proof.
  intros H. simp scan_dates.
  destruct (decide (c <= e)); [lia | reflexivity].
Qed.

Lemma date_overflows_false (d : Z) :
  date_overflows d = false <-> date_min <= d <= date_max.
Proof.
  unfold date_overflows. rewrite orb_false_iff, !Z.ltb_ge. lia.
Qed.

Lemma date_overflows_true (d : Z) :
  date_overflows d = true <-> d < date_min \/ date_max < d.
Proof.
  unfold date_overflows. rewrite orb_true_iff, !Z.ltb_lt. lia.
Qed.

(** Within the range of dates the loop visits the dates from its start to
    its end, one day apart. *)
Lemma scan_dates_seq (n : nat) :
  forall c e : date,
    e - c + 1 = Z.of_nat n ->
    date_min <= c + 1 -> e + 1 <= date_max ->
    scan_dates c e = Ok (List.map (fun k => c + Z.of_nat k) (List.seq 0 n)).
Proof.
  induction n as [|n IH]; intros c e H Hmin Hmax.
  - apply scan_dates_nil. lia.
  - rewrite scan_dates_cons;
      [|lia | apply date_overflows_false; lia].
    rewrite (IH (c + 1) e) by lia.
    cbn [List.seq List.map]. do 2 f_equal; [lia|].
    rewrite <- List.seq_shift, List.map_map.
    apply List.map_ext. intros k. lia.
Qed.

(** A loop that reaches [date.max] raises when it steps past it. *)
Lemma scan_dates_past_max (n : nat) :
  forall c e : date,
    e - c = Z.of_nat n -> date_max <= e ->
    scan_dates c e = Raise OverflowError.
Proof.
  induction n as [|n IH]; intros c e H Hmax.
  - apply scan_dates_overflow; [lia|]. apply date_overflows_true. lia.
  - destruct (date_overflows (c + 1)) eqn:Ho.
    + apply scan_dates_overflow; [lia | exact Ho].
    + rewrite scan_dates_cons by (try exact Ho; lia).
      by rewrite (IH (c + 1) e) by lia.
Qed.

Lemma timedelta_overflows_range (today days : Z) :
  date_min <= today <= date_max ->
  date_overflows (today - days) = false ->
  timedelta_overflows days = false.
Proof.
  intros Ht Hs. apply date_overflows_false in Hs.
  unfold timedelta_overflows, date_min, date_max in *.
  apply Z.ltb_ge. lia.
Qed.

Lemma concat_not_nil {A : Type} (l : list (list A)) :
  List.concat l <> [] <-> exists x, x ∈ l /\ x <> [].
Proof.
  induction l as [|x l IH]; cbn [List.concat].
  - split; [done | intros (x & Hin & _); by apply elem_of_nil in Hin].
  - split.
    + intros H. destruct x as [|a x].
      * destruct (proj1 IH H) as (y & Hin & Hy).
        exists y. split; [by apply list_elem_of_further | exact Hy].
      * exists (a :: x). split; [apply list_elem_of_here | discriminate].
    + intros (y & Hin & Hy) H. apply app_eq_nil in H as [Hx Hl].
      apply elem_of_cons in Hin as [-> | Hin]; [contradiction|].
      apply (proj2 IH); [by exists y | exact Hl].
Qed.

Section ReportFacts.

Variable today : date.
Variable stage_videos : stage_name -> date -> list (Dict.t str value).
Variable enhanced_videos : date -> list MarkdownFile.
Variable render_raises : bool.
Variable to_parquet_raises : stage_name -> bool.
Variable has_templates : bool.

Local Abbreviation command :=
  (report_command today stage_videos enhanced_videos render_raises
     to_parquet_raises has_templates).
Local Abbreviation export_ :=
  (_export_parquet today stage_videos to_parquet_raises).
Local Abbreviation frame := (df_from_stage_dir today stage_videos).

(** The dates scanned, for a clock within the range of dates. *)
Lemma scanned_dates_spec (days_back : Z) :
  date_min <= today <= date_max ->
  scanned_dates today days_back =
    if date_overflows (today - (days_back - 1)) then Raise OverflowError
    else if (0 <? days_back) && (today =? date_max) then Raise OverflowError
    else Ok (List.map (fun k => today - (days_back - 1) + Z.of_nat k)
                      (List.seq 0 (Z.to_nat days_back))).
Proof.
  intros Htoday. unfold scanned_dates. cbv zeta.
  destruct (date_overflows (today - (days_back - 1))) eqn:Ho.
  - by destruct (timedelta_overflows (days_back - 1)).
  - rewrite (timedelta_overflows_range today _ Htoday Ho).
    apply date_overflows_false in Ho.
    destruct (Z.ltb_spec 0 days_back) as [Hpos | Hneg]; cbn [andb].
    + destruct (Z.eqb_spec today date_max) as [Hmax | Hmax].
      * apply (scan_dates_past_max (Z.to_nat (days_back - 1))); lia.
      * apply scan_dates_seq; lia.
    + rewrite scan_dates_nil by lia.
      by replace (Z.to_nat days_back) with O by lia.
Qed.

Lemma scanned_dates_7 :
  date_min + 6 <= today < date_max ->
  scanned_dates today 7 =
  Ok (List.map (fun k => today - 6 + k) [0; 1; 2; 3; 4; 5; 6]).
Proof.
  intros Htoday. rewrite scanned_dates_spec by (unfold date_min in *; lia).
  replace (date_overflows (today - (7 - 1))) with false
    by (symmetry; apply date_overflows_false; lia).
  destruct (Z.eqb_spec today date_max); [lia|].
  cbn [andb]. change (Z.to_nat 7) with 7%nat.
  reflexivity.
Qed.

(** A file is written for a stage exactly when its data frame is made,
    has a record, and writing it does not raise. *)
Lemma export_parquet_stage (target_date : date) (days_back : Z)
    (name : stage_name) :
  name ∈ List.map export_stage (export_ target_date days_back) <->
  exists df, frame name days_back = Ok df /\ df <> [] /\
             to_parquet_raises name = false.
Proof.
  clear enhanced_videos render_raises has_templates.
  unfold _export_parquet. cbn [List.map List.concat].
  rewrite app_nil_r, !map_app, !elem_of_app.
  assert (H : forall n,
            name ∈ List.map export_stage
              match frame n days_back with
              | Ok [] => []
              | Ok ((_ :: _) as df) =>
                  if to_parquet_raises n then []
                  else [ {| export_stage := n; export_date := target_date;
                            export_days := days_back;
                            export_window :=
                              match scanned_dates today days_back with
                              | Ok dates => dates
                              | Raise _ => []
                              end;
                            export_rows := df |} ]
              | Raise _ => []
              end <->
            name = n /\
            exists df, frame n days_back = Ok df /\ df <> [] /\
                       to_parquet_raises n = false).
  { intros n. destruct (frame n days_back) as [[|r df]|e].
    - split; [intros Hin; by apply elem_of_nil in Hin|].
      intros (_ & df & [= <-] & Hne & _). congruence.
    - destruct (to_parquet_raises n).
      + split; [intros Hin; by apply elem_of_nil in Hin|].
        intros (_ & df' & _ & _ & Hr). discriminate Hr.
      + cbn [List.map export_stage]. rewrite list_elem_of_singleton.
        split; [intros ->; split; [reflexivity|]; by exists (r :: df) | tauto].
    - split; [intros Hin; by apply elem_of_nil in Hin|].
      intros (_ & df & Hdf & _). discriminate Hdf. }
  rewrite !H. split.
  - intros [(-> & Hx) | [(-> & Hx) | (-> & Hx)]]; exact Hx.
  - intros Hx. destruct name; tauto.
Qed.

Lemma export_parquet_spec (target_date : date) (days_back : Z) (e : export) :
  e ∈ export_ target_date days_back ->
  exists dates,
    scanned_dates today days_back = Ok dates /\
    export_date e = target_date /\ export_days e = days_back /\
    export_window e = dates /\
    export_rows e =
      List.concat (List.map (stage_videos (export_stage e)) dates) /\
    export_rows e <> [] /\ to_parquet_raises (export_stage e) = false.
Proof.
  unfold _export_parquet, df_from_stage_dir. cbn [List.map List.concat].
  rewrite app_nil_r, !elem_of_app.
  destruct (scanned_dates today days_back) as [dates|x];
    cbn [mbind result_bind].
  2:{ intros [H | [H | H]]; by apply elem_of_nil in H. }
  intros H. exists dates. split; [reflexivity|].
  repeat match goal with
         | H : _ \/ _ |- _ => destruct H as [H|H]
         end;
    match type of H with
    | _ ∈ match ?d with _ => _ end =>
        destruct d eqn:Ed; [by apply elem_of_nil in H|];
        match type of H with
        | _ ∈ (if ?b then _ else _) =>
            destruct b eqn:Eb; [by apply elem_of_nil in H|]
        end
    end;
    apply list_elem_of_singleton in H; subst e;
    cbn [export_date export_days export_window export_rows export_stage];
    rewrite Ed; repeat split; auto; discriminate.
Qed.

(** C10.  With today's clock (a date with six days before it and one
    after it), every parquet file the [report] command writes is named
    after the target date and seven days and holds the records of the
    seven consecutive dates that end today, whatever the target date and
    the [--days-back] option are; a target date before that week, or after
    today, is not among the dates its file covers.  The file of a stage is
    written exactly when the report has enhanced videos to report, the
    stage has a record at one of these seven dates, and writing the file
    does not raise.  The option does not change the result of the
    command. *)
Theorem report_export_last_7_days_from_today (target_date : date)
    (days_back : Z) :
  date_min + 6 <= today < date_max ->
  (forall e, e ∈ exports (command target_date days_back) ->
     export_date e = target_date /\ export_days e = 7 /\
     export_window e =
       List.map (fun k => today - 6 + k) [0; 1; 2; 3; 4; 5; 6] /\
     export_rows e =
       List.concat (List.map (stage_videos (export_stage e))
                      (export_window e)) /\
     (target_date < today - 6 \/ today < target_date ->
      target_date ∉ export_window e)) /\
  (forall name,
     name ∈ List.map export_stage
              (exports (command target_date days_back)) <->
     enhanced_videos target_date <> [] /\
     (exists scores, scores_of (enhanced_videos target_date) = Ok scores) /\
     (exists d, d ∈ List.map (fun k => today - 6 + k) [0; 1; 2; 3; 4; 5; 6] /\
                stage_videos name d <> []) /\
     to_parquet_raises name = false) /\
  (forall days_back', command target_date days_back' =
                      command target_date days_back).
Proof.
  intros Htoday. split; [|split; [|reflexivity]].
  - intros e He. unfold report_command, report_run in He.
    destruct (enhanced_videos target_date) as [|v vs];
      [by apply elem_of_nil in He|].
    destruct (scores_of (v :: vs)); [|by apply elem_of_nil in He].
    cbn [exports] in He. apply export_parquet_spec in He.
    destruct He as (dates & Hs & Hd & Hn & Hw & Hr & _ & _).
    rewrite (scanned_dates_7 Htoday) in Hs. injection Hs as <-.
    repeat split; auto.
    + by rewrite Hr, Hw.
    + intros Hout Hin. rewrite Hw in Hin.
      apply list_elem_of_In in Hin. cbn [List.map List.In] in Hin. lia.
  - intros name. unfold report_command, report_run.
    destruct (enhanced_videos target_date) as [|v vs].
    { cbn [exports List.map]. split; [intros H; by apply elem_of_nil in H|].
      intros [H _]. congruence. }
    destruct (scores_of (v :: vs)) as [scores|x].
    2:{ cbn [exports List.map]. split; [intros H; by apply elem_of_nil in H|].
        intros (_ & [scores Hs] & _). discriminate Hs. }
    cbn [exports]. rewrite export_parquet_stage.
    unfold df_from_stage_dir. rewrite (scanned_dates_7 Htoday).
    cbn [mbind result_bind]. split.
    + intros (df & Hdf & Hne & Hr).
      assert (E : List.concat
                    (List.map (stage_videos name)
                       (List.map (fun k => today - 6 + k)
                                 [0; 1; 2; 3; 4; 5; 6])) = df)
        by congruence.
      rewrite <- E in Hne. clear Hdf E.
      split; [discriminate|]. split; [by exists scores|]. split; [|exact Hr].
      apply concat_not_nil in Hne as (x & Hin & Hx).
      apply list_elem_of_In, List.in_map_iff in Hin as (d & <- & Hd).
      exists d. split; [by apply list_elem_of_In | exact Hx].
    + intros (_ & _ & (d & Hd & Hx) & Hr).
      eexists. split; [reflexivity|]. split; [|exact Hr].
      apply concat_not_nil. exists (stage_videos name d). split; [|exact Hx].
      apply list_elem_of_In, List.in_map. by apply list_elem_of_In.
Qed.

End ReportFacts.

(** On 2025-11-16, day 739571, a report for day 739000 with one enhanced
    video, while the fetch stage has a record of today: the file named
    after day 739000 is written and does not cover that day. *)
Lemma report_export_last_7_days_from_today_witness :
  exists e,
    e ∈ exports
          (report_command 739571
             (fun name d => if d =? 739571 then [[]] else [])
             (fun _ => [scored_record "a" 5]) false (fun _ => false) true
             739000 30) /\
    export_stage e = fetch /\ export_date e = 739000 /\
    739000 ∉ export_window e.
Proof.
  destruct (report_export_last_7_days_from_today 739571
              (fun name d => if d =? 739571 then [[]] else [])
              (fun _ => [scored_record "a" 5]) false (fun _ => false) true
              739000 30) as (Hall & Hiff & _);
    [unfold date_min, date_max; lia|].
  assert (Hin : fetch ∈ List.map export_stage
            (exports
               (report_command 739571
                  (fun name d => if d =? 739571 then [[]] else [])
                  (fun _ => [scored_record "a" 5]) false (fun _ => false)
                  true 739000 30))).
  { apply Hiff. split; [discriminate|]. split; [by eexists|].
    split; [|reflexivity].
    exists 739571. split; [|discriminate].
    apply list_elem_of_In. cbn. tauto. }
  apply list_elem_of_In, List.in_map_iff in Hin as (e & Hs & He).
  apply list_elem_of_In in He.
  exists e. split; [exact He|]. split; [exact Hs|].
  destruct (Hall e He) as (Hd & _ & _ & _ & Hout).
  split; [exact Hd | apply Hout; lia].
Defined.

(** ** More on the record store *)

Section RecordStoreFacts.

Variable yaml_dump : Dict.t str value -> str.
Variable yaml_safe_load : str -> result (Dict.t str value).

(** A file that opens a header and never closes it does not load: after
    the header is parsed, [parts[2]] raises [IndexError]. *)
Theorem load_text_unclosed_header (y : str) :
  contains sentinel y = false ->
  load_text yaml_safe_load (sentinel ++ y) =
    (fm ← yaml_safe_load y; Raise IndexError) /\
  forall md, load_text yaml_safe_load (sentinel ++ y) <> Ok md.
Proof.
  intros Hno.
  assert (H : load_text yaml_safe_load (sentinel ++ y) =
              (fm ← yaml_safe_load y; Raise IndexError)).
  { unfold load_text. rewrite startswith_app.
    change (split_max sentinel 2 ?t) with
      (match split_first sentinel t with
       | None => [t]
       | Some (a, b) =>
           a :: match split_first sentinel b with
                | None => [b]
                | Some (a', b') => [a'; b']
                end
       end).
    assert (H1 : split_first sentinel (sentinel ++ y) = Some ([], y)).
    { rewrite sentinel_chars. reflexivity. }
    rewrite H1. unfold contains in Hno.
    destruct (split_first sentinel y) as [[? ?]|]; [discriminate|].
    reflexivity. }
  split; [exact H|]. intros md. rewrite H.
  destruct (yaml_safe_load y); discriminate.
Qed.

End RecordStoreFacts.

Section RoundTripFacts.

Variable yaml_dump : Dict.t str value -> str.
Variable yaml_safe_load : str -> result (Dict.t str value).
Variable file_of : str -> str.
Variable open_raises : str -> bool.

Local Abbreviation load_ := (load yaml_safe_load file_of open_raises).
Local Abbreviation save_ := (save yaml_dump file_of open_raises).

Lemma encodable_to_string (md : MarkdownFile) :
  encodable (to_string yaml_dump md) =
  encodable (yaml_dump (frontmatter md)) && encodable (content md).
Proof.
  unfold to_string. rewrite !encodable_app.
  change (encodable sentinel) with true. change (encodable [nl]) with true.
  reflexivity.
Qed.

(** What a round trip gives back is a fixed point of the round trip: saved
    and loaded again, at any path that can be opened, it comes back as it
    is. *)
Theorem load_save_load_save (md md' : MarkdownFile) (p p' : str)
    (fs fs' : gmap str str) :
  open_raises p = false -> open_raises p' = false ->
  encodable (to_string yaml_dump md) = true ->
  yaml_safe_load (yaml_dump (frontmatter md)) = Ok (frontmatter md) ->
  contains sentinel (yaml_dump (frontmatter md)) = false ->
  cr ∉ yaml_dump (frontmatter md) ->
  load_ (save_ md p fs).2 p = Ok md' ->
  (save_ md' p' fs').1 = Ok tt /\
  load_ (save_ md' p' fs').2 p' = Ok md'.
Proof.
  intros Hopen Hopen' Henc Hyaml Hno Hcr.
  rewrite (load_save_text yaml_dump yaml_safe_load file_of open_raises
             md p fs Hopen Henc Hyaml Hno Hcr).
  intros Hmd'.
  assert (E : md' = {| frontmatter := frontmatter md;
                       content := strip (universal_newlines (content md)) |})
    by congruence.
  subst md'. clear Hmd'.
  assert (Henc' : encodable
            (to_string yaml_dump
               {| frontmatter := frontmatter md;
                  content := strip (universal_newlines (content md)) |})
            = true).
  { rewrite encodable_to_string in *. cbn [frontmatter content].
    apply andb_true_iff in Henc as [Hy Hc].
    rewrite Hy. by apply encodable_strip_universal_newlines. }
  split;
    [apply (load_save yaml_dump yaml_safe_load file_of open_raises
              _ p' fs' Hopen' Henc')|].
  rewrite (load_save_text yaml_dump yaml_safe_load file_of open_raises
             _ p' fs' Hopen' Henc' Hyaml Hno Hcr).
  cbn [frontmatter content].
  rewrite (universal_newlines_id (strip (universal_newlines (content md))))
    by apply cr_strip, cr_universal_newlines.
  by rewrite strip_strip.
Qed.

End RoundTripFacts.

Lemma load_save_load_save_witness :
  load scalars_load (fun p => p) (fun _ => false)
       (save scalars_dump (fun p => p) (fun _ => false)
             {| frontmatter := frontmatter newline_record;
                content := strip (universal_newlines
                                    (content newline_record)) |}
             (lit "b.md") ∅).2 (lit "b.md")
  = Ok {| frontmatter := frontmatter newline_record;
          content := strip (universal_newlines (content newline_record)) |}.
Proof.
  apply (load_save_load_save scalars_dump scalars_load (fun p => p)
           (fun _ => false) newline_record
           {| frontmatter := frontmatter newline_record;
              content := strip (universal_newlines
                                  (content newline_record)) |}
           (lit "a.md") (lit "b.md") ∅ ∅).
  - reflexivity.
  - reflexivity.
  - vm_compute. reflexivity.
  - vm_compute. reflexivity.
  - vm_compute. reflexivity.
  - apply (bool_decide_unpack _). vm_compute. exact I.
  - unfold load, save, files. cbn [fst snd].
    replace (encodable (to_string scalars_dump newline_record)) with true
      by (vm_compute; reflexivity).
    cbn [snd]. rewrite lookup_insert_eq. vm_compute. reflexivity.
Defined.

Lemma load_text_unclosed_header_witness :
  load_text scalars_load (sentinel ++ lit "title: a" ++ [nl]) =
    Raise IndexError.
Proof.
  apply (load_text_unclosed_header scalars_load (lit "title: a" ++ [nl])).
  reflexivity.
Defined.

(** ** More on header updates *)

Module DictLaws.
Section DictLaws.
Context {K V : Type} `{EqDecision K}.
Implicit Types (d u : Dict.t K V) (k : K) (v : V).

(** Setting a key the dictionary has changes no key. *)
Lemma keys_set_elem k v d :
  k ∈ Dict.keys d -> Dict.keys (Dict.set k v d) = Dict.keys d.
Proof.
  intros Hin. rewrite DictFacts.keys_set. by rewrite bool_decide_eq_true_2.
Qed.

Lemma keys_set_prefix k v d :
  Dict.keys d `prefix_of` Dict.keys (Dict.set k v d).
Proof.
  rewrite DictFacts.keys_set. case_bool_decide; [reflexivity|].
  by apply prefix_app_r.
Qed.

Lemma elem_of_keys_set k k' v d :
  k ∈ Dict.keys (Dict.set k' v d) <-> k = k' \/ k ∈ Dict.keys d.
Proof.
  rewrite DictFacts.keys_set. case_bool_decide as Hin.
  - split; [by right | intros [-> | H']; assumption].
  - rewrite elem_of_app, list_elem_of_singleton. tauto.
Qed.

Lemma keys_update_prefix u : forall d,
  Dict.keys d `prefix_of` Dict.keys (Dict.update d u).
Proof.
  unfold Dict.update.
  induction u as [|[k0 v0] u IH]; intros d; simpl; [reflexivity|].
  etrans; [apply (keys_set_prefix k0 v0) | apply IH].
Qed.

Lemma elem_of_keys_update k u : forall d,
  k ∈ Dict.keys (Dict.update d u) <-> k ∈ Dict.keys u \/ k ∈ Dict.keys d.
Proof.
  unfold Dict.update.
  induction u as [|[k0 v0] u IH]; intros d; simpl.
  - split; [by right | intros [H'|H']; [by apply elem_of_nil in H' | done]].
  - rewrite IH, elem_of_keys_set, elem_of_cons. tauto.
Qed.

(** Updating with keys the dictionary has changes no key. *)
Lemma keys_update_elem u : forall d,
  (forall k, k ∈ Dict.keys u -> k ∈ Dict.keys d) ->
  Dict.keys (Dict.update d u) = Dict.keys d.
Proof.
  unfold Dict.update.
  induction u as [|[k0 v0] u IH]; intros d Hsub; simpl; [reflexivity|].
  assert (Hk0 : k0 ∈ Dict.keys d) by (apply Hsub; simpl; left).
  rewrite IH.
  - by apply keys_set_elem.
  - intros k Hk. rewrite keys_set_elem by exact Hk0.
    apply Hsub. simpl. by right.
Qed.

(** Two dictionaries with the same keys, in the same order, and the same
    value at every key are the same. *)
Lemma ext d : forall d',
  NoDup (Dict.keys d) ->
  Dict.keys d = Dict.keys d' ->
  (forall k, Dict.get k d = Dict.get k d') ->
  d = d'.
Proof.
  induction d as [|[k0 v0] d IH]; intros [|[k1 v1] d'] Hnd Hk Hg;
    try discriminate; [reflexivity|].
  simpl in Hk. injection Hk as -> Hk.
  change (NoDup (k1 :: Dict.keys d)) in Hnd.
  apply NoDup_cons in Hnd as [Hnin Hnd].
  pose proof (Hg k1) as H1. simpl in H1.
  destruct (decide (k1 = k1)); [|congruence]. injection H1 as ->.
  f_equal. apply IH; [exact Hnd | exact Hk |].
  intros k. specialize (Hg k). simpl in Hg.
  destruct (decide (k = k1)) as [-> | Hne]; [|exact Hg].
  rewrite (DictFacts.get_None_keys _ _ Hnin).
  rewrite Hk in Hnin. by rewrite (DictFacts.get_None_keys _ _ Hnin).
Qed.

Lemma filter_ext_elem {A} (P1 P2 : A -> Prop)
    `{!forall x, Decision (P1 x)} `{!forall x, Decision (P2 x)} (l : list A) :
  (forall x, x ∈ l -> P1 x <-> P2 x) -> filter P1 l = filter P2 l.
Proof.
  induction l as [|x l IH]; intros Hall; [reflexivity|].
  rewrite !filter_cons.
  rewrite IH by (intros y Hy; apply Hall; by right).
  pose proof (Hall x ltac:(by left)) as Hx.
  destruct (decide (P1 x)), (decide (P2 x)); tauto.
Qed.

(** The keys after an update: the keys of the dictionary, then the new
    keys of the patch in the order of the patch. *)
Lemma keys_update u : forall d,
  NoDup (Dict.keys u) ->
  Dict.keys (Dict.update d u) =
    Dict.keys d ++ filter (fun k => k ∉ Dict.keys d) (Dict.keys u).
Proof.
  unfold Dict.update.
  induction u as [|[k0 v0] u IH]; intros d Hnd; simpl.
  - by rewrite app_nil_r.
  - apply NoDup_cons in Hnd as [Hnin Hnd]. rewrite (IH _ Hnd).
    rewrite DictFacts.keys_set. case_bool_decide as Hin.
    + by rewrite filter_cons_False by (intros Hn; by apply Hn).
    + rewrite filter_cons_True by exact Hin.
      rewrite <- app_assoc. cbn [app]. do 2 f_equal.
      apply filter_ext_elem. intros x Hx.
      rewrite not_elem_of_app, list_elem_of_singleton.
      split; [tauto|]. intros Hxd. split; [exact Hxd|].
      intros ->. simpl in Hnin. contradiction.
Qed.

End DictLaws.
End DictLaws.

(** Two updates in a row are one update with the merged patch, the first
    patch updated by the second: the same keys in the same order with the
    same values. *)
Theorem update_frontmatter_twice (md : MarkdownFile)
    (updates1 updates2 : Dict.t str value) :
  NoDup (Dict.keys (frontmatter md)) ->
  NoDup (Dict.keys updates1) ->
  NoDup (Dict.keys updates2) ->
  update_frontmatter (update_frontmatter md updates1) updates2 =
  update_frontmatter md (Dict.update updates1 updates2).
Proof.
  intros Hd H1 H2. unfold update_frontmatter. cbn [frontmatter content].
  assert (H12 : NoDup (Dict.keys (Dict.update updates1 updates2)))
    by (by apply DictFacts.NoDup_keys_update).
  f_equal. apply DictLaws.ext.
  - by do 2 apply DictFacts.NoDup_keys_update.
  - rewrite (DictLaws.keys_update updates2 _ H2),
      (DictLaws.keys_update updates1 _ H1),
      (DictLaws.keys_update _ _ H12),
      (DictLaws.keys_update updates2 _ H2).
    rewrite filter_app, <- app_assoc. do 2 f_equal.
    rewrite list_filter_filter. apply list_filter_iff. intros k.
    rewrite not_elem_of_app, list_elem_of_filter. tauto.
  - intros k.
    rewrite (DictFacts.get_update k updates2 _ H2),
      (DictFacts.get_update k updates1 _ H1),
      (DictFacts.get_update k _ _ H12),
      (DictFacts.get_update k updates2 _ H2).
    by destruct (Dict.get k updates2), (Dict.get k updates1).
Qed.

Lemma update_frontmatter_twice_witness :
  let updates1 := [(lit "stage", VStr (lit "assessed"));
                   (lit "happiness_score", VInt 5)] in
  let updates2 := [(lit "enhanced_description", VStr (lit "d"));
                   (lit "stage", VStr (lit "enhanced"))] in
  update_frontmatter (update_frontmatter test_record updates1) updates2 =
  update_frontmatter test_record
    [(lit "stage", VStr (lit "enhanced"));
     (lit "happiness_score", VInt 5);
     (lit "enhanced_description", VStr (lit "d"))].
Proof.
  apply (update_frontmatter_twice test_record
           [(lit "stage", VStr (lit "assessed"));
            (lit "happiness_score", VInt 5)]
           [(lit "enhanced_description", VStr (lit "d"));
            (lit "stage", VStr (lit "enhanced"))]);
    apply (bool_decide_unpack _); vm_compute; exact I.
Defined.

(** An update keeps the header a mapping, keeps the keys the header had in
    their places and adds the new keys of the patch after them. *)
Theorem update_frontmatter_keys (md : MarkdownFile)
    (updates : Dict.t str value) :
  NoDup (Dict.keys (frontmatter md)) ->
  NoDup (Dict.keys (frontmatter (update_frontmatter md updates))) /\
  Dict.keys (frontmatter md)
    `prefix_of` Dict.keys (frontmatter (update_frontmatter md updates)) /\
  forall k, k ∈ Dict.keys (frontmatter (update_frontmatter md updates)) <->
            k ∈ Dict.keys updates \/ k ∈ Dict.keys (frontmatter md).
Proof.
  intros Hnd. cbn [update_frontmatter frontmatter].
  split; [by apply DictFacts.NoDup_keys_update|].
  split; [apply DictLaws.keys_update_prefix|].
  intros k. apply DictLaws.elem_of_keys_update.
Qed.

(** The same update a second time changes nothing. *)
Theorem update_frontmatter_idempotent (md : MarkdownFile)
    (updates : Dict.t str value) :
  NoDup (Dict.keys (frontmatter md)) ->
  NoDup (Dict.keys updates) ->
  update_frontmatter (update_frontmatter md updates) updates =
  update_frontmatter md updates.
Proof.
  intros Hd Hu. unfold update_frontmatter. cbn [frontmatter content].
  f_equal. apply DictLaws.ext.
  - by do 2 apply DictFacts.NoDup_keys_update.
  - apply DictLaws.keys_update_elem.
    intros k Hk. apply DictLaws.elem_of_keys_update. by left.
  - intros k. rewrite !(DictFacts.get_update k updates _ Hu).
    by destruct (Dict.get k updates).
Qed.

Lemma update_frontmatter_keys_witness :
  Dict.keys (frontmatter test_record)
    `prefix_of`
  Dict.keys (frontmatter
               (update_frontmatter test_record
                  [(lit "stage", VStr (lit "assessed"));
                   (lit "happiness_score", VInt 5)])).
Proof.
  apply (update_frontmatter_keys test_record
           [(lit "stage", VStr (lit "assessed"));
            (lit "happiness_score", VInt 5)]).
  apply (bool_decide_unpack _). vm_compute. exact I.
Defined.

Lemma update_frontmatter_idempotent_witness :
  let updates := [(lit "stage", VStr (lit "assessed"));
                  (lit "happiness_score", VInt 5)] in
  update_frontmatter (update_frontmatter test_record updates) updates =
  update_frontmatter test_record updates.
Proof.
  apply (update_frontmatter_idempotent test_record);
    apply (bool_decide_unpack _); vm_compute; exact I.
Defined.

(** ** More on script detection *)

Module CounterOrder.
Import Counter.

Lemma elem_of_keys_incr k c : k ∈ keys (incr k c).
Proof.
  assert (H : get k (incr k c) <> O).
  { rewrite CounterFacts.get_incr. unfold eq_str.
    by rewrite bool_decide_eq_true_2. }
  apply CounterFacts.entry_of_get in H.
  apply (list_elem_of_fmap_2 fst) in H. exact H.
Qed.

Lemma elem_of_keys_get k c : k ∈ keys c -> (k, get k c) ∈ c.
Proof.
  induction c as [|[k' n'] c IH]; simpl; intros Hin.
  - by apply elem_of_nil in Hin.
  - unfold eq_str. case_bool_decide as Ekk.
    + subst. apply elem_of_cons. by left.
    + apply elem_of_cons in Hin as [Heq | Hin]; [congruence|].
      apply elem_of_cons. right. by apply IH.
Qed.

(** [max] returns the first of the items with the largest count: the
    items before it count less. *)
Lemma first_max_first c : forall best,
  (first_max best c = best /\
   forall kn, kn ∈ c -> (snd kn <= snd best)%nat) \/
  (exists l1 l2, c = l1 ++ first_max best c :: l2 /\
     (snd best < snd (first_max best c))%nat /\
     forall kn, kn ∈ l1 -> (snd kn < snd (first_max best c))%nat).
Proof.
  induction c as [|[k n] c IH]; intros best; simpl.
  - left. split; [reflexivity|]. intros kn Hin. by apply elem_of_nil in Hin.
  - destruct (snd best <? n)%nat eqn:Elt.
    + apply Nat.ltb_lt in Elt. right.
      destruct (IH (k, n)) as [[Heq Hall] | (l1 & l2 & Hc & Hlt & Hall)].
      * rewrite Heq. exists [], c. simpl. repeat split; [exact Elt|].
        intros kn Hin. by apply elem_of_nil in Hin.
      * exists ((k, n) :: l1), l2. simpl in Hlt. repeat split.
        -- simpl. by rewrite <- Hc.
        -- lia.
        -- intros kn Hin. apply elem_of_cons in Hin as [-> | Hin];
             [exact Hlt | by apply Hall].
    + apply Nat.ltb_ge in Elt.
      destruct (IH best) as [[Heq Hall] | (l1 & l2 & Hc & Hlt & Hall)].
      * left. split; [exact Heq|].
        intros kn Hin. apply elem_of_cons in Hin as [-> | Hin];
          [exact Elt | by apply Hall].
      * right. exists ((k, n) :: l1), l2. repeat split.
        -- simpl. by rewrite <- Hc.
        -- exact Hlt.
        -- intros kn Hin. apply elem_of_cons in Hin as [-> | Hin];
             [simpl; lia | by apply Hall].
Qed.

Lemma most_common1_first c r rest :
  most_common1 c = r :: rest ->
  exists l1 l2, c = l1 ++ r :: l2 /\
    forall kn, kn ∈ l1 -> (snd kn < snd r)%nat.
Proof.
  destruct c as [|kn c]; simpl; [discriminate|]. intros [= <- _].
  destruct (first_max_first c kn) as [[Heq _] | (l1 & l2 & Hc & Hlt & Hall)].
  - rewrite Heq. exists [], c. split; [reflexivity|].
    intros x Hin. by apply elem_of_nil in Hin.
  - exists (kn :: l1), l2. split; [simpl; by rewrite <- Hc|].
    intros x Hin. apply elem_of_cons in Hin as [-> | Hin];
      [exact Hlt | by apply Hall].
Qed.

End CounterOrder.

Section ScriptOrder.

Variable html_unescape : str -> str.
Variable isalpha : char -> bool.
Variable unicodedata_name : char -> option str.

Local Abbreviation script := (script_of unicodedata_name).
Local Abbreviation tally_of := (tally isalpha unicodedata_name).
Local Abbreviation count_of := (script_count isalpha unicodedata_name).
Local Abbreviation named := (all_named isalpha unicodedata_name).
Local Abbreviation detect :=
  (determine_text_script html_unescape isalpha unicodedata_name).

(** Every key of the counter has a first letter in the text read so far,
    and the letters before it belong to the keys before it. *)
Local Abbreviation first_met done ks :=
  (forall l1 k l2, ks = l1 ++ k :: l2 ->
     exists before c after, done = before ++ c :: after /\
       isalpha c = true /\ script c = Ok k /\
       forall c', c' ∈ before -> isalpha c' = true ->
                  forall s, script c' = Ok s -> s ∈ l1).

(** Every letter read so far has its key in the counter. *)
Local Abbreviation all_met done ks :=
  (forall c', c' ∈ done -> isalpha c' = true ->
              forall s, script c' = Ok s -> s ∈ ks).

Lemma first_met_snoc done ks ch :
  first_met done ks -> first_met (done ++ [ch]) ks.
Proof.
  intros H l1 k l2 E.
  destruct (H l1 k l2 E) as (before & c & after & -> & Ha & Hs & Hb).
  exists before, c, (after ++ [ch]).
  rewrite <- app_assoc. repeat split; assumption.
Qed.

Lemma first_met_new done ks ch w :
  isalpha ch = true -> script ch = Ok w ->
  first_met done ks -> all_met done ks ->
  first_met (done ++ [ch]) (ks ++ [w]).
Proof.
  intros Ha Hs H1 H2 l1 k l2 E.
  destruct l2 as [|x l2 _] using rev_ind.
  - apply app_inj_tail in E as [<- <-].
    exists done, ch, []. repeat split; assumption.
  - change (l1 ++ k :: l2 ++ [x]) with (l1 ++ (k :: l2) ++ [x]) in E.
    rewrite app_assoc in E. apply app_inj_tail in E as [E _].
    exact (first_met_snoc done ks ch H1 l1 k l2 E).
Qed.

Lemma tally_order prefix : forall done acc c,
  tally_of prefix acc = Ok c ->
  first_met done (Counter.keys acc) -> all_met done (Counter.keys acc) ->
  first_met (done ++ prefix) (Counter.keys c).
Proof.
  induction prefix as [|ch rest IH]; intros done acc c Ht H1 H2.
  - simpl in Ht. injection Ht as <-. by rewrite app_nil_r.
  - simpl in Ht.
    replace (done ++ ch :: rest) with ((done ++ [ch]) ++ rest)
      by (by rewrite <- app_assoc).
    destruct (isalpha ch) eqn:Ea.
    + destruct (script ch) as [w|e] eqn:Ew; [|discriminate].
      cbn [mbind result_bind] in Ht.
      apply (IH _ _ _ Ht).
      * destruct (CounterFacts.keys_incr w acc) as [-> | [_ ->]].
        -- by apply first_met_snoc.
        -- by apply first_met_new.
      * intros c' Hin Hc' s Hs.
        apply elem_of_app in Hin as [Hin | Hin].
        -- specialize (H2 c' Hin Hc' s Hs).
           destruct (CounterFacts.keys_incr w acc) as [-> | [_ ->]];
             [exact H2 | apply elem_of_app; by left].
        -- apply list_elem_of_singleton in Hin. subst c'.
           rewrite Ew in Hs. injection Hs as <-.
           apply CounterOrder.elem_of_keys_incr.
    + apply (IH _ _ _ Ht).
      * by apply first_met_snoc.
      * intros c' Hin Hc' s Hs.
        apply elem_of_app in Hin as [Hin | Hin]; [by apply (H2 c')|].
        apply list_elem_of_singleton in Hin. subst c'. congruence.
Qed.

(** A letter that [unicodedata] does not name makes the function raise
    [ValueError], wherever it stands in the prefix. *)
Theorem determine_text_script_unnamed_letter (text : str) :
  (forall c name, unicodedata_name c = Some name -> first_word name <> None) ->
  Exists (fun c => isalpha c = true /\ unicodedata_name c = None)
         (take 10 (html_unescape text)) ->
  detect text = Raise ValueError.
Proof.
  intros Hword Hex. unfold determine_text_script.
  assert (H : forall beginning acc,
            Exists (fun c => isalpha c = true /\ unicodedata_name c = None)
                   beginning ->
            tally_of beginning acc = Raise ValueError).
  { intros beginning. induction beginning as [|ch rest IH]; intros acc Hx.
    - by apply Exists_nil in Hx.
    - simpl. destruct (isalpha ch) eqn:Ea.
      + unfold script_of.
        destruct (unicodedata_name ch) as [name|] eqn:En; [|reflexivity].
        destruct (first_word name) as [w|] eqn:Ef;
          [|by apply Hword in En].
        cbn [mbind result_bind]. apply IH.
        apply Exists_cons in Hx as [[_ Hn] | Hx]; [congruence | exact Hx].
      + apply IH.
        apply Exists_cons in Hx as [[Hc _] | Hx]; [congruence | exact Hx]. }
  by rewrite (H _ [] Hex).
Qed.

(** Among the writing systems with the largest count the function returns
    the one met first: the system returned has a first letter in the
    prefix, and every letter before it belongs to a system that counts
    less. *)
Theorem determine_text_script_first_met (text : str) (r : str) :
  named (take 10 (html_unescape text)) = true ->
  detect text = Ok r ->
  (length (take 10 (html_unescape text))
   <= 2 * count_of r (take 10 (html_unescape text)))%nat ->
  exists before c after,
    take 10 (html_unescape text) = before ++ c :: after /\
    isalpha c = true /\ script c = Ok r /\
    forall c', c' ∈ before -> isalpha c' = true ->
      forall s, script c' = Ok s ->
        (count_of s (take 10 (html_unescape text))
         < count_of r (take 10 (html_unescape text)))%nat.
Proof.
  intros Hnamed. unfold determine_text_script.
  remember (take 10 (html_unescape text)) as prefix eqn:Eprefix.
  clear Eprefix.
  destruct (tally_counts isalpha unicodedata_name prefix [] Hnamed)
    as (c & Hc & Hnd & Hget); [apply NoDup_nil_2|].
  rewrite Hc. cbn [mbind result_bind].
  assert (Horder : first_met prefix (Counter.keys c)).
  { apply (tally_order prefix [] [] c Hc).
    - intros l1 k l2 E. by destruct l1.
    - intros c' Hin. by apply elem_of_nil in Hin. }
  destruct (Nat.eqb (length prefix) 0) eqn:Elen; [discriminate|].
  apply Nat.eqb_neq in Elen.
  destruct (Counter.most_common1 c) as [|[k n] mc] eqn:Emc.
  { pose proof (CounterFacts.most_common1_spec c) as Hmc.
    rewrite Emc in Hmc. subst c.
    intros _ Hlen. specialize (Hget r). simpl in Hget. rewrite <- Hget in Hlen.
    lia. }
  destruct (CounterOrder.most_common1_first c _ _ Emc)
    as (l1 & l2 & Ec & Hless).
  assert (Hk : Counter.get k c = n).
  { apply CounterFacts.get_entry; [exact Hnd|].
    rewrite Ec. apply elem_of_app. right. apply elem_of_cons. by left. }
  assert (Hmax : forall s, (Counter.get s c <= n)%nat).
  { intros s. pose proof (CounterFacts.most_common1_spec c) as Hmc.
    rewrite Emc in Hmc. destruct Hmc as [_ Hall].
    destruct (Nat.eq_dec (Counter.get s c) O) as [-> | Hpos]; [lia|].
    apply (Hall (s, Counter.get s c)). by apply CounterFacts.entry_of_get. }
  change (n + (n + 0))%nat with (2 * n)%nat.
  destruct (2 * n <? length prefix)%nat eqn:Elt.
  { apply Nat.ltb_lt in Elt. intros [= <-] Hlen.
    specialize (Hmax MIXED). rewrite Hget in Hmax. simpl in Hmax. lia. }
  intros [= <-] _.
  destruct (Horder (Counter.keys l1) k (Counter.keys l2))
    as (before & ch & after & Hp & Ha & Hs & Hb).
  { rewrite Ec. unfold Counter.keys. by rewrite map_app. }
  exists before, ch, after. repeat split; [exact Hp | exact Ha | exact Hs |].
  intros c' Hin Hc' s Hs'.
  specialize (Hb c' Hin Hc' s Hs').
  apply CounterOrder.elem_of_keys_get in Hb.
  pose proof (Hless _ Hb) as Hlt. simpl in Hlt.
  assert (Hs1 : Counter.get s c = Counter.get s l1).
  { apply CounterFacts.get_entry; [exact Hnd|].
    rewrite Ec. apply elem_of_app. by left. }
  pose proof (Hget s) as Hgs. pose proof (Hget k) as Hgk.
  simpl in Hgs, Hgk. lia.
Qed.

End ScriptOrder.

(** With a library that names no letter, a text of one letter raises. *)
Lemma determine_text_script_unnamed_letter_witness :
  determine_text_script (fun s => s) (fun _ => true) (fun _ => None)
                        (lit "a") = Raise ValueError.
Proof.
  apply (determine_text_script_unnamed_letter (fun s => s) (fun _ => true)
           (fun _ => None) (lit "a")).
  - intros c name H. discriminate H.
  - apply Exists_cons. left. split; reflexivity.
Defined.

(** Two Latin letters before two ideographs: both systems count two, and
    the Latin letters come first. *)
Lemma determine_text_script_first_met_witness :
  exists before c after,
    take 10 [72; 101; 20320; 22909]%N = before ++ c :: after /\
    isalpha_of ucd_excerpt c = true /\
    script_of (name_of ucd_excerpt) c = Ok (lit "LATIN") /\
    forall c', c' ∈ before -> isalpha_of ucd_excerpt c' = true ->
      forall s, script_of (name_of ucd_excerpt) c' = Ok s ->
        (script_count (isalpha_of ucd_excerpt) (name_of ucd_excerpt) s
           (take 10 [72; 101; 20320; 22909]%N)
         < script_count (isalpha_of ucd_excerpt) (name_of ucd_excerpt)
             (lit "LATIN") (take 10 [72; 101; 20320; 22909]%N))%nat.
Proof.
  apply (determine_text_script_first_met (fun s => s)
           (isalpha_of ucd_excerpt) (name_of ucd_excerpt)
           [72; 101; 20320; 22909]%N (lit "LATIN")).
  - reflexivity.
  - reflexivity.
  - vm_compute. lia.
Defined.

(** ** More on the assess stage *)

(** The files a loop body returns are as many as the videos it returns
    for. *)
Lemma length_omap_filter {A B : Type} (f : A -> option B) (ok : A -> bool)
    (l : list A) :
  (forall x, ok x = true <-> is_Some (f x)) ->
  length (omap f l) = length (List.filter ok l).
Proof.
  intros H. induction l as [|x l IH]; simpl; [reflexivity|].
  specialize (H x). revert H.
  destruct (f x) as [y|], (ok x); simpl; intros H;
    try exact IH; try exact (f_equal S IH).
  - destruct H as [_ H].
    assert (Hs : is_Some (Some y)) by (by eexists). discriminate (H Hs).
  - destruct H as [H _]. destruct (H eq_refl) as [? ?]. discriminate.
Qed.

Lemma length_filter_negb {A : Type} (p : A -> bool) (l : list A) :
  (length (List.filter p l) + length (List.filter (fun x => negb (p x)) l)
   = length l)%nat.
Proof.
  induction l as [|x l IH]; simpl; [reflexivity|].
  destruct (p x); simpl; lia.
Qed.

Section AssessCounts.

Variable csv_DictReader : str -> list row.
Variable py_int : str -> option Z.
Variable repr : value -> str.
Variable prompt_name : str.
Variable prompt_version : Z.
Variable utcnow : nat -> str.
Variable save_raises : nat -> bool.

Local Abbreviation try_ :=
  (assess_try repr prompt_name prompt_version utcnow save_raises).
Local Abbreviation loop :=
  (assess_loop repr prompt_name prompt_version utcnow save_raises).
Local Abbreviation run :=
  (assess_run csv_DictReader py_int repr prompt_name prompt_version utcnow
              save_raises).
Local Abbreviation parse := (_parse_claude_response csv_DictReader py_int).

(** The [try] body returns exactly when the id can be a key and [save]
    returns. *)
Lemma assess_try_returns results i video :
  hashable (video_id_of video) && negb (save_raises i) = true <->
  is_Some (match try_ results i video with
           | Ok e => Some e
           | Raise _ => None
           end).
Proof.
  unfold assess_try, video_id_of, lookup_assessment.
  destruct (Dict.get_default (lit "video_id") (VStr []) (frontmatter video));
    cbn [hashable mbind result_bind andb];
    destruct (save_raises i); cbn [negb];
    split; intros H; try discriminate; try (by eexists);
    destruct H as [? H]; discriminate H.
Qed.

Lemma assess_loop_entries results videos : forall i st,
  written (loop results i videos st) =
    written st ++
    omap (fun iv => match try_ results iv.1 iv.2 with
                    | Ok e => Some e
                    | Raise _ => None
                    end)
         (imap (fun j v => ((i + j)%nat, v)) videos) /\
  count (loop results i videos st) =
    (count st + (length (written (loop results i videos st))
                 - length (written st)))%nat /\
  (count (loop results i videos st) + errors (loop results i videos st)
   = count st + errors st + length videos)%nat.
Proof.
  induction videos as [|v videos IH]; intros i st.
  - simpl. rewrite app_nil_r. repeat split; lia.
  - cbn [assess_loop]. rewrite imap_cons. cbn [omap list_omap fst snd].
    rewrite Nat.add_0_r.
    assert (Hext : imap ((fun j v => ((i + j)%nat, v)) ∘ S) videos
                   = imap (fun j (v : MarkdownFile) => ((S i + j)%nat, v)) videos).
    { apply imap_ext. intros j x _. simpl. f_equal. lia. }
    rewrite Hext.
    destruct (try_ results i v) as [[name w]|e].
    + destruct (IH (S i) (saved name w st)) as (Hw & Hc & Hce).
      cbn [count errors written saved] in Hw, Hc, Hce.
      rewrite <- app_assoc in Hw. cbn [app] in Hw.
      pose proof (f_equal length Hw) as Hlen.
      rewrite !length_app in *. cbn [length] in *. repeat split.
      * exact Hw.
      * lia.
      * lia.
    + destruct (IH (S i) (failed st)) as (Hw & Hc & Hce).
      cbn [count errors written failed] in Hw, Hc, Hce. repeat split.
      * exact Hw.
      * exact Hc.
      * cbn [length]. lia.
Qed.

(** Whatever the ids are, the run after a response writes the files the
    loop body returns, counts them as processed, and counts as an error
    every record whose id cannot be a key of the response (a sequence or a
    mapping) or whose [save] raises. *)
Theorem assess_run_counts (videos : list MarkdownFile) (text : str) :
  videos <> [] ->
  output (run videos (Ok text)) = entries (try_ (parse text)) videos /\
  processed (run videos (Ok text)) =
    length (List.filter
              (fun iv => hashable (video_id_of iv.2) && negb (save_raises iv.1))
              (imap pair videos)) /\
  error_count (run videos (Ok text)) =
    length (List.filter
              (fun iv => negb (hashable (video_id_of iv.2)
                               && negb (save_raises iv.1)))
              (imap pair videos)).
Proof.
  intros Hne. destruct videos as [|v0 vs]; [congruence|].
  unfold assess_run. cbn [processed error_count output].
  destruct (assess_loop_entries (parse text) (v0 :: vs) 0 loop_start)
    as (Hw & Hc & Hce).
  cbn [count errors written loop_start app length] in Hw, Hc, Hce.
  assert (Hlen : length (written (loop (parse text) 0 (v0 :: vs) loop_start)) =
                 length (List.filter
                   (fun iv => hashable (video_id_of iv.2)
                              && negb (save_raises iv.1))
                   (imap pair (v0 :: vs)))).
  { rewrite Hw. apply length_omap_filter.
    intros [i v]. apply assess_try_returns. }
  pose proof (length_filter_negb
                (fun iv : nat * MarkdownFile =>
                   hashable (video_id_of iv.2) && negb (save_raises iv.1))
                (imap pair (v0 :: vs))) as Hsum.
  rewrite length_imap in Hsum. cbn [length] in Hsum.
  split; [exact Hw|]. split; lia.
Qed.

End AssessCounts.

(** One record whose id is a sequence: nothing is written, one error. *)
Lemma assess_run_counts_witness :
  let videos := [ {| frontmatter := [(lit "video_id", VList [VInt 1])];
                     content := [] |} ] in
  processed (example_assess_run videos) = O /\
  error_count (example_assess_run videos) = 1%nat.
Proof.
  intros videos.
  destruct (assess_run_counts (fun _ => response_rows) int_of_digits
              scalar_dump (lit "rate_video_happiness") 2
              (fun _ => lit "2025-11-16T11:00:00") (fun _ => false)
              videos [] ltac:(discriminate)) as (_ & Hp & He).
  split; [exact Hp | exact He].
Defined.

Section AssessComplete.

Variable csv_DictReader : str -> list row.
Variable py_int : str -> option Z.
Variable repr : value -> str.
Variable prompt_name : str.
Variable prompt_version : Z.
Variable utcnow : nat -> str.
Variable save_raises : nat -> bool.

Local Abbreviation try_ :=
  (assess_try repr prompt_name prompt_version utcnow save_raises).
Local Abbreviation loop :=
  (assess_loop repr prompt_name prompt_version utcnow save_raises).
Local Abbreviation assessed_ :=
  (assessed repr prompt_name prompt_version utcnow).
Local Abbreviation run :=
  (assess_run csv_DictReader py_int repr prompt_name prompt_version utcnow
              save_raises).



End AssessComplete.



(** ** The parsed response *)

Section ResponseFacts.

Variable csv_DictReader : str -> list row.
Variable py_int : str -> option Z.

Local Abbreviation parse := (_parse_claude_response csv_DictReader py_int).
Local Abbreviation add_row :=
  (fun (results : Dict.t (option str) assessment) (r : row) =>
     let '(k, a) := parse_row py_int r in Dict.set k a results).

Lemma add_row_set results r :
  add_row results r =
  Dict.set (parse_row py_int r).1 (parse_row py_int r).2 results.
Proof. reflexivity. Qed.

Lemma NoDup_keys_rows rows : forall results,
  NoDup (Dict.keys results) ->
  NoDup (Dict.keys (fold_left add_row rows results)).
Proof.
  induction rows as [|r rows IH]; intros results Hnd; [exact Hnd|].
  cbn [fold_left]. apply IH. rewrite add_row_set.
  by apply DictFacts.NoDup_keys_set.
Qed.

(** Rows with other ids leave an entry as it is. *)
Lemma get_rows_other rows k : forall results,
  Forall (fun r => (parse_row py_int r).1 <> k) rows ->
  Dict.get k (fold_left add_row rows results) = Dict.get k results.
Proof.
  induction rows as [|r rows IH]; intros results Hall; [reflexivity|].
  apply Forall_cons in Hall as [Hr Hall].
  cbn [fold_left]. rewrite (IH _ Hall), add_row_set, DictFacts.get_set.
  destruct (decide (k = (parse_row py_int r).1)); [congruence | reflexivity].
Qed.

(** Every entry was there before or comes from a row. *)
Lemma get_rows_origin rows k a : forall results,
  Dict.get k (fold_left add_row rows results) = Some a ->
  Dict.get k results = Some a \/
  exists r, r ∈ rows /\ parse_row py_int r = (k, a).
Proof.
  induction rows as [|r rows IH]; intros results Hget; [by left|].
  cbn [fold_left] in Hget. apply IH in Hget as [Hget | (r' & Hin & Hr')].
  - rewrite add_row_set, DictFacts.get_set in Hget.
    destruct (decide (k = (parse_row py_int r).1)) as [-> | Hne];
      [|by left].
    right. exists r. split; [apply elem_of_cons; by left|].
    injection Hget as <-. reflexivity.
  - right. exists r'. split; [apply elem_of_cons; by right | exact Hr'].
Qed.

Lemma parse_NoDup (response_text : str) :
  NoDup (Dict.keys (parse response_text)).
Proof. apply NoDup_keys_rows, NoDup_nil_2. Qed.

(** The parsed response is a mapping from ids to entries: no id twice,
    every entry made from a row of the response, and for an id on several
    rows the entry of the last of them.  A row whose happiness is not an
    integer has the score 0. *)
Theorem parse_claude_response_entries (response_text : str) :
  NoDup (Dict.keys (parse response_text)) /\
  (forall k a, Dict.get k (parse response_text) = Some a ->
     exists r, r ∈ csv_DictReader response_text /\
               parse_row py_int r = (k, a)) /\
  (forall rows r rest,
     csv_DictReader response_text = rows ++ r :: rest ->
     Forall (fun r' => (parse_row py_int r').1 <> (parse_row py_int r).1)
            rest ->
     Dict.get (parse_row py_int r).1 (parse response_text)
       = Some (parse_row py_int r).2) /\
  (forall r s,
     Dict.get (lit "happiness") r = Some (Some s) -> py_int s = None ->
     happiness_score (parse_row py_int r).2 = 0).
Proof.
  split; [apply parse_NoDup|].
  unfold _parse_claude_response. repeat split.
  - intros k a Hget.
    apply get_rows_origin in Hget as [Hget | Hr]; [discriminate | exact Hr].
  - intros rows r rest -> Hrest.
    rewrite fold_left_app. cbn [fold_left].
    rewrite (get_rows_other _ _ _ Hrest), add_row_set, DictFacts.get_set.
    destruct (decide _); [reflexivity | congruence].
  - intros r s Hh Hs. unfold parse_row, Dict.get_default.
    unfold str in *. rewrite Hh. cbn [happiness_score snd]. by rewrite Hs.
Qed.

End ResponseFacts.

(** ** Where the two averages agree *)

Lemma filter_Permutation {A : Type} (p : A -> bool) (l l' : list A) :
  Permutation l l' -> Permutation (List.filter p l) (List.filter p l').
Proof.
  induction 1 as [|x l l' _ IH|x y l|l l' l'' _ IH1 _ IH2]; simpl.
  - constructor.
  - destruct (p x); [by constructor | exact IH].
  - destruct (p x), (p y); try reflexivity. constructor.
  - by etrans.
Qed.

Lemma mean_of_Permutation (l l' : list Z) :
  Permutation l l' -> mean_of l = mean_of l'.
Proof.
  intros H.
  assert (Hsum : foldr Z.add 0 l = foldr Z.add 0 l').
  { induction H as [|x l l' _ IH|x y l|l l' l'' _ IH1 _ IH2]; simpl;
      [reflexivity | by rewrite IH | lia | congruence]. }
  pose proof (Permutation_length H) as Hlen.
  unfold mean_of. destruct l, l'; try discriminate; [reflexivity|].
  by rewrite Hsum, Hlen.
Qed.

Lemma filter_map_comm {A B : Type} (p : B -> bool) (g : A -> B) (l : list A) :
  List.filter p (List.map g l) = List.map g (List.filter (fun x => p (g x)) l).
Proof.
  induction l as [|x l IH]; simpl; [reflexivity|].
  destruct (p (g x)); simpl; by rewrite IH.
Qed.

(** In a mapping, looking up the keys gives the values. *)
Lemma map_get_keys {K V : Type} `{EqDecision K} (d : Dict.t K V) :
  NoDup (Dict.keys d) ->
  List.map (fun k => Dict.get k d) (Dict.keys d) = List.map Some (Dict.values d).
Proof.
  induction d as [|[k0 v0] d IH]; intros Hnd; [reflexivity|].
  change (NoDup (k0 :: Dict.keys d)) in Hnd.
  apply NoDup_cons in Hnd as [Hnin Hnd].
  change (List.map (fun k => Dict.get k ((k0, v0) :: d)) (k0 :: Dict.keys d)
          = Some v0 :: List.map Some (Dict.values d)).
  cbn [List.map Dict.get].
  destruct (decide (k0 = k0)); [|congruence]. f_equal.
  rewrite <- (IH Hnd). apply List.map_ext_in. intros k Hin.
  destruct (decide (k = k0)) as [-> | Hne]; [|reflexivity].
  exfalso. apply Hnin. by apply list_elem_of_In.
Qed.

Section AverageFacts.

Variable csv_DictReader : str -> list row.
Variable py_int : str -> option Z.
Variable repr : value -> str.
Variable prompt_name : str.
Variable prompt_version : Z.
Variable utcnow : nat -> str.
Variable save_raises : nat -> bool.

Local Abbreviation run :=
  (assess_run csv_DictReader py_int repr prompt_name prompt_version utcnow
              save_raises).
Local Abbreviation parse := (_parse_claude_response csv_DictReader py_int).
Local Abbreviation score_at results :=
  (fun k : option str =>
     match Dict.get k results with
     | Some a => happiness_score a
     | None => 0
     end).

Lemma record_score_key results video :
  record_score results video =
  match response_key video with
  | Some k => score_at results k
  | None => 0
  end.
Proof.
  unfold record_score, response_key, response_entry.
  by destruct (video_id_of video).
Qed.

(** Records without a row of the response have no score above 0. *)
Lemma positive_record_scores results videos :
  List.filter (fun z => 0 <? z) (List.map (record_score results) videos) =
  List.filter (fun z => 0 <? z)
    (List.map (score_at results)
       (List.filter (fun k => bool_decide (k ∈ Dict.keys results))
                    (omap response_key videos))).
Proof.
  induction videos as [|v videos IH]; [reflexivity|].
  cbn [List.map List.filter omap list_omap].
  rewrite record_score_key.
  destruct (response_key v) as [k|]; [|exact IH].
  cbn [List.filter]. case_bool_decide as Hin.
  - cbn [List.map List.filter]. rewrite IH. reflexivity.
  - rewrite (DictFacts.get_None_keys _ _ Hin). exact IH.
Qed.

(** When every id of the response is the id of exactly one loaded record,
    the average the run returns is the mean over the loaded records with a
    score above 0. *)
Theorem assess_average_agrees (videos : list MarkdownFile) (text : str) :
  videos <> [] ->
  Permutation
    (List.filter (fun k => bool_decide (k ∈ Dict.keys (parse text)))
                 (omap response_key videos))
    (Dict.keys (parse text)) ->
  avg_happiness (run videos (Ok text)) =
    Some (mean_over_records (parse text) videos).
Proof.
  intros Hne Hperm. destruct videos as [|v0 vs]; [congruence|].
  unfold assess_run, mean_over_records. cbn [avg_happiness]. f_equal.
  rewrite positive_record_scores.
  apply mean_of_Permutation. symmetry.
  unfold happiness_scores. rewrite <- filter_map_comm.
  apply filter_Permutation.
  etrans; [apply Permutation_map, Hperm|].
  assert (Hnd : NoDup (Dict.keys (parse text))).
  { apply parse_NoDup. }
  pose proof (map_get_keys (parse text) Hnd) as Hmap.
  apply (f_equal (List.map (fun o : option assessment =>
                              match o with
                              | Some a => happiness_score a
                              | None => 0
                              end))) in Hmap.
  rewrite !List.map_map in Hmap. by rewrite Hmap.
Qed.

End AverageFacts.

(** The response of the examples scores [a] and [zzz]; with both records
    loaded the two averages agree. *)
Lemma assess_average_agrees_witness :
  let videos :=
    [ video_a;
      {| frontmatter := [(lit "video_id", VStr (lit "zzz"))];
         content := [] |} ] in
  avg_happiness (example_assess_run videos) =
    Some (mean_over_records example_results videos).
Proof.
  intros videos.
  apply (assess_average_agrees (fun _ => response_rows) int_of_digits
           scalar_dump (lit "rate_video_happiness") 2
           (fun _ => lit "2025-11-16T11:00:00") (fun _ => false)
           videos []).
  - discriminate.
  - vm_compute. reflexivity.
Defined.

(** ** More on the enhance stage *)

Section EnhanceMore.

Variable repr : value -> str.
Variable yaml_safe_load : str -> result (Dict.t str value).
Variable happiness_threshold : Z.
Variable utcnow : nat -> str.
Variable save_raises : nat -> bool.

Local Abbreviation try_ c := (enhance_try repr c utcnow save_raises).
Local Abbreviation loop c := (enhance_loop repr c utcnow save_raises).
Local Abbreviation run c :=
  (enhance_run repr yaml_safe_load happiness_threshold c utcnow save_raises).
Local Abbreviation load_ :=
  (_load_videos_from_assess yaml_safe_load happiness_threshold).
Local Abbreviation title_of video :=
  (format repr (Dict.get_default (lit "title") (VStr []) (frontmatter video))).

Lemma enhance_updates_NoDup i d :
  NoDup (Dict.keys (enhance_updates utcnow i d)).
Proof. apply (bool_decide_unpack _). vm_compute. exact I. Qed.


(** The file written for a record: under the record's id, marked as
    enhanced, every other header key as it was, and the body made of the
    title line, a blank line and the description the header holds; when
    the title has no newline, the description read back from the body is
    the one in the header. *)
Theorem enhance_try_written (c : nat -> call_outcome) (i : nat)
    (video : MarkdownFile) (name : str) (md : MarkdownFile) :
  try_ c i video = Ok (name, md) ->
  name = video_filename repr (video_id_of video) /\
  Dict.get (lit "stage") (frontmatter md) = Some (VStr (lit "enhanced")) /\
  (exists d,
     _enhance_description_simple (c i) (description_of (content video))
       = Ok d /\
     Dict.get (lit "enhanced_description") (frontmatter md) = Some (VStr d) /\
     content md = lit "# " ++ title_of video ++ [nl; nl] ++ d /\
     (nl ∉ title_of video -> description_of (content md) = d)) /\
  (forall k,
     k ∉ [lit "stage"; lit "enhanced_at"; lit "enhanced_description"] ->
     Dict.get k (frontmatter md) = Dict.get k (frontmatter video)).
Proof.
  unfold enhance_try.
  destruct (_enhance_description_simple (c i) (description_of (content video)))
    as [d|e]; cbn [mbind result_bind]; [|discriminate].
  destruct (save_raises i); [discriminate|]. intros H.
  assert (Hname : name = video_filename repr (video_id_of video))
    by (by injection H as <- _).
  assert (Hmd : md =
            {| frontmatter :=
                 Dict.update (frontmatter video) (enhance_updates utcnow i d);
               content := lit "# " ++ title_of video ++ [nl; nl] ++ d |})
    by (by injection H as _ <-).
  clear H. subst name md.
  cbn [frontmatter content].
  split; [reflexivity|].
  split.
  { rewrite (DictFacts.get_update _ _ _ (enhance_updates_NoDup _ _)).
    reflexivity. }
  split.
  { exists d. split; [reflexivity|]. split.
    - rewrite (DictFacts.get_update _ _ _ (enhance_updates_NoDup _ _)).
      reflexivity.
    - split; [reflexivity|]. intros Hnl.
      rewrite app_assoc.
      apply description_of_blank_line. by apply not_elem_of_hash. }
  intros k Hk.
  rewrite (DictFacts.get_update _ _ _ (enhance_updates_NoDup _ _)).
  rewrite (DictFacts.get_None_keys k (enhance_updates utcnow i d));
    [reflexivity | exact Hk].
Qed.

(** The errors of a run are the records for which the client cannot be
    made or [save] raises, and every other retained record is processed. *)
Theorem enhance_run_counts (c : nat -> call_outcome)
    (assess_dir : list (str * str)) :
  output (run c assess_dir) = entries (try_ c) (load_ assess_dir) /\
  error_count (run c assess_dir) =
    length (List.filter
              (fun iv : nat * MarkdownFile =>
                 match c iv.1 with ClientRaises => true | _ => false end
                 || save_raises iv.1)
              (imap pair (load_ assess_dir))) /\
  processed (run c assess_dir) =
    length (List.filter
              (fun iv : nat * MarkdownFile =>
                 negb (match c iv.1 with ClientRaises => true | _ => false end
                       || save_raises iv.1))
              (imap pair (load_ assess_dir))).
Proof.
  unfold enhance_run.
  destruct (load_ assess_dir) as [|v0 vs] eqn:Eload; [by repeat split|].
  cbn [processed error_count output].
  destruct (enhance_loop_spec repr utcnow save_raises c (v0 :: vs) 0 loop_start)
    as (Hw & Hc & Hce).
  cbn [count errors written loop_start app length] in Hw, Hc, Hce.
  assert (Hlen : length (written (loop c 0 (v0 :: vs) loop_start)) =
                 length (List.filter
                   (fun iv : nat * MarkdownFile =>
                      negb (match c iv.1 with
                            | ClientRaises => true
                            | _ => false
                            end || save_raises iv.1))
                   (imap pair (v0 :: vs)))).
  { rewrite Hw. apply length_omap_filter.
    intros [i v]. cbn [fst snd]. unfold enhance_try.
    destruct (c i) as [| |[t|]];
      cbn [_enhance_description_simple mbind result_bind orb negb];
      destruct (save_raises i); cbn [negb];
      split; intros H; try discriminate; try (by eexists);
      destruct H as [? H]; discriminate H. }
  pose proof (length_filter_negb
                (fun iv : nat * MarkdownFile =>
                   negb (match c iv.1 with
                         | ClientRaises => true
                         | _ => false
                         end || save_raises iv.1))
                (imap pair (v0 :: vs))) as Hsum.
  rewrite length_imap in Hsum. cbn [length] in Hsum.
  assert (Hneg : List.filter
            (fun x : nat * MarkdownFile =>
               negb (negb (match c x.1 with
                           | ClientRaises => true
                           | _ => false
                           end || save_raises x.1)))
            (imap pair (v0 :: vs)) =
          List.filter
            (fun iv : nat * MarkdownFile =>
               match c iv.1 with ClientRaises => true | _ => false end
               || save_raises iv.1)
            (imap pair (v0 :: vs))).
  { apply List.filter_ext. intros x. apply negb_involutive. }
  rewrite Hneg in Hsum.
  split; [exact Hw|]. split; lia.
Qed.

End EnhanceMore.


(** The record [a] of the examples, enhanced after a call that returns a
    text: the body holds the text. *)
Lemma enhance_try_written_witness :
  exists md,
    enhance_try scalar_dump (fun _ => CallReturns (Some (lit "Calm.")))
                (fun _ => lit "2025-11-16T12:00:00") (fun _ => false)
                O video_a = Ok (lit "video_a.md", md) /\
    Dict.get (lit "stage") (frontmatter md) = Some (VStr (lit "enhanced")) /\
    description_of (content md) = lit "Calm.".
Proof.
  eexists. split; [reflexivity|].
  destruct (enhance_try_written scalar_dump
              (fun _ => lit "2025-11-16T12:00:00") (fun _ => false)
              (fun _ => CallReturns (Some (lit "Calm."))) O video_a
              _ _ eq_refl) as (_ & Hstage & (d & Hd & _ & _ & Hdesc) & _).
  split; [exact Hstage|].
  injection Hd as <-. apply Hdesc.
  apply (bool_decide_unpack _). vm_compute. exact I.
Defined.

(** ** More on the report stage *)

Section ReportMore.

Variable today : date.
Variable stage_videos : stage_name -> date -> list (Dict.t str value).
Variable enhanced_videos : date -> list MarkdownFile.
Variable to_parquet_raises : stage_name -> bool.

Local Abbreviation frame := (df_from_stage_dir today stage_videos).
Local Abbreviation export_ :=
  (_export_parquet today stage_videos to_parquet_raises).
Local Abbreviation report render_raises has_templates :=
  (report_run today stage_videos enhanced_videos render_raises
              to_parquet_raises has_templates).

(** With a negative or zero [days_back] the loop has nothing to scan,
    unless the date arithmetic raises before it. *)
Lemma scanned_dates_nonpositive (days_back : Z) :
  days_back <= 0 ->
  scanned_dates today days_back = Ok [] \/
  scanned_dates today days_back = Raise OverflowError.
Proof.
  intros Hle. unfold scanned_dates. cbv zeta.
  destruct (timedelta_overflows (days_back - 1)); [by right|].
  destruct (date_overflows (today - (days_back - 1))); [by right|].
  left. apply scan_dates_nil. lia.
Qed.

(** [df_from_stage_dir], for a clock within the range of dates: it raises
    [OverflowError] when [days_back] puts the first date outside the range
    of dates, and when the loop steps past [date.max]; otherwise it looks
    at [days_back] consecutive dates, the last of them today, and at no
    date when [days_back] is zero or negative. *)
Theorem scanned_dates_window (days_back : Z) :
  date_min <= today <= date_max ->
  (today - (days_back - 1) < date_min \/
   date_max < today - (days_back - 1) ->
   scanned_dates today days_back = Raise OverflowError) /\
  (0 < days_back -> date_min <= today - (days_back - 1) ->
   today = date_max ->
   scanned_dates today days_back = Raise OverflowError) /\
  (0 < days_back -> date_min <= today - (days_back - 1) ->
   today < date_max ->
   exists dates,
     scanned_dates today days_back = Ok dates /\
     dates = List.map (fun k => today - (days_back - 1) + Z.of_nat k)
                      (List.seq 0 (Z.to_nat days_back)) /\
     length dates = Z.to_nat days_back /\
     last dates = Some today) /\
  (days_back <= 0 -> today - (days_back - 1) <= date_max ->
   scanned_dates today days_back = Ok []).
Proof.
  intros Htoday. rewrite (scanned_dates_spec today days_back Htoday).
  split; [|split; [|split]].
  - intros Hout.
    by rewrite (proj2 (date_overflows_true _) Hout).
  - intros Hpos Hmin Hmax.
    destruct (date_overflows (today - (days_back - 1))); [reflexivity|].
    destruct (Z.ltb_spec 0 days_back); [|lia].
    destruct (Z.eqb_spec today date_max); [reflexivity | lia].
  - intros Hpos Hmin Hmax.
    rewrite (proj2 (date_overflows_false (today - (days_back - 1))))
      by lia.
    destruct (Z.ltb_spec 0 days_back); [|lia].
    destruct (Z.eqb_spec today date_max); [lia|]. cbn [andb].
    eexists. split; [reflexivity|]. split; [reflexivity|].
    split; [by rewrite length_map, length_seq|].
    replace (Z.to_nat days_back) with (S (Z.to_nat (days_back - 1))) by lia.
    rewrite seq_S, map_app. cbn [List.map]. rewrite last_snoc.
    f_equal. lia.
  - intros Hle Hmax.
    rewrite (proj2 (date_overflows_false (today - (days_back - 1))))
      by lia.
    destruct (Z.ltb_spec 0 days_back); [lia|]. cbn [andb].
    by replace (Z.to_nat days_back) with O by lia.
Qed.

(** The export writes at most one file for each stage, in the order fetch,
    assess, enhance: the file of a stage is written exactly when its data
    frame is made and has a record and writing it does not raise, whatever
    happens to the files of the other stages.  No file is written with
    [days_back] zero or negative, nor when the date arithmetic of the data
    frame raises. *)
Theorem export_parquet_files (target_date : date) (days_back : Z) :
  List.map export_stage (export_ target_date days_back)
    `sublist_of` [fetch; assess; enhance] /\
  (forall name,
     name ∈ List.map export_stage (export_ target_date days_back) <->
     exists df, frame name days_back = Ok df /\ df <> [] /\
                to_parquet_raises name = false) /\
  (days_back <= 0 -> export_ target_date days_back = []) /\
  (forall x, scanned_dates today days_back = Raise x ->
             export_ target_date days_back = []).
Proof.
  split; [|split; [|split]].
  - unfold _export_parquet. cbn [List.map List.concat].
    destruct (frame fetch days_back) as [[|? ?]|?],
      (to_parquet_raises fetch),
      (frame assess days_back) as [[|? ?]|?],
      (to_parquet_raises assess),
      (frame enhance days_back) as [[|? ?]|?],
      (to_parquet_raises enhance);
      cbn [app List.map export_stage]; repeat constructor.
  - intros name. apply export_parquet_stage.
  - intros Hle. unfold _export_parquet, df_from_stage_dir.
    destruct (scanned_dates_nonpositive days_back Hle) as [-> | ->];
      reflexivity.
  - intros x Hx. unfold _export_parquet, df_from_stage_dir.
    rewrite Hx. reflexivity.
Qed.

(** The report exports only when it reports videos, a fatal error exports
    and writes nothing, and neither the template directory nor a failure
    to render changes what is counted or exported. *)
Theorem report_run_exports (render_raises has_templates : bool)
    (target_date : date) :
  (videos_reported (report render_raises has_templates target_date) = O ->
   exports (report render_raises has_templates target_date) = []) /\
  (report_errors (report render_raises has_templates target_date) <> O ->
   exports (report render_raises has_templates target_date) = [] /\
   report_written (report render_raises has_templates target_date) = false) /\
  (forall render_raises' has_templates',
     exports (report render_raises' has_templates' target_date) =
       exports (report render_raises has_templates target_date) /\
     videos_reported (report render_raises' has_templates' target_date) =
       videos_reported (report render_raises has_templates target_date) /\
     report_avg (report render_raises' has_templates' target_date) =
       report_avg (report render_raises has_templates target_date)).
Proof.
  unfold report_run.
  destruct (enhanced_videos target_date) as [|v vs];
    [repeat split; congruence|].
  destruct (scores_of (v :: vs));
    cbn [videos_reported report_errors exports report_written report_avg
         length]; repeat split; congruence.
Qed.

End ReportMore.

(** On 2025-11-16, day 739571: three days back end today, and a million
    days back leave the range of dates. *)
Lemma scanned_dates_window_witness :
  (exists dates, scanned_dates 739571 3 = Ok dates /\
                 last dates = Some 739571) /\
  scanned_dates 739571 1000000 = Raise OverflowError.
Proof.
  destruct (scanned_dates_window 739571 3) as (_ & _ & H3 & _);
    [unfold date_min, date_max; lia|].
  destruct (scanned_dates_window 739571 1000000) as (Hout & _);
    [unfold date_min, date_max; lia|].
  split.
  - destruct H3 as (dates & Hd & _ & _ & Hlast);
      [lia | unfold date_min; lia | unfold date_max; lia |].
    by exists dates.
  - apply Hout. left. unfold date_min. lia.
Defined.

(** The fetch stage has a record of today: its file is written. *)
Lemma export_parquet_files_witness :
  fetch ∈ List.map export_stage
            (_export_parquet 739571
               (fun name d => if d =? 739571 then [[]] else [])
               (fun _ => false) 739000 3).
Proof.
  apply (export_parquet_files 739571
           (fun name d => if d =? 739571 then [[]] else [])
           (fun _ => false) 739000 3).
  unfold df_from_stage_dir.
  rewrite scanned_dates_spec by (unfold date_min, date_max; lia).
  eexists. split; [reflexivity|]. split; [|reflexivity].
  cbn. discriminate.
Defined.

Lemma report_run_exports_witness :
  exports (report_run 20000 (fun _ _ => [[]]) (fun _ => [])
                      false (fun _ => false) true 20000) = [].
Proof.
  apply (proj1 (report_run_exports 20000 (fun _ _ => [[]]) (fun _ => [])
                  (fun _ => false) false true 20000)).
  reflexivity.
Defined.

(** ** More on the pipeline *)

(** The body of [run_all] runs the stages in their order, stops at the
    first stage that raises or, for fetch and assess, reports nothing, and
    exits with code 1 exactly when loading the configuration raised or a
    stage it invoked raised. *)
Lemma run_all_stages (world : Type)
    (run_stage : stage_id -> world -> result nat * world)
    (config_raises : world -> bool) (w : world) :
  invoked _ (run_all world run_stage config_raises w)
    `prefix_of` [Fetch; Assess; Enhance; Report] /\
  (exited _ (run_all world run_stage config_raises w) = true <->
   config_raises w = true \/
   exists s e,
     s ∈ invoked _ (run_all world run_stage config_raises w) /\
     (run_stage s
        match s with
        | Fetch => w
        | Assess => (run_stage Fetch w).2
        | Enhance => (run_stage Assess (run_stage Fetch w).2).2
        | Report =>
            (run_stage Enhance (run_stage Assess (run_stage Fetch w).2).2).2
        end).1 = Raise e).
Proof.
  unfold run_all.
  destruct (config_raises w); cbn [invoked exited].
  { split; [by exists [Fetch; Assess; Enhance; Report] | tauto]. }
  destruct (run_stage Fetch w) as [[n|e] w1] eqn:EF; cbn [fst snd].
  2:{ cbn [invoked exited]. split; [by exists [Assess; Enhance; Report]|].
      split; [|reflexivity]. intros _. right. exists Fetch, e.
      split; [repeat constructor | by rewrite EF]. }
  destruct (Nat.eqb n 0); cbn [invoked exited].
  { split; [by exists [Assess; Enhance; Report]|].
    split; [discriminate|]. intros [H | (s & e & Hin & Hr)]; [discriminate|].
    inversion Hin; subst; [|by match goal with H : _ ∈ [] |- _ =>
                                   inversion H end].
    rewrite EF in Hr. discriminate Hr. }
  destruct (run_stage Assess w1) as [[m|e] w2] eqn:EA; cbn [fst snd].
  2:{ cbn [invoked exited]. split; [by exists [Enhance; Report]|].
      split; [|reflexivity]. intros _. right. exists Assess, e.
      split; [repeat constructor | by rewrite EA]. }
  destruct (Nat.eqb m 0); cbn [invoked exited].
  { split; [by exists [Enhance; Report]|].
    split; [discriminate|]. intros [H | (s & e & Hin & Hr)]; [discriminate|].
    repeat match goal with
           | H : _ ∈ _ |- _ => inversion H; clear H; subst
           end; rewrite ?EF, ?EA in Hr; discriminate Hr. }
  destruct (run_stage Enhance w2) as [[k|e] w3] eqn:EE; cbn [fst snd].
  2:{ cbn [invoked exited]. split; [by exists [Report]|].
      split; [|reflexivity]. intros _. right. exists Enhance, e.
      split; [repeat constructor | by rewrite EE]. }
  destruct (run_stage Report w3) as [[j|e] w4] eqn:ER;
    cbn [invoked exited].
  - split; [by exists []|].
    split; [discriminate|]. intros [H | (s & e & Hin & Hr)]; [discriminate|].
    repeat match goal with
           | H : _ ∈ _ |- _ => inversion H; clear H; subst
           end; rewrite ?EF, ?EA, ?EE, ?ER in Hr; discriminate Hr.
  - split; [by exists []|].
    split; [|reflexivity]. intros _. right. exists Report, e.
    split; [repeat constructor | by rewrite ER].
Qed.

(** The body of [run_all] starts with fetch unless loading the
    configuration raised. *)
Lemma run_all_fetch_invoked (world : Type)
    (run_stage : stage_id -> world -> result nat * world)
    (config_raises : world -> bool) (w : world) :
  Fetch ∈ invoked _ (run_all world run_stage config_raises w) <->
  config_raises w = false.
Proof.
  unfold run_all. destruct (config_raises w); cbn [invoked].
  { split; [intros Hin; inversion Hin | discriminate]. }
  split; [reflexivity|]. intros _.
  destruct (run_stage Fetch w) as [[n|e] w1]; [|repeat constructor].
  destruct (Nat.eqb n 0); [repeat constructor|].
  destruct (run_stage Assess w1) as [[m|e] w2]; [|repeat constructor].
  destruct (Nat.eqb m 0); [repeat constructor|].
  destruct (run_stage Enhance w2) as [[k|e] w3]; [|repeat constructor].
  destruct (run_stage Report w3) as [[j|e] w4]; repeat constructor.
Qed.

Section PipelineFacts.

Variable world : Type.
Variable credentials_ok : bool.
Variable strptime : str -> option date.
Variable today : date.
Variable run_stage_of : date -> stage_id -> world -> result nat * world.
Variable config_raises : world -> bool.

(** The [run-all] command runs the stages in their order and stops at the
    first stage that raises or, for fetch and assess, reports nothing.  It
    runs fetch exactly when the credentials are there, the date parses and
    loading the configuration does not raise.  It exits with code 1
    exactly when the credentials are missing, the date does not parse,
    loading the configuration raised an exception other than
    [FileNotFoundError] and [KeyError], or a stage it invoked raised. *)
Theorem run_all_order (date_str : option str) (w : world) :
  invoked _ (run_all_command world credentials_ok strptime today
               run_stage_of config_raises date_str w)
    `prefix_of` [Fetch; Assess; Enhance; Report] /\
  (Fetch ∈ invoked _ (run_all_command world credentials_ok strptime today
                        run_stage_of config_raises date_str w) <->
   credentials_ok = true /\
   parse_date strptime today date_str <> None /\
   config_raises w = false) /\
  (exited _ (run_all_command world credentials_ok strptime today
               run_stage_of config_raises date_str w) = true <->
   credentials_ok = false \/
   parse_date strptime today date_str = None \/
   exists target_date,
     parse_date strptime today date_str = Some target_date /\
     (config_raises w = true \/
      exists s e,
        s ∈ invoked _ (run_all_command world credentials_ok strptime today
                         run_stage_of config_raises date_str w) /\
        (run_stage_of target_date s
           match s with
           | Fetch => w
           | Assess => (run_stage_of target_date Fetch w).2
           | Enhance =>
               (run_stage_of target_date Assess
                  (run_stage_of target_date Fetch w).2).2
           | Report =>
               (run_stage_of target_date Enhance
                  (run_stage_of target_date Assess
                     (run_stage_of target_date Fetch w).2).2).2
           end).1 = Raise e)).
Proof.
  unfold run_all_command.
  destruct credentials_ok.
  2:{ cbn [invoked exited].
      split; [by exists [Fetch; Assess; Enhance; Report]|].
      split; [split; [intros Hin; inversion Hin | intros [? _]; discriminate]|].
      split; [by left | reflexivity]. }
  destruct (parse_date strptime today date_str) as [target_date|].
  2:{ cbn [invoked exited].
      split; [by exists [Fetch; Assess; Enhance; Report]|].
      split; [split; [intros Hin; inversion Hin | intros (_ & ? & _); congruence]|].
      split; [right; by left | reflexivity]. }
  destruct (run_all_stages world (run_stage_of target_date) config_raises w)
    as [Hprefix Hexit].
  split; [exact Hprefix|]. split.
  - rewrite run_all_fetch_invoked. split; [by intros -> | by intros (_ & _ & ->)].
  - rewrite Hexit. split.
    + intros H'. right. right. exists target_date. split; [reflexivity | exact H'].
    + intros [H' | [H' | (d & Hd & H')]]; try discriminate.
      injection Hd as <-. exact H'.
Qed.

End PipelineFacts.

(** ** The table sent to the collaborator *)

(** The table has the header row [video_id], [title], [description] and
    after it one row for each video, in order.  The row of a video holds
    the [video_id] and the [title] of its header, the empty text for a
    missing one, and a description cell: the first 500 characters of the
    text [d] after the first blank line of its body [t ++ "\n\n" ++ d] (no
    blank line begins in [t]), and the empty text for a body without a
    blank line. *)
Theorem prepare_csv_rows (videos : list MarkdownFile) :
  exists rows,
    csv_rows videos =
      [VStr (lit "video_id"); VStr (lit "title"); VStr (lit "description")]
      :: rows /\
    length rows = length videos /\
    forall i video, videos !! i = Some video ->
      exists cell,
        rows !! i =
          Some [ Dict.get_default (lit "video_id") (VStr [])
                                  (frontmatter video);
                 Dict.get_default (lit "title") (VStr [])
                                  (frontmatter video);
                 VStr cell ] /\
        (forall t d,
           content video = t ++ [nl; nl] ++ d ->
           (forall a b, t ++ [nl] <> a ++ [nl; nl] ++ b) ->
           cell = take 500 d) /\
        ((forall a b, content video <> a ++ [nl; nl] ++ b) -> cell = []).
Proof.
  exists (List.map csv_row videos).
  split; [reflexivity|]. split; [apply length_map|].
  intros i video Hlook.
  exists (take 500 (description_of (content video))).
  split; [|split].
  - change (List.map csv_row videos) with (csv_row <$> videos).
    by rewrite list_lookup_fmap, Hlook.
  - intros t d -> Hfirst. by rewrite description_of_first_blank_line.
  - intros Hnone. by rewrite description_of_no_blank_line.
Qed.

(** ** The fetch stage *)

Lemma lstrip_app (x y : str) :
  lstrip (x ++ y) =
    match lstrip x with [] => lstrip y | _ :: _ => lstrip x ++ y end.
Proof.
  induction x as [|c x IH]; simpl; [reflexivity|].
  destruct (isspace c); [exact IH | reflexivity].
Qed.

(** [rstrip] of two texts: of the second when something of it is left,
    and of the first otherwise. *)
Lemma rstrip_app (a b : str) :
  rstrip (a ++ b) =
    match rstrip b with [] => rstrip a | _ :: _ => a ++ rstrip b end.
Proof.
  unfold rstrip. rewrite rev_app_distr, lstrip_app.
  destruct (lstrip (rev b)) as [|c l] eqn:E; [reflexivity|].
  rewrite rev_app_distr, rev_involutive.
  destruct (rev (c :: l)) eqn:E'; [|reflexivity].
  apply (f_equal (@length _)) in E'. rewrite length_rev in E'.
  discriminate E'.
Qed.

Lemma elem_of_rstrip (x : char) (s : str) : x ∈ rstrip s -> x ∈ s.
Proof.
  unfold rstrip. intros H.
  apply list_elem_of_In, in_rev, list_elem_of_In.
  apply elem_of_lstrip.
  by apply list_elem_of_In, in_rev, list_elem_of_In.
Qed.

(** A text without a newline has no description. *)
Lemma description_of_one_line (s : str) : nl ∉ s -> description_of s = [].
Proof.
  intros Hnl. apply description_of_no_blank_line. intros a b ->.
  apply Hnl. apply elem_of_app. right. apply list_elem_of_here.
Qed.

(** The description read back from the body [# title], a blank line and a
    description, after the body went through a file. *)
Lemma description_of_strip_title (t d : str) :
  nl ∉ t -> cr ∉ t ->
  description_of (strip (universal_newlines
                           (lit "# " ++ t ++ [nl; nl] ++ d)))
  = rstrip (universal_newlines d).
Proof.
  intros Hnl Hcr.
  assert (Hcr' : cr ∉ lit "# " ++ t ++ [nl; nl]).
  { intros Hin. rewrite !elem_of_app in Hin.
    destruct Hin as [Hin | [Hin | Hin]]; [| by apply Hcr |];
      apply list_elem_of_In in Hin; cbn in Hin;
      repeat (destruct Hin as [Hin | Hin]; [discriminate Hin|]);
      exact Hin. }
  replace (lit "# " ++ t ++ [nl; nl] ++ d)
    with ((lit "# " ++ t ++ [nl; nl]) ++ d)
    by (by rewrite <- !app_assoc).
  rewrite (universal_newlines_app _ _ Hcr').
  unfold strip.
  change (lstrip ((lit "# " ++ t ++ [nl; nl]) ++ universal_newlines d))
    with ((lit "# " ++ t ++ [nl; nl]) ++ universal_newlines d).
  rewrite rstrip_app.
  destruct (rstrip (universal_newlines d)) as [|c l] eqn:E.
  - replace (lit "# " ++ t ++ [nl; nl]) with ((lit "# " ++ t) ++ [nl; nl])
      by (by rewrite <- !app_assoc).
    rewrite rstrip_app.
    change (rstrip [nl; nl]) with (@nil char).
    apply description_of_one_line. intros Hin.
    apply elem_of_rstrip in Hin. by apply (not_elem_of_hash t Hnl).
  - replace ((lit "# " ++ t ++ [nl; nl]) ++ c :: l)
      with ((lit "# " ++ t) ++ [nl; nl] ++ c :: l)
      by (by rewrite <- !app_assoc).
    apply description_of_blank_line. by apply not_elem_of_hash.
Qed.


Section FetchFacts.

Variable repr : value -> str.
Variable utcnow : nat -> str.
Variable save_raises : nat -> bool.

Local Abbreviation try_ := (fetch_try repr utcnow save_raises).
Local Abbreviation loop := (fetch_loop repr utcnow save_raises).
Local Abbreviation run := (fetch_run repr utcnow save_raises).

Lemma fetch_loop_spec videos_df : forall i st,
  written (loop i videos_df st) =
    written st ++ omap (fun ir => try_ ir.1 ir.2)
                       (imap (fun j r => ((i + j)%nat, r)) videos_df) /\
  count (loop i videos_df st) =
    (count st + (length (written (loop i videos_df st))
                 - length (written st)))%nat /\
  (count (loop i videos_df st) + errors (loop i videos_df st)
   = count st + errors st + length videos_df)%nat.
Proof.
  induction videos_df as [|r rows IH]; intros i st.
  - simpl. rewrite app_nil_r. repeat split; lia.
  - cbn [fetch_loop]. rewrite imap_cons. cbn [omap list_omap fst snd].
    rewrite Nat.add_0_r.
    assert (Hext : imap ((fun j r => ((i + j)%nat, r)) ∘ S) rows
                   = imap (fun j (r : Dict.t str value) => ((S i + j)%nat, r))
                          rows).
    { apply imap_ext. intros j x _. simpl. f_equal. lia. }
    rewrite Hext.
    destruct (try_ i r) as [[name w]|].
    + destruct (IH (S i) (saved name w st)) as (Hw & Hc & Hce).
      cbn [count errors written saved] in Hw, Hc, Hce.
      rewrite <- app_assoc in Hw. cbn [app] in Hw.
      pose proof (f_equal length Hw) as Hlen.
      rewrite !length_app in *. cbn [length] in *. repeat split.
      * exact Hw.
      * lia.
      * lia.
    + destruct (IH (S i) (failed st)) as (Hw & Hc & Hce).
      cbn [count errors written failed] in Hw, Hc, Hce. repeat split.
      * exact Hw.
      * exact Hc.
      * cbn [length]. lia.
Qed.

(** After a search that returns, the run is not fatal.  It keeps the first
    [max_videos] rows; with a negative [max_videos] it keeps all rows but
    the last [-max_videos].  What it writes are the records of the kept
    rows whose [try] body returns, in the order of the rows.  A kept row
    is saved and counted as a new video when it has a [video_id] and a
    [title] and its [save] returns, and is counted as an error otherwise;
    the record saved for it has the header and the body that the row
    gives. *)
Theorem fetch_run_counts (videos_df : list (Dict.t str value))
    (max_videos : Z) :
  exists kept,
    kept = (if 0 <=? max_videos
            then take (Z.to_nat max_videos) videos_df
            else take (length videos_df - Z.to_nat (- max_videos))
                      videos_df) /\
    fatal (run (Some videos_df) max_videos) = false /\
    output (run (Some videos_df) max_videos)
      = omap (fun ir => try_ ir.1 ir.2) (imap pair kept) /\
    processed (run (Some videos_df) max_videos)
      = length (output (run (Some videos_df) max_videos)) /\
    processed (run (Some videos_df) max_videos)
      = length (List.filter
                  (fun ir : nat * Dict.t str value =>
                     match Dict.get (lit "video_id") ir.2,
                           Dict.get (lit "title") ir.2 with
                     | Some _, Some _ => negb (save_raises ir.1)
                     | _, _ => false
                     end)
                  (imap pair kept)) /\
    (processed (run (Some videos_df) max_videos)
     + error_count (run (Some videos_df) max_videos)
     = length kept)%nat /\
    (0 <= max_videos ->
     length kept = Nat.min (length videos_df) (Z.to_nat max_videos)) /\
    (max_videos < 0 ->
     length kept = (length videos_df - Z.to_nat (- max_videos))%nat) /\
    (forall j row video_id title,
       kept !! j = Some row ->
       Dict.get (lit "video_id") row = Some video_id ->
       Dict.get (lit "title") row = Some title ->
       save_raises j = false ->
       (lit "video_" ++ format repr video_id ++ lit ".md",
        {| frontmatter :=
             [ (lit "video_id", video_id);
               (lit "title", title);
               (lit "channel",
                 Dict.get_default (lit "channel_title") (VStr []) row);
               (lit "channel_id",
                 Dict.get_default (lit "channel_id") (VStr []) row);
               (lit "published_at",
                 Dict.get_default (lit "published_at") (VStr []) row);
               (lit "fetched_at", VStr (utcnow j ++ lit "Z"));
               (lit "stage", VStr (lit "fetched"));
               (lit "script_type",
                 Dict.get_default (lit "script") (VStr []) row) ];
           content :=
             lit "# " ++ format repr title ++ [nl; nl]
             ++ format repr (Dict.get_default (lit "description")
                               (VStr []) row) |})
         ∈ output (run (Some videos_df) max_videos)).
Proof.
  eexists. split; [reflexivity|].
  unfold fetch_run. cbn [fatal processed error_count output].
  split; [reflexivity|].
  assert (Hkept :
    (if max_videos <? Z.of_nat (length videos_df)
     then head max_videos videos_df else videos_df)
    = (if 0 <=? max_videos
       then take (Z.to_nat max_videos) videos_df
       else take (length videos_df - Z.to_nat (- max_videos)) videos_df)).
  { destruct (Z.ltb_spec max_videos (Z.of_nat (length videos_df)));
      [reflexivity|].
    destruct (Z.leb_spec 0 max_videos); [|lia].
    rewrite take_ge; [reflexivity | lia]. }
  rewrite Hkept.
  match goal with
  | |- context [loop 0 ?df loop_start] =>
      destruct (fetch_loop_spec df 0 loop_start) as (Hw & Hc & Hce);
      remember df as kept eqn:Ekept
  end.
  cbn [count errors written loop_start app length] in Hw, Hc, Hce.
  assert (Hw' : written (loop 0 kept loop_start)
                = omap (fun ir => try_ ir.1 ir.2) (imap pair kept)).
  { rewrite Hw. f_equal. }
  split; [exact Hw'|]. split; [lia|].
  split.
  { rewrite Hc, Nat.sub_0_r, Hw'. apply length_omap_filter.
    intros [j row]. cbn [fst snd]. unfold fetch_try.
    destruct (Dict.get (lit "video_id") row);
      [|split; [discriminate | intros [? ?]; discriminate]].
    destruct (Dict.get (lit "title") row);
      [|split; [discriminate | intros [? ?]; discriminate]].
    cbn [mbind option_bind].
    destruct (save_raises j); cbn [negb];
      [split; [discriminate | intros [? ?]; discriminate]|].
    split; [intros _; by eexists | reflexivity]. }
  split; [exact Hce|].
  split; [intros Hmax; subst kept; destruct (Z.leb_spec 0 max_videos);
          [rewrite length_take; lia | lia]|].
  split; [intros Hmax; subst kept; destruct (Z.leb_spec 0 max_videos);
          [lia | rewrite length_take; lia]|].
  intros j row video_id title Hlook Hid Htitle Hsave.
  rewrite Hw'. apply list_elem_of_omap. exists (j, row). split.
  - apply list_elem_of_lookup. exists j.
    by rewrite list_lookup_imap, Hlook.
  - cbn [fst snd]. unfold fetch_try. rewrite Hid, Htitle.
    cbn [mbind option_bind]. by rewrite Hsave.
Qed.

Variable yaml_dump : Dict.t str value -> str.
Variable yaml_safe_load : str -> result (Dict.t str value).
Variable file_of : str -> str.
Variable open_raises : str -> bool.

(** The record saved for a row, as the later stages read it back: under
    the id of the row, marked as fetched, with a header that is a mapping.
    When the file can be opened, the text has no lone surrogate and the
    dumped header is read back by PyYAML and holds no sentinel line and no
    carriage return, loading the saved file gives a record with the same
    header.  When the title has no newline and no carriage return, the
    description read back from its body is the description of the row
    with ["\r\n"] and ["\r"] turned into ["\n"] and the whitespace at its
    end removed, and the row of the table sent to the collaborator holds
    the first 500 characters of that. *)
Theorem fetch_try_written (i : nat) (row : Dict.t str value) (name : str)
    (md : MarkdownFile) (file_path : str) (fs : gmap str str) :
  try_ i row = Some (name, md) ->
  open_raises file_path = false ->
  encodable (to_string yaml_dump md) = true ->
  yaml_safe_load (yaml_dump (frontmatter md)) = Ok (frontmatter md) ->
  contains sentinel (yaml_dump (frontmatter md)) = false ->
  cr ∉ yaml_dump (frontmatter md) ->
  exists video_id title md',
    Dict.get (lit "video_id") row = Some video_id /\
    Dict.get (lit "title") row = Some title /\
    name = video_filename repr video_id /\
    Dict.get (lit "stage") (frontmatter md) = Some (VStr (lit "fetched")) /\
    NoDup (Dict.keys (frontmatter md)) /\
    load yaml_safe_load file_of open_raises
         (save yaml_dump file_of open_raises md file_path fs).2 file_path
      = Ok md' /\
    frontmatter md' = frontmatter md /\
    video_id_of md' = video_id /\
    (nl ∉ format repr title -> cr ∉ format repr title ->
     description_of (content md') =
       rstrip (universal_newlines
                 (format repr (Dict.get_default (lit "description")
                                 (VStr []) row))) /\
     csv_row md' =
       [ video_id; title;
         VStr (take 500
                 (rstrip (universal_newlines
                            (format repr
                               (Dict.get_default (lit "description")
                                  (VStr []) row))))) ]).
Proof.
  intros H Hopen Henc Hyaml Hno Hcr.
  rewrite (load_save_text yaml_dump yaml_safe_load file_of open_raises
             md file_path fs Hopen Henc Hyaml Hno Hcr).
  clear Hopen Henc Hyaml Hno Hcr.
  unfold fetch_try in H.
  destruct (Dict.get (lit "video_id") row) as [video_id|];
    [|discriminate].
  destruct (Dict.get (lit "title") row) as [title|]; [|discriminate].
  cbn [mbind option_bind] in H.
  destruct (save_raises i); [discriminate|].
  exists video_id, title. eexists.
  assert (Hname : name = video_filename repr video_id)
    by (by injection H as <- _).
  assert (Hmd : md =
    {| frontmatter :=
         [ (lit "video_id", video_id);
           (lit "title", title);
           (lit "channel",
             Dict.get_default (lit "channel_title") (VStr []) row);
           (lit "channel_id",
             Dict.get_default (lit "channel_id") (VStr []) row);
           (lit "published_at",
             Dict.get_default (lit "published_at") (VStr []) row);
           (lit "fetched_at", VStr (utcnow i ++ lit "Z"));
           (lit "stage", VStr (lit "fetched"));
           (lit "script_type",
             Dict.get_default (lit "script") (VStr []) row) ];
       content :=
         lit "# " ++ format repr title ++ [nl; nl]
         ++ format repr (Dict.get_default (lit "description") (VStr []) row)
    |}) by (by injection H as _ <-).
  clear H. subst name md. cbn [frontmatter content].
  split; [reflexivity|]. split; [reflexivity|]. split; [reflexivity|].
  split; [reflexivity|].
  split; [apply (bool_decide_unpack _); vm_compute; exact I|].
  split; [reflexivity|]. cbn [frontmatter content].
  split; [reflexivity|]. split; [reflexivity|].
  intros Hnl Hcr.
  assert (Hd : description_of
            (strip (universal_newlines
               (lit "# " ++ format repr title ++ [nl; nl]
                ++ format repr (Dict.get_default (lit "description")
                                  (VStr []) row)))) =
          rstrip (universal_newlines
                    (format repr (Dict.get_default (lit "description")
                                    (VStr []) row)))).
  { apply description_of_strip_title; assumption. }
  split; [exact Hd|].
  unfold csv_row. cbn [frontmatter content]. rewrite Hd. reflexivity.
Qed.

End FetchFacts.

Lemma fetch_run_counts_witness :
  let videos_df :=
    [ [(lit "video_id", VStr (lit "a")); (lit "title", VStr (lit "A"))];
      [(lit "video_id", VStr (lit "b")); (lit "title", VStr (lit "B"))];
      [(lit "title", VStr (lit "C"))] ] in
  exists kept,
    kept = take 2 videos_df /\
    List.map fst
      (output (fetch_run scalar_dump (fun _ => lit "2025-11-16T10:00:00")
                         (fun _ => false) (Some videos_df) 2))
      = [lit "video_a.md"; lit "video_b.md"].
Proof.
  intros videos_df.
  destruct (fetch_run_counts scalar_dump (fun _ => lit "2025-11-16T10:00:00")
              (fun _ => false) videos_df 2)
    as (kept & Hkept & _ & Hout & _).
  exists kept. split; [exact Hkept|].
  etrans; [exact (f_equal (List.map fst) Hout)|].
  rewrite Hkept. reflexivity.
Defined.

Lemma fetch_try_written_witness :
  let row := [ (lit "video_id", VStr (lit "a"));
               (lit "title", VStr (lit "A"));
               (lit "description", VStr (lit "About a." ++ [cr; nl])) ] in
  exists name md md',
    fetch_try scalar_dump (fun _ => lit "2025-11-16T10:00:00")
              (fun _ => false) O row = Some (name, md) /\
    load scalars_load (fun p => p) (fun _ => false)
         (save scalars_dump (fun p => p) (fun _ => false)
               md (lit "video_a.md") ∅).2 (lit "video_a.md") = Ok md' /\
    description_of (content md') = lit "About a.".
Proof.
  intros row. do 2 eexists.
  destruct (fetch_try_written scalar_dump
              (fun _ => lit "2025-11-16T10:00:00") (fun _ => false)
              scalars_dump scalars_load (fun p => p) (fun _ => false)
              O row _ _ (lit "video_a.md") ∅ eq_refl eq_refl)
    as (video_id & title & md' & _ & Ht & _ & _ & _ & Hload & _ & _ & Hd).
  - vm_compute. reflexivity.
  - vm_compute. reflexivity.
  - vm_compute. reflexivity.
  - apply (bool_decide_unpack _). vm_compute. exact I.
  - exists md'. split; [reflexivity|]. split; [exact Hload|].
    injection Ht as <-.
    destruct Hd as [Hd _].
    + apply (bool_decide_unpack _). vm_compute. exact I.
    + apply (bool_decide_unpack _). vm_compute. exact I.
    + rewrite Hd. vm_compute. reflexivity.
Defined.

(** ** Prompts *)

(** [get_prompt] returns the prompt of the first definition with the name
    and the version asked for, whatever follows it in the list, and raises
    [StopIteration] exactly when no definition has them. *)
Theorem get_prompt_first (name' : str) (version' : Z) :
  (forall defs1 defs2,
     Prompts.get_prompt (defs1 ++ defs2) name' version' =
     match Prompts.get_prompt defs1 name' version' with
     | Some p => Some p
     | None => Prompts.get_prompt defs2 name' version'
     end) /\
  (forall defs,
     Prompts.get_prompt defs name' version' = None <->
     Forall (fun d => ~ (Prompts.name d = name' /\
                         Prompts.version d = version')) defs) /\
  (forall defs p,
     Prompts.get_prompt defs name' version' = Some p ->
     exists defs1 d defs2,
       defs = defs1 ++ d :: defs2 /\
       Prompts.name d = name' /\ Prompts.version d = version' /\
       Prompts.prompt d = p /\
       Prompts.get_prompt defs1 name' version' = None).
Proof.
  split; [|split].
  - intros defs1 defs2. induction defs1 as [|d defs1 IH]; [reflexivity|].
    cbn [app Prompts.get_prompt].
    destruct (bool_decide (Prompts.name d = name')
              && (Prompts.version d =? version')); [reflexivity | exact IH].
  - intros defs. induction defs as [|d defs IH]; cbn [Prompts.get_prompt].
    + split; [constructor | reflexivity].
    + destruct (bool_decide (Prompts.name d = name')
                && (Prompts.version d =? version')) eqn:E.
      * split; [discriminate|]. intros H. apply Forall_cons in H as [H _].
        apply andb_true_iff in E as [E1 E2].
        apply bool_decide_eq_true in E1. apply Z.eqb_eq in E2.
        exfalso. by apply H.
      * rewrite IH. split; [|by intros H; apply Forall_cons in H as [_ H]].
        intros H. constructor; [|exact H]. intros [H1 H2].
        apply andb_false_iff in E as [E | E].
        -- by apply bool_decide_eq_false in E.
        -- by apply Z.eqb_neq in E.
  - intros defs. induction defs as [|d defs IH]; intros p;
      cbn [Prompts.get_prompt]; [discriminate|].
    destruct (bool_decide (Prompts.name d = name')
              && (Prompts.version d =? version')) eqn:E.
    + intros [= <-]. apply andb_true_iff in E as [E1 E2].
      apply bool_decide_eq_true in E1. apply Z.eqb_eq in E2.
      exists [], d, defs. repeat split; assumption.
    + intros H. destruct (IH p H) as (defs1 & d' & defs2 & -> & Hn & Hv & Hp & Hnone).
      exists (d :: defs1), d', defs2. repeat split; try assumption.
      cbn [Prompts.get_prompt]. by rewrite E.
Qed.

(** ** The configuration manager *)

Section ConfigFacts.

Context {config : Type}.
Variable yaml_safe_load : str -> option config.
Variable fs : gmap str str.
Variable base_path : str.

Local Abbreviation load_config_ :=
  (ConfigManager.load_config yaml_safe_load fs base_path).
Local Abbreviation load_configs_ :=
  (ConfigManager.load_configs yaml_safe_load fs base_path).
Local Abbreviation load_all_ :=
  (ConfigManager.load_all_base_configs yaml_safe_load fs base_path).

(** A configuration that loads is the one [get_config] returns from then
    on, the other names of the cache are as they were, and a load that
    raises leaves the cache as it was and never raises [KeyError]. *)
Theorem load_config_cached (config_name : str) (override_path : option str)
    (self : ConfigManager.t) :
  match load_config_ config_name override_path self with
  | (inr c, self') =>
      ConfigManager.get_config config_name self' = inr c /\
      (forall other, other <> config_name ->
         ConfigManager.get_config other self' =
         ConfigManager.get_config other self) /\
      (NoDup (Dict.keys self) -> NoDup (Dict.keys self'))
  | (inl e, self') => self' = self /\ e <> ConfigManager.KeyError
  end.
Proof.
  unfold ConfigManager.load_config.
  destruct (fs !! _) as [text|]; [|by split].
  destruct (yaml_safe_load text) as [c|]; [|by split].
  unfold ConfigManager.get_config. split; [|split].
  - rewrite DictFacts.get_set. by destruct (decide _).
  - intros other Hne. rewrite DictFacts.get_set.
    by destruct (decide (other = config_name)).
  - apply DictFacts.NoDup_keys_set.
Qed.

(** The loop loads the files that exist: it never raises for a missing
    file; when it returns, every name of the list that has a file has the
    configuration of its file, and every other name is as it was in the
    cache; when it raises, a file could not be parsed. *)
Lemma load_configs_spec (config_files : list str) : forall self,
  NoDup config_files ->
  match load_configs_ config_files self with
  | (None, self') =>
      forall config_name,
        (config_name ∈ config_files ->
         forall text,
           fs !! ConfigManager.path_of base_path config_name = Some text ->
           exists c, yaml_safe_load text = Some c /\
                     ConfigManager.get_config config_name self' = inr c) /\
        (config_name ∉ config_files \/
         fs !! ConfigManager.path_of base_path config_name = None ->
         ConfigManager.get_config config_name self' =
         ConfigManager.get_config config_name self)
  | (Some e, _) =>
      e = ConfigManager.YAMLError /\
      exists config_name text,
        config_name ∈ config_files /\
        fs !! ConfigManager.path_of base_path config_name = Some text /\
        yaml_safe_load text = None
  end.
Proof.
  induction config_files as [|n rest IH]; intros self Hnd.
  - cbn [ConfigManager.load_configs]. intros config_name. split.
    + intros Hin. by apply elem_of_nil in Hin.
    + reflexivity.
  - apply NoDup_cons in Hnd as [Hnin Hnd].
    cbn [ConfigManager.load_configs]. unfold ConfigManager.load_config.
    destruct (fs !! ConfigManager.path_of base_path n) as [text|] eqn:Efile.
    + destruct (yaml_safe_load text) as [c|] eqn:Eyaml.
      * specialize (IH (Dict.set n c self) Hnd).
        destruct (load_configs_ rest (Dict.set n c self)) as [[e|] self'].
        { destruct IH as (He & m & t & Hin & Hf & Hy).
          split; [exact He|]. exists m, t.
          split; [apply elem_of_cons; by right | by split]. }
        assert (Hset : forall m, m <> n ->
                  ConfigManager.get_config m (Dict.set n c self)
                  = ConfigManager.get_config m self).
        { intros m Hne. unfold ConfigManager.get_config.
          rewrite DictFacts.get_set. by destruct (decide (m = n)). }
        intros m. destruct (IH m) as [IH1 IH2]. split.
        -- intros Hin text' Hfile.
           apply elem_of_cons in Hin as [-> | Hin]; [|by apply IH1].
           rewrite Efile in Hfile. injection Hfile as <-.
           exists c. split; [exact Eyaml|].
           rewrite IH2 by (by left). unfold ConfigManager.get_config.
           rewrite DictFacts.get_set. by destruct (decide _).
        -- intros [Hnot | Hmiss].
           ++ apply not_elem_of_cons in Hnot as [Hne Hnot].
              rewrite IH2 by (by left). by apply Hset.
           ++ rewrite IH2 by (by right). apply Hset.
              intros ->. congruence.
      * split; [reflexivity|]. exists n, text.
        split; [apply elem_of_cons; by left | by split].
    + specialize (IH self Hnd).
      destruct (load_configs_ rest self) as [[e|] self'].
      { destruct IH as (He & m & t & Hin & Hf & Hy).
        split; [exact He|]. exists m, t.
        split; [apply elem_of_cons; by right | by split]. }
      intros m. destruct (IH m) as [IH1 IH2]. split.
      * intros Hin text' Hfile.
        apply elem_of_cons in Hin as [-> | Hin]; [congruence | by apply IH1].
      * intros [Hnot | Hmiss].
        -- apply not_elem_of_cons in Hnot as [_ Hnot]. apply IH2. by left.
        -- apply IH2. by right.
Qed.

(** [load_all_base_configs] never raises [FileNotFoundError] or
    [KeyError]: it raises only when a file that exists cannot be parsed.
    When it returns, each of [app], [prompts] and [youtube] whose file
    exists holds the configuration of its file, and every other name is
    as it was in the cache. *)
Theorem load_all_base_configs_spec (self : ConfigManager.t) :
  match load_all_ self with
  | (None, self') =>
      forall config_name,
        (config_name ∈ [lit "app"; lit "prompts"; lit "youtube"] ->
         forall text,
           fs !! ConfigManager.path_of base_path config_name = Some text ->
           exists c, yaml_safe_load text = Some c /\
                     ConfigManager.get_config config_name self' = inr c) /\
        (config_name ∉ [lit "app"; lit "prompts"; lit "youtube"] \/
         fs !! ConfigManager.path_of base_path config_name = None ->
         ConfigManager.get_config config_name self' =
         ConfigManager.get_config config_name self)
  | (Some e, _) =>
      e = ConfigManager.YAMLError /\
      exists config_name text,
        config_name ∈ [lit "app"; lit "prompts"; lit "youtube"] /\
        fs !! ConfigManager.path_of base_path config_name = Some text /\
        yaml_safe_load text = None
  end.
Proof.
  apply load_configs_spec.
  apply (bool_decide_unpack _). vm_compute. exact I.
Qed.

End ConfigFacts.

(** ** The loaders of the stages *)

Lemma filter_sublist {A : Type} (p q : A -> bool) (l : list A) :
  (forall x, p x = true -> q x = true) ->
  List.filter p l `sublist_of` List.filter q l.
Proof.
  intros H. induction l as [|x l IH]; cbn [List.filter]; [constructor|].
  destruct (p x) eqn:Ep.
  - rewrite (H x Ep). by constructor.
  - destruct (q x); [by constructor | exact IH].
Qed.

Lemma score_at_least_mono (t t' : Z) (video : MarkdownFile) :
  t <= t' -> score_at_least t' video = true -> score_at_least t video = true.
Proof.
  unfold score_at_least. intros Hle.
  destruct (Dict.get (lit "happiness_score") (frontmatter video)) as [[]|];
    try discriminate; intros H; apply Z.leb_le in H; apply Z.leb_le; lia.
Qed.

Section LoaderFacts.

Variable yaml_safe_load : str -> result (Dict.t str value).

Local Abbreviation load_fetch := (_load_videos_from_fetch yaml_safe_load).
Local Abbreviation load_assess := (_load_videos_from_assess yaml_safe_load).

Lemma load_videos_from_fetch_loadable (fetch_dir : list (str * str)) :
  load_fetch fetch_dir = loadable yaml_safe_load fetch_dir.
Proof.
  unfold loadable.
  induction fetch_dir as [|[name text] dir IH]; [reflexivity|].
  cbn [_load_videos_from_fetch omap list_omap snd].
  destruct (load_text yaml_safe_load text); by rewrite IH.
Qed.

(** The loader of the assess stage returns the records of the files that
    load, in the order of the files, and skips the others; the loader of
    the enhance stage returns those of them whose score is at least the
    threshold. *)
Theorem load_videos_from_fetch_spec (fetch_dir : list (str * str)) :
  Forall (fun video => exists f, f ∈ fetch_dir /\
                         load_text yaml_safe_load f.2 = Ok video)
         (load_fetch fetch_dir) /\
  (length (load_fetch fetch_dir) <= length fetch_dir)%nat /\
  (forall dir', load_fetch (fetch_dir ++ dir')
                = load_fetch fetch_dir ++ load_fetch dir') /\
  (forall records,
     Forall2 (fun f r => load_text yaml_safe_load f.2 = Ok r)
             fetch_dir records ->
     load_fetch fetch_dir = records) /\
  (forall t, load_assess t fetch_dir
             = List.filter (score_at_least t) (load_fetch fetch_dir)).
Proof.
  split; [|split; [|split; [|split]]].
  - induction fetch_dir as [|[name text] dir IH]; [constructor|].
    cbn [_load_videos_from_fetch].
    assert (IH' : Forall (fun video => exists f, f ∈ (name, text) :: dir /\
                            load_text yaml_safe_load f.2 = Ok video)
                         (load_fetch dir)).
    { eapply Forall_impl; [exact IH|]. intros v (f & Hin & Hf).
      exists f. split; [apply elem_of_cons; by right | exact Hf]. }
    destruct (load_text yaml_safe_load text) as [md|e] eqn:E; [|exact IH'].
    constructor; [|exact IH'].
    exists (name, text). split; [apply elem_of_cons; by left | exact E].
  - induction fetch_dir as [|[name text] dir IH]; [reflexivity|].
    cbn [_load_videos_from_fetch length].
    destruct (load_text yaml_safe_load text); cbn [length]; lia.
  - intros dir'. rewrite !load_videos_from_fetch_loadable.
    unfold loadable. apply omap_app.
  - intros records H. rewrite load_videos_from_fetch_loadable.
    by apply loadable_Forall2.
  - intros t. rewrite load_videos_from_fetch_loadable.
    apply load_videos_from_assess_filter.
Qed.

(** Raising the threshold only removes records: what the enhance stage
    loads at a threshold is among what it loads at any lower one, in the
    same order. *)
Theorem enhance_threshold_monotone (t t' : Z)
    (assess_dir : list (str * str)) :
  t <= t' ->
  load_assess t' assess_dir `sublist_of` load_assess t assess_dir.
Proof.
  intros Hle. rewrite !load_videos_from_assess_filter.
  apply filter_sublist. intros video. by apply score_at_least_mono.
Qed.

(** The [enhance] command runs the stage only with a threshold from 1 to
    5, and then every record the stage loads has a score in its header: a
    record without a score is never enhanced. *)
Theorem enhance_command_scored (repr : value -> str)
    (collaborator : nat -> call_outcome) (utcnow : nat -> str)
    (save_raises : nat -> bool) (threshold : Z)
    (assess_dir : list (str * str)) (r : run_result) :
  enhance_command repr yaml_safe_load collaborator utcnow save_raises
                  threshold assess_dir = Some r ->
  1 <= threshold <= 5 /\
  r = enhance_run repr yaml_safe_load threshold collaborator utcnow
                  save_raises assess_dir /\
  Forall (fun video =>
            exists v,
              Dict.get (lit "happiness_score") (frontmatter video) = Some v /\
              score_at_least threshold video = true)
         (load_assess threshold assess_dir).
Proof.
  unfold enhance_command.
  destruct (Z.ltb_spec threshold 1); [discriminate|].
  destruct (Z.ltb_spec 5 threshold); [discriminate|].
  cbn [orb]. intros [= <-]. split; [lia|]. split; [reflexivity|].
  rewrite load_videos_from_assess_filter.
  apply Forall_forall. intros video Hin.
  apply list_elem_of_In, List.filter_In in Hin as [_ Hs].
  unfold score_at_least in *.
  destruct (Dict.get (lit "happiness_score") (frontmatter video)) as [v|].
  - exists v. by split.
  - apply Z.leb_le in Hs. lia.
Qed.

End LoaderFacts.

Lemma enhance_threshold_monotone_witness :
  _load_videos_from_assess scalars_load 4 scored_dir
    `sublist_of` _load_videos_from_assess scalars_load 3 scored_dir.
Proof.
  apply (enhance_threshold_monotone scalars_load 3 4 scored_dir). lia.
Defined.

Lemma enhance_command_scored_witness :
  exists r,
    enhance_command scalar_dump scalars_load (fun _ => CallRaises)
                    (fun _ => lit "2025-11-16T12:00:00") (fun _ => false)
                    3 [unscored_file] = Some r /\
    r = enhance_run scalar_dump scalars_load 3 (fun _ => CallRaises)
                    (fun _ => lit "2025-11-16T12:00:00") (fun _ => false)
                    [unscored_file].
Proof.
  eexists. split; [reflexivity|].
  apply (enhance_command_scored scalars_load scalar_dump
           (fun _ => CallRaises) (fun _ => lit "2025-11-16T12:00:00")
           (fun _ => false) 3 [unscored_file] _ eq_refl).
Defined.

(** ** From the assess stage to the enhance stage *)

Section AssessToEnhance.

Variable yaml_dump : Dict.t str value -> str.
Variable yaml_safe_load : str -> result (Dict.t str value).
Variable repr : value -> str.
Variable prompt_name : str.
Variable prompt_version : Z.
Variable utcnow : nat -> str.

Local Abbreviation assessed_ :=
  (assessed repr prompt_name prompt_version utcnow).

(** The file the assess stage writes for a record is loaded by the enhance
    stage exactly when the response scored the record at least the
    threshold; a record the response left out has the score 0. *)
Theorem assessed_record_enhanced
    (results : Dict.t (option str) assessment) (i : nat)
    (video : MarkdownFile) (t : Z) :
  yaml_safe_load (yaml_dump (frontmatter (assessed_ results i video).2))
    = Ok (frontmatter (assessed_ results i video).2) ->
  contains sentinel (yaml_dump (frontmatter (assessed_ results i video).2))
    = false ->
  _load_videos_from_assess yaml_safe_load t
    [((assessed_ results i video).1,
      to_string yaml_dump (assessed_ results i video).2)] =
  if t <=? record_score results video
  then [ {| frontmatter := frontmatter (assessed_ results i video).2;
            content := strip (content video) |} ]
  else [].
Proof.
  intros Hyaml Hno.
  rewrite load_videos_from_assess_filter. unfold loadable.
  cbn [omap list_omap snd].
  rewrite (load_text_to_string yaml_dump yaml_safe_load _ Hno), Hyaml.
  cbn [mbind result_bind List.filter].
  unfold score_at_least, assessed, record_score.
  cbn [frontmatter content snd update_frontmatter].
  rewrite (DictFacts.get_update _ _ _ (assess_updates_NoDup _ _ _ _ _)).
  cbn [Dict.get assess_updates].
  repeat (destruct (decide _) as [Heq | _];
          [exfalso; revert Heq; vm_compute; discriminate|]).
  destruct (decide _) as [_ | Hne]; [|exfalso; by apply Hne].
  reflexivity.
Qed.

End AssessToEnhance.

(** The record [a] of the examples, scored 5 by the response, is loaded at
    the threshold 3. *)
Lemma assessed_record_enhanced_witness :
  let out := assessed scalar_dump (lit "rate_video_happiness") 2
                      (fun _ => lit "2025-11-16T11:00:00")
                      example_results O video_a in
  _load_videos_from_assess scalars_load 3
    [(out.1, to_string scalars_dump out.2)] =
  [ {| frontmatter := frontmatter out.2;
       content := strip (content video_a) |} ].
Proof.
  intros out.
  apply (assessed_record_enhanced scalars_dump scalars_load scalar_dump
           (lit "rate_video_happiness") 2
           (fun _ => lit "2025-11-16T11:00:00")
           example_results O video_a 3).
  - vm_compute. reflexivity.
  - vm_compute. reflexivity.
Defined.

(** ** Scores the report cannot compare *)

Lemma scores_of_raises (videos : list MarkdownFile) :
  Exists (fun v => score_of (frontmatter v) = Raise TypeError) videos ->
  scores_of videos = Raise TypeError.
Proof.
  induction videos as [|v videos IH]; intros H.
  - by apply Exists_nil in H.
  - cbn [scores_of].
    destruct (score_of (frontmatter v)) as [z|e] eqn:E.
    + cbn [mbind result_bind].
      apply Exists_cons in H as [H | H]; [congruence|].
      by rewrite (IH H).
    + cbn [mbind result_bind]. unfold score_of in E.
      destruct (Dict.get_default _ _ _); congruence.
Qed.

Lemma scores_of_numbers (videos : list MarkdownFile) (scores : list Z) :
  Forall2 (fun v z => score_of (frontmatter v) = Ok z) videos scores ->
  scores_of videos = Ok scores.
Proof.
  induction 1 as [|v z videos scores Hv _ IH]; [reflexivity|].
  cbn [scores_of]. rewrite Hv, IH. reflexivity.
Qed.

(** One enhanced record whose score is not a number (a string, a
    sequence, a mapping or an explicit null) makes the whole report fail:
    nothing is reported, rendered or exported, and one error is counted.
    When every score is a number, every record is reported and the
    average is taken over the scores above 0. *)
Theorem report_run_scores (today : date)
    (stage_videos : stage_name -> date -> list (Dict.t str value))
    (enhanced_videos : date -> list MarkdownFile)
    (render_raises : bool) (to_parquet_raises : stage_name -> bool)
    (has_templates : bool) (target_date : date) :
  (Exists (fun v => score_of (frontmatter v) = Raise TypeError)
          (enhanced_videos target_date) ->
   report_run today stage_videos enhanced_videos render_raises
              to_parquet_raises has_templates target_date =
   {| videos_reported := 0; report_errors := 1; report_avg := None;
      report_written := false; exports := [] |}) /\
  (forall scores,
     enhanced_videos target_date <> [] ->
     Forall2 (fun v z => score_of (frontmatter v) = Ok z)
             (enhanced_videos target_date) scores ->
     videos_reported
       (report_run today stage_videos enhanced_videos render_raises
                   to_parquet_raises has_templates target_date)
       = length (enhanced_videos target_date) /\
     report_errors
       (report_run today stage_videos enhanced_videos render_raises
                   to_parquet_raises has_templates target_date) = O /\
     report_avg
       (report_run today stage_videos enhanced_videos render_raises
                   to_parquet_raises has_templates target_date)
       = Some (mean_of (List.filter (fun z => 0 <? z) scores))).
Proof.
  unfold report_run. split.
  - intros H. destruct (enhanced_videos target_date) as [|v vs];
      [by apply Exists_nil in H|].
    by rewrite (scores_of_raises _ H).
  - intros scores Hne H.
    destruct (enhanced_videos target_date) as [|v vs]; [congruence|].
    rewrite (scores_of_numbers _ _ H). by repeat split.
Qed.

(** A record with the score [high] stops the report. *)
Lemma report_run_scores_witness :
  report_errors
    (report_run 20000 (fun _ _ => [])
       (fun _ => [ {| frontmatter := [(lit "happiness_score",
                                       VStr (lit "high"))];
                      content := [] |} ])
       false (fun _ => false) true 20000) = 1%nat.
Proof.
  rewrite (proj1 (report_run_scores 20000 (fun _ _ => [])
       (fun _ => [ {| frontmatter := [(lit "happiness_score",
                                       VStr (lit "high"))];
                      content := [] |} ])
       false (fun _ => false) true 20000)).
  - reflexivity.
  - apply Exists_cons. left. reflexivity.
Defined.
